(** * Geometry pipeline of the capture viewer: point clouds, LOD levels, meshes

    A shallow embedding of the algorithmic core of the repository:

    - [src/lib/processors/image-processor.ts]        (frame sampling)
    - [src/lib/processors/video-processor.ts]        (motion estimation)
    - [src/lib/processors/point-cloud-processor.ts]  (LOD generation and selection)
    - [src/lib/processors/mesh-processor.ts]         (simplification, hole filling, smoothing)
    - [src/components/viewer/camera-controls.ts]     (the viewer's own LOD generation)

    JavaScript numbers are IEEE 754 binary64 values; they are modelled by Rocq's
    primitive floats, whose operations are those of the hardware.  [Float32Array]
    stores go through [Math_fround].  Integers held in typed index arrays are
    modelled by [N], loop counters and lengths by [nat].  A thrown exception is
    a value of [result]; code that mutates a geometry in place is modelled by
    state passing.  The motion estimator is written once over a class of
    numbers, so that its text can also be read over the real numbers, where
    "normalized" means "of length 1".

    The three.js calls the processors make ([Vector3], [BufferAttribute],
    [BufferGeometry.setIndex]) are modelled from the library's sources. *)

From Stdlib Require Import ZArith NArith QArith Qround List Bool Lia Arith.
From Stdlib Require Import Floats Uint63 Reals Lra.
Import ListNotations.

Close Scope R_scope.
Close Scope Q_scope.
Close Scope Z_scope.
Open Scope nat_scope.

Set Implicit Arguments.

(** ** Exceptions *)

Inductive error : Type :=
| TypeError   (* property access on [undefined], destructuring of [undefined] *)
| OutOfFuel.  (* a loop of the model ran out of fuel; shown not to happen *)

Inductive result (A : Type) : Type :=
| Ok (a : A)
| Throw (e : error).

Arguments Ok {A} a.
Arguments Throw {A} e.

Definition bind {A B : Type} (m : result A) (k : A -> result B) : result B :=
  match m with
  | Ok a => k a
  | Throw e => Throw e
  end.

Notation "x <- m ;; k" := (bind m (fun x => k))
  (at level 61, m at next level, right associativity).

(** [a[i].x] style access: reading a property of [undefined] throws. *)
Definition defined {A : Type} (o : option A) : result A :=
  match o with
  | Some a => Ok a
  | None => Throw TypeError
  end.

(** ** JavaScript numbers *)

(** The arithmetic the processors use on numbers.  Two interpretations are
    given: [float_Number] is the one JavaScript runs (binary64); [R_Number]
    reads the same program text over the real numbers. *)
Class Number (T : Type) : Type := {
  num_of_Z : Z -> T;
  num_add : T -> T -> T;
  num_sub : T -> T -> T;
  num_mul : T -> T -> T;
  num_div : T -> T -> T;
  num_sqrt : T -> T;
  (* ToBoolean: [false] on 0, -0 and NaN *)
  num_truthy : T -> bool
}.

Definition float_of_Z (z : Z) : float :=
  if (z <? 0)%Z then (- of_uint63 (Uint63.of_Z (- z)))%float
  else of_uint63 (Uint63.of_Z z).

Definition float_of_nat (n : nat) : float := float_of_Z (Z.of_nat n).

Definition float_truthy (x : float) : bool :=
  negb (PrimFloat.is_nan x || PrimFloat.is_zero x).

#[export] Instance float_Number : Number float := {
  num_of_Z := float_of_Z;
  num_add := PrimFloat.add;
  num_sub := PrimFloat.sub;
  num_mul := PrimFloat.mul;
  num_div := PrimFloat.div;
  num_sqrt := PrimFloat.sqrt;
  num_truthy := float_truthy
}.

Definition R_truthy (x : R) : bool :=
  if Req_dec_T x 0%R then false else true.

#[export] Instance R_Number : Number R := {
  num_of_Z := IZR;
  num_add := Rplus;
  num_sub := Rminus;
  num_mul := Rmult;
  num_div := Rdiv;
  num_sqrt := R_sqrt.sqrt;
  num_truthy := R_truthy
}.

(** *** Typed-array conversions *)

Definition SF_round (prec emax : Z) (x : spec_float) : spec_float :=
  match x with
  | S754_finite s m e => binary_normalize prec emax (cond_Zopp s (Zpos m)) e s
  | _ => x
  end.

(** [Math.fround]: the binary32 value nearest to [x] (ties to even), as a
    binary64 number.  This is the conversion a [Float32Array] store applies. *)
Definition Math_fround (x : float) : float :=
  SF2Prim (SF_round 53 1024 (SF_round 24 128 (Prim2SF x))).

(** [Math.floor]. *)
Definition Math_floor (x : float) : float :=
  match Prim2SF x with
  | S754_finite s m e =>
      if (0 <=? e)%Z then x
      else SF2Prim (binary_normalize 53 1024
                      (Z.shiftl (cond_Zopp s (Zpos m)) e) 0 false)
  | _ => x
  end.

(** Integer part of a number, [0] for NaN and the infinities (the first step
    of ToUint16 / ToUint32). *)
Definition truncate (x : float) : Z :=
  match Prim2SF x with
  | S754_finite s m e => cond_Zopp s (Z.shiftl (Zpos m) e)
  | _ => 0%Z
  end.

(** ToUint16 (w = 16) and ToUint32 (w = 32) of a number. *)
Definition ToUint (w : N) (x : float) : N :=
  Z.to_N (truncate x mod 2 ^ Z.of_N w).

(** The same conversion on a number that is already a non-negative integer. *)
Definition wrap (w : N) (i : N) : N := (i mod 2 ^ w)%N.

(** ** three.js: Vector3 *)

Module Vector3.
Section Vector3.
Context {T : Type} `{Number T}.

Record t : Type := make { x : T; y : T; z : T }.

Definition zero : t := make (num_of_Z 0) (num_of_Z 0) (num_of_Z 0).

(* add( v ) { this.x += v.x; this.y += v.y; this.z += v.z; } *)
Definition add (u v : t) : t :=
make (num_add (x u) (x v)) (num_add (y u) (y v)) (num_add (z u) (z v)).

(* multiplyScalar( s ) { this.x *= s; this.y *= s; this.z *= s; } *)
Definition multiplyScalar (v : t) (s : T) : t :=
make (num_mul (x v) s) (num_mul (y v) s) (num_mul (z v) s).

(* divideScalar( s ) { return this.multiplyScalar( 1 / s ); } *)
Definition divideScalar (v : t) (s : T) : t :=
multiplyScalar v (num_div (num_of_Z 1) s).

(* length() { return Math.sqrt( x * x + y * y + z * z ); } *)
Definition length (v : t) : T :=
num_sqrt (num_add (num_add (num_mul (x v) (x v)) (num_mul (y v) (y v)))
                (num_mul (z v) (z v))).

(* normalize() { return this.divideScalar( this.length() || 1 ); } *)
Definition normalize (v : t) : t :=
let l := length v in
divideScalar v (if num_truthy l then l else num_of_Z 1).
End Vector3.
Arguments t T : clear implicits.
End Vector3.

(** ** three.js: buffer attributes *)

(** [attribute.getX(i)], [getY(i)], [getZ(i)] of an attribute of item size 3:
    [array[i * 3 + k]], which is [undefined] outside the array. *)
Definition getComponent (array : list float) (i : nat) (k : nat) : option float :=
  nth_error array (i * 3 + k).

(** [new THREE.Vector3(a.getX(i), a.getY(i), a.getZ(i))]: the constructor's
    parameters default to [0] when the argument is [undefined]. *)
Definition vertexAt (array : list float) (i : nat) : Vector3.t float :=
  let get k := match getComponent array i k with
               | Some v => v
               | None => 0%float
               end in
  Vector3.make (get 0%nat) (get 1%nat) (get 2%nat).

(** [new Float32Array(numbers)] *)
Definition Float32Array_from (numbers : list float) : list float :=
  map Math_fround numbers.

(** ** Raster frames *)

(** [ImageData]: [data] is the row-major RGBA byte buffer
    (a [Uint8ClampedArray], every entry in 0..255). *)
Record ImageData : Type := {
  width : nat;
  height : nat;
  data : list Z
}.

Definition byte (b : Z) : Prop := (0 <= b <= 255)%Z.

(** The values a loop [for (v = 0; v < stop; v += step)] visits, for a whole
    number [step >= 1]. *)
Definition steps (stop step : nat) : list nat :=
  filter (fun v => v mod step =? 0) (seq 0 stop).

(** [options.processingPreferences?.pointCloudDensity || 1] *)
Definition pointCloudDensity (preference : option nat) : nat :=
  match preference with
  | Some (S d) => S d
  | _ => 1
  end.

(** [data[i] / 255]; [undefined / 255] is NaN. *)
Definition channel (data : list Z) (i : nat) : float :=
  match nth_error data i with
  | Some b => (float_of_Z b / 255)%float
  | None => nan
  end.

(** The attributes of a point cloud geometry. *)
Record PointGeometry : Type := {
  position : list float;   (* Float32Array, 3 per point *)
  color : list float       (* Float32Array, 3 per point *)
}.

(** [attribute.count] for item size 3 is [array.length / 3]. *)
Definition count (array : list float) : Q := (Z.of_nat (length array) # 3)%Q.

(** ** image-processor.ts *)

Module ImageProcessor.

(** The test [if (a > 0.5)] of the sampling loop. *)
Definition retained (data : list Z) (i : nat) : bool :=
  (0.5 <? channel data (i + 3))%float.

(** The numbers one iteration pushes onto [points]. *)
Definition pointOf (img : ImageData) (x y : nat) : list float :=
  let i := (y * width img + x) * 4 in
  let r := channel (data img) i in
  let g := channel (data img) (i + 1) in
  let b := channel (data img) (i + 2) in
  if retained (data img) i then
    [ ((float_of_nat x - float_of_nat (width img) / 2) / 50)%float;
      ((float_of_nat (height img) / 2 - float_of_nat y) / 50)%float;
      ((r + g + b) / 3)%float ]
  else [].

(** The numbers one iteration pushes onto [colors]. *)
Definition colorOf (img : ImageData) (x y : nat) : list float :=
  let i := (y * width img + x) * 4 in
  if retained (data img) i then
    [ channel (data img) i; channel (data img) (i + 1); channel (data img) (i + 2) ]
  else [].

(** The pixels the two nested loops visit, in the order they visit them. *)
Definition sampled (img : ImageData) (density : nat) : list (nat * nat) :=
  flat_map (fun y => map (fun x => (x, y)) (steps (width img) density))
           (steps (height img) density).

Definition generatePointCloud (imageData : ImageData) (preference : option nat)
  : PointGeometry :=
  let density := pointCloudDensity preference in
  let points := flat_map (fun p => pointOf imageData (fst p) (snd p))
                         (sampled imageData density) in
  let colors := flat_map (fun p => colorOf imageData (fst p) (snd p))
                         (sampled imageData density) in
  {| position := Float32Array_from points;
     color := Float32Array_from colors |}.

End ImageProcessor.

(** ** video-processor.ts *)

Module VideoProcessor.

(** [Math.abs(frame2.data[i] - frame1.data[i]) > 30]; the difference is NaN,
    and the test false, when either read is out of range. *)
Definition changed (frame1 frame2 : ImageData) (i : nat) : bool :=
  match nth_error (data frame2) i, nth_error (data frame1) i with
  | Some b2, Some b1 => (30 <? Z.abs (b2 - b1))%Z
  | _, _ => false
  end.

Section Flow.
Context {T : Type} `{Number T}.

(** One iteration of the inner loop on the accumulators [(dx, dy)]. *)
Definition flowStep (frame1 frame2 : ImageData) (acc : T * T) (p : nat * nat)
  : T * T :=
  let '(x, y) := p in
  let i := (y * width frame1 + x) * 4 in
  if changed frame1 frame2 i then
    (num_add (fst acc)
       (num_sub (num_of_Z (Z.of_nat x))
                (num_div (num_of_Z (Z.of_nat (width frame1))) (num_of_Z 2))),
     num_add (snd acc)
       (num_sub (num_of_Z (Z.of_nat y))
                (num_div (num_of_Z (Z.of_nat (height frame1))) (num_of_Z 2))))
  else acc.

(** Every pixel of the frame, row by row. *)
Definition pixels (frame : ImageData) : list (nat * nat) :=
  flat_map (fun y => map (fun x => (x, y)) (seq 0 (width frame)))
           (seq 0 (height frame)).

Definition accumulate (frame1 frame2 : ImageData) : T * T :=
  fold_left (flowStep frame1 frame2) (pixels frame1) (num_of_Z 0, num_of_Z 0).

Definition calculateOpticalFlow (frame1 frame2 : ImageData) : Vector3.t T :=
  let '(dx, dy) := accumulate frame1 frame2 in
  Vector3.normalize (Vector3.make dx dy (num_of_Z 0)).
End Flow.

(** [analyzeMotion]: one vector per consecutive pair of frames. *)
Fixpoint analyzeMotion (frames : list ImageData) : list (Vector3.t float) :=
  match frames with
  | prev :: (curr :: _) as rest => calculateOpticalFlow prev curr :: analyzeMotion rest
  | _ => []
  end.

(** The numbers one iteration of [reconstruct3DScene] pushes onto [points]. *)
Definition pointOf (frame : ImageData) (depth : float) (x y : nat) : list float :=
  let i := (y * width frame + x) * 4 in
  let r := channel (data frame) i in
  let g := channel (data frame) (i + 1) in
  let b := channel (data frame) (i + 2) in
  if ImageProcessor.retained (data frame) i then
    [ ((float_of_nat x - float_of_nat (width frame) / 2) / 50)%float;
      ((float_of_nat (height frame) / 2 - float_of_nat y) / 50)%float;
      (depth * ((r + g + b) / 3))%float ]
  else [].

(** [frames.forEach((frame, index) => ...)] from position [index] on. *)
Fixpoint reconstructFrom (index : nat) (frames : list ImageData)
    (motionVectors : list (Vector3.t float)) (density : nat)
  : list float * list float :=
  match frames with
  | [] => ([], [])
  | frame :: rest =>
      (* motionVectors[index] || new THREE.Vector3() *)
      let motion := nth index motionVectors Vector3.zero in
      let depth := (Vector3.length motion * 10)%float in
      let here := ImageProcessor.sampled frame density in
      let '(points, colors) := reconstructFrom (S index) rest motionVectors density in
      (flat_map (fun p => pointOf frame depth (fst p) (snd p)) here ++ points,
       flat_map (fun p => ImageProcessor.colorOf frame (fst p) (snd p)) here ++ colors)
  end.

Definition reconstruct3DScene (frames : list ImageData)
    (motionVectors : list (Vector3.t float)) (preference : option nat)
  : PointGeometry :=
  let '(points, colors) :=
    reconstructFrom 0 frames motionVectors (pointCloudDensity preference) in
  {| position := Float32Array_from points;
     color := Float32Array_from colors |}.

End VideoProcessor.

(** ** point-cloud-processor.ts *)

Module PointCloudProcessor.

(** [THREE.Points]: a geometry and the [visible] flag of [Object3D]
    ([true] on construction). *)
Record Points : Type := {
  geometry : PointGeometry;
  visible : bool
}.

(** [array[j]] read for a store into a [Float32Array]: [undefined] is stored
    as NaN; a value read from a [Float32Array] is stored unchanged. *)
Definition read (array : list float) (j : nat) : float :=
  nth j array nan.

(** The three entries the loop body copies for output point [i]. *)
Definition copied (array : list float) (stride : nat) (i : nat) : list float :=
  let j := i * (stride * 3) in
  [read array j; read array (j + 1); read array (j + 2)].

(** [ratio] is a power of two in every call, so [1 / ratio] and the product
    with an integer count are exact in binary64; a count with a fractional
    part (an array that does not end on a whole point) is rounded by less
    than the distance to the next integer for every array that fits in
    memory, which leaves the floor the same.  The model computes in [Q].
    A [ratio] that is not positive is outside the model (the array
    constructor would throw). *)
Definition decimateGeometry (geometry : PointGeometry) (ratio : Q) : PointGeometry :=
  let vertexCount := Z.to_nat (Qfloor (count (position geometry) * ratio)) in
  let stride := Z.to_nat (Qfloor (1 / ratio)) in
  {| position := flat_map (copied (position geometry) stride) (seq 0 vertexCount);
     color := flat_map (copied (color geometry) stride) (seq 0 vertexCount) |}.

(** The iterations [i, i + 1, ..., i + n - 1] of the loop of
    [generateLODLevels], started on [currentGeometry]. *)
Fixpoint generateFrom (i n : nat) (currentGeometry : PointGeometry) : list Points :=
  match n with
  | O => []
  | S n' =>
      let decimationRatio := (1 / inject_Z (2 ^ Z.of_nat (i + 1)))%Q in
      let simplifiedGeometry := decimateGeometry currentGeometry decimationRatio in
      {| geometry := simplifiedGeometry; visible := true |}
        :: generateFrom (S i) n' simplifiedGeometry
  end.

(** The value of [this.levels] after [generateLODLevels(levels)] on a
    processor whose geometry is [geometry]. *)
Definition generateLODLevels (geometry : PointGeometry) (levels : nat) : list Points :=
  generateFrom 0 levels geometry.

Inductive quality : Type := low | medium | high.

Definition getLODLevels (q : option quality) : nat :=
  match q with
  | Some low => 2
  | Some medium | None => 4
  | Some high => 6
  end.

(** The ladder of [updateLOD]. *)
Definition activeLOD (distance : float) : nat :=
  if (50 <? distance)%float then 4
  else if (20 <? distance)%float then 3
  else if (10 <? distance)%float then 2
  else if (5 <? distance)%float then 1
  else 0.

(** [levels.forEach((level, index) => ...)] from position [index] on. *)
Fixpoint showOnly (active index : nat) (levels : list Points) : list Points :=
  match levels with
  | [] => []
  | level :: rest =>
      {| geometry := geometry level; visible := index =? active |}
        :: showOnly active (S index) rest
  end.

(** The value of [this.levels] after [updateLOD(camera)], where [distance]
    is the distance of the camera to the cloud. *)
Definition updateLOD (levels : list Points) (distance : float) : list Points :=
  showOnly (activeLOD distance) 0 levels.

End PointCloudProcessor.

(** ** mesh-processor.ts *)

(** The attributes of a mesh geometry: the position attribute's array and
    what [geometry.getIndex()?.array] yields, the index attribute's array.
    The latter is absent on a geometry without index, and also on a geometry
    whose index is not a buffer attribute (see [setIndexTyped]): the readers
    of the index do not tell the two apart. *)
Record MeshGeometry : Type := {
  positions : list float;        (* Float32Array, 3 per vertex *)
  indices : option (list N)      (* Uint16Array / Uint32Array, 3 per triangle *)
}.

(** The index triples [(indices[i], indices[i + 1], indices[i + 2])] that a
    loop [for (i = 0; i < indices.length; i += 3)] reads.  An index array of
    a triangle mesh holds whole triples; [whole] says so. *)
Fixpoint triples (indices : list N) : list (N * N * N) :=
  match indices with
  | a :: b :: c :: rest => (a, b, c) :: triples rest
  | _ => []
  end.

Definition whole (indices : list N) : Prop := length indices mod 3 = 0.

(** *** three.js: setIndex on a plain array *)

(** [arrayNeedsUint32]: some entry is [>= 65535]. *)
Definition arrayNeedsUint32 (ints : list N) (numbers : list float) : bool :=
  existsb (fun i => (65535 <=? i)%N) ints
  || existsb (fun v => (65535 <=? v)%float) numbers.

(** [geometry.setIndex(array)] for the plain array that [fillHole] builds:
    the integers [ints] copied from the old index followed by the pushed
    [numbers].  The array becomes a [Uint32Array] or a [Uint16Array]. *)
Definition setIndex (ints : list N) (numbers : list float) : list N :=
  let w := if arrayNeedsUint32 ints numbers then 32%N else 16%N in
  map (wrap w) ints ++ map (ToUint w) numbers.

(** [geometry.setIndex(array)] for a typed array: three.js wraps a plain
    [Array] in a buffer attribute and stores every other value as it is.
    The typed array becomes [geometry.index] itself, and it has no [array]
    property, so that [getIndex()?.array] is [undefined] from then on,
    whatever the typed array holds. *)
Definition setIndexTyped (geometry : MeshGeometry) (array : list N) : MeshGeometry :=
  {| positions := positions geometry; indices := None |}.

Module MeshProcessor.

Definition edge : Type := N * N.

Definition buildEdgeList (indices : list N) : list edge :=
  flat_map (fun t => let '(a, b, c) := t in [(a, b); (b, c); (c, a)])
           (triples indices).

(** [mergeVertices] has an empty body. *)
Definition mergeVertices (a b : N) : unit := tt.

(** The [while] loop of [collapseEdges].  [stack] is [remainingEdges] with
    its last element first, so that [pop] takes the head.  Destructuring
    the [undefined] that [pop] returns on an empty array throws. *)
Fixpoint collapseLoop (stack : list edge) (targetCount : float) : result unit :=
  if (targetCount * 3 <? float_of_nat (length stack))%float then
    match stack with
    | [] => Throw TypeError
    | (a, b) :: rest =>
        let _ := mergeVertices a b in
        collapseLoop rest targetCount
    end
  else Ok tt.

Definition collapseEdges (edges : list edge) (targetCount : float)
  : result (list N) :=
  let newIndices : list N := [] in
  _ <- collapseLoop (rev edges) targetCount ;;
  Ok newIndices.

(** [collapseEdges] returns a [Uint32Array], which [simplified.setIndex]
    stores as it is. *)
Definition simplifyGeometry (geometry : MeshGeometry) (simplificationRatio : float)
  : result MeshGeometry :=
  match indices geometry with
  | None => Ok geometry
  | Some idx =>
      let targetCount :=
        Math_floor (float_of_nat (length idx) / 3 * (1 - simplificationRatio))%float in
      let edges := buildEdgeList idx in
      newIndices <- collapseEdges edges targetCount ;;
      let simplified := {| positions := positions geometry; indices := None |} in
      Ok (setIndexTyped simplified newIndices)
  end.

(** *** Boundary detection *)

(** [Map<string, number>] keyed by ["min,max"]: the entries in insertion
    order, each key once.  The key string determines the pair it was built
    from, which [split(',').map(Number)] recovers; the model keeps the pair. *)
Definition edgeMap : Type := list (edge * nat).

Definition edge_eqb (e f : edge) : bool :=
  (fst e =? fst f)%N && (snd e =? snd f)%N.

Fixpoint get (edges : edgeMap) (key : edge) : option nat :=
  match edges with
  | [] => None
  | (k, v) :: rest => if edge_eqb k key then Some v else get rest key
  end.

(** [Map.set]: an existing key keeps its place. *)
Fixpoint set (edges : edgeMap) (key : edge) (value : nat) : edgeMap :=
  match edges with
  | [] => [(key, value)]
  | (k, v) :: rest =>
      if edge_eqb k key then (k, value) :: rest
      else (k, v) :: set rest key value
  end.

Definition canonical (a b : N) : edge := (N.min a b, N.max a b).

Definition addEdge (edges : edgeMap) (a b : N) : edgeMap :=
  let key := canonical a b in
  set edges key (match get edges key with Some n => n | None => 0 end + 1).

Definition countEdges (indices : list N) : edgeMap :=
  fold_left (fun edges t =>
               let '(a, b, c) := t in
               addEdge (addEdge (addEdge edges a b) b c) c a)
            (triples indices) [].

Definition findBoundaries (indices : list N) : list (list N) :=
  flat_map (fun entry =>
              let '((a, b), n) := entry in
              if n =? 1 then [[a; b]] else [])
           (countEdges indices).

(** *** Hole filling *)

Section FillHoles.
(** [findEar] is called by [triangulateHole] and is not defined in the
    class; it is a parameter here. *)
Variable findEar : list (Vector3.t float) -> Z.

(** [remaining[k]] for a number [k]: [undefined] unless [0 <= k < length]. *)
Definition at_ (remaining : list (Vector3.t float)) (k : Z)
  : option (Vector3.t float) :=
  if (k <? 0)%Z then None else nth_error remaining (Z.to_nat k).

(** [remaining.splice(k, 1)] for [0 <= k < length]. *)
Definition splice1 (remaining : list (Vector3.t float)) (k : Z)
  : list (Vector3.t float) :=
  firstn (Z.to_nat k) remaining ++ skipn (S (Z.to_nat k)) remaining.

(** The [while (remaining.length > 3)] loop; the state is
    [(triangles, remaining)]. *)
Fixpoint clipEars (fuel : nat) (triangles : list float)
    (remaining : list (Vector3.t float))
  : result (list float * list (Vector3.t float)) :=
  if 3 <? length remaining then
    match fuel with
    | O => Throw OutOfFuel
    | S fuel' =>
        let len := Z.of_nat (length remaining) in
        let earIndex := findEar remaining in
        let prev := Z.rem (earIndex - 1 + len) len in
        let next := Z.rem (earIndex + 1) len in
        p <- defined (at_ remaining prev) ;;
        e <- defined (at_ remaining earIndex) ;;
        n <- defined (at_ remaining next) ;;
        clipEars fuel'
          (triangles ++ [Vector3.x p; Vector3.x e; Vector3.x n])
          (splice1 remaining earIndex)
    end
  else Ok (triangles, remaining).

Definition triangulateHole (vertices : list (Vector3.t float))
  : result (list float) :=
  st <- clipEars (length vertices) [] vertices ;;
  let '(triangles, remaining) := st in
  v0 <- defined (nth_error remaining 0) ;;
  v1 <- defined (nth_error remaining 1) ;;
  v2 <- defined (nth_error remaining 2) ;;
  Ok (triangles ++ [Vector3.x v0; Vector3.x v1; Vector3.x v2]).

(** The geometry after [fillHole(geometry, boundary)], or the exception it
    throws; the geometry is not touched before the last statement. *)
Definition fillHole (geometry : MeshGeometry) (boundary : list N)
  : result MeshGeometry :=
  let holeVertices :=
    map (fun i => vertexAt (positions geometry) (N.to_nat i)) boundary in
  triangles <- triangulateHole holeVertices ;;
  old <- defined (indices geometry) ;;
  Ok {| positions := positions geometry;
        indices := Some (setIndex old triangles) |}.

(** [for (const boundary of boundaries) await this.fillHole(...)]: the
    geometry when the loop ends, normally or by an exception. *)
Fixpoint fillEach (geometry : MeshGeometry) (boundaries : list (list N))
  : MeshGeometry * result unit :=
  match boundaries with
  | [] => (geometry, Ok tt)
  | boundary :: rest =>
      match fillHole geometry boundary with
      | Ok geometry' => fillEach geometry' rest
      | Throw e => (geometry, Throw e)
      end
  end.

Definition fillHoles (geometry : MeshGeometry) : MeshGeometry * result unit :=
  match indices geometry with
  | None => (geometry, Ok tt)
  | Some idx => fillEach geometry (findBoundaries idx)
  end.
End FillHoles.

(** *** Laplacian smoothing *)

(** [Set.add]: a member is not added again; iteration follows insertion. *)
Definition add (neighbors : list N) (v : N) : list N :=
  if existsb (N.eqb v) neighbors then neighbors else neighbors ++ [v].

Definition findVertexNeighbors (geometry : MeshGeometry) (vertexIndex : nat)
  : result (list N) :=
  idx <- defined (indices geometry) ;;
  Ok (fold_left
        (fun neighbors t =>
           let '(a, b, c) := t in
           if (a =? N.of_nat vertexIndex)%N then add (add neighbors b) c
           else if (b =? N.of_nat vertexIndex)%N then add (add neighbors a) c
           else if (c =? N.of_nat vertexIndex)%N then add (add neighbors a) b
           else neighbors)
        (triples idx) []).

(** The centroid the loop body computes from the neighbours of a vertex. *)
Definition centroidOf (positions : list float) (neighbors : list N)
  : Vector3.t float :=
  Vector3.divideScalar
    (fold_left (fun centroid neighbor =>
                  Vector3.add centroid (vertexAt positions (N.to_nat neighbor)))
               neighbors Vector3.zero)
    (float_of_nat (length neighbors)).

(** The three stores of iteration [i] into [smoothedPositions]. *)
Definition smoothedAt (geometry : MeshGeometry) (i : nat) : result (list float) :=
  neighbors <- findVertexNeighbors geometry i ;;
  let centroid := centroidOf (positions geometry) neighbors in
  Ok (Float32Array_from
        [Vector3.x centroid; Vector3.y centroid; Vector3.z centroid]).

Fixpoint smoothEach (geometry : MeshGeometry) (vertices : list nat)
  : result (list float) :=
  match vertices with
  | [] => Ok []
  | i :: rest =>
      here <- smoothedAt geometry i ;;
      there <- smoothEach geometry rest ;;
      Ok (here ++ there)
  end.

(** [positions.count] is [array.length / 3]; the loop runs while
    [i < positions.count], and stores past the end of [smoothedPositions]
    (which has the length of the position array) are dropped. *)
Definition smoothGeometry (geometry : MeshGeometry) : result MeshGeometry :=
  let n := length (positions geometry) in
  smoothed <- smoothEach geometry (seq 0 ((n + 2) / 3)) ;;
  Ok {| positions := firstn n smoothed; indices := indices geometry |}.

End MeshProcessor.

(** ** Concrete inputs *)

Module Inputs.

(** A 2x2 frame: red, green (alpha 51, that is 0.2), blue, white. *)
Definition frame2x2 : ImageData :=
  {| width := 2; height := 2;
     data := [255; 0; 0; 255;   0; 255; 0; 51;
              0; 0; 255; 255;   255; 255; 255; 255]%Z |}.

(** [frame2x2] with the red channel of its first pixel cleared. *)
Definition frame2x2' : ImageData :=
  {| width := 2; height := 2;
     data := [0; 0; 0; 255;   0; 255; 0; 51;
              0; 0; 255; 255;   255; 255; 255; 255]%Z |}.

(** A 1x1 frame whose pixel has alpha 64, about 0.25. *)
Definition frame1x1 : ImageData :=
  {| width := 1; height := 1; data := [255; 255; 255; 64]%Z |}.

(** A cloud of one point. *)
Definition singlePoint : PointGeometry :=
  {| position := [1; 2; 3]%float; color := [0.5; 0.5; 0.5]%float |}.

(** A cloud of two points. *)
Definition twoPoints : PointGeometry :=
  {| position := [1; 2; 3; 4; 5; 6]%float;
     color := [0.5; 0.5; 0.5; 0.25; 0.25; 0.25]%float |}.

(** A cloud of 16 points, point [k] at [(3k, 3k + 1, 3k + 2)]. *)
Definition sixteenPoints : PointGeometry :=
  {| position := map float_of_nat (seq 0 48);
     color := map float_of_nat (seq 100 48) |}.

(** One triangle. *)
Definition triangle : MeshGeometry :=
  {| positions := [0; 0; 0;  1; 0; 0;  0; 1; 0]%float;
     indices := Some [0; 1; 2]%N |}.

(** Three vertices whose x coordinates are 5, 7 and 9, and one triangle. *)
Definition shifted : MeshGeometry :=
  {| positions := [5; 0; 0;  7; 0; 0;  9; 1; 0]%float;
     indices := Some [0; 1; 2]%N |}.

(** One triangle and a fourth vertex that no triangle uses. *)
Definition withIsolated : MeshGeometry :=
  {| positions := [0; 0; 0;  1; 0; 0;  0; 1; 0;  1; 2; 3]%float;
     indices := Some [0; 1; 2]%N |}.

(** One vertex and an empty index: no vertex has a neighbour. *)
Definition loneVertex : MeshGeometry :=
  {| positions := [1; 2; 3]%float; indices := Some [] |}.

(** The same triangle three times: every edge lies on three triangles. *)
Definition tripled : list N := [0; 1; 2;  0; 1; 2;  0; 1; 2]%N.

(** A tetrahedron: every edge lies on two triangles. *)
Definition tetrahedron : MeshGeometry :=
  {| positions := [0; 0; 0;  1; 0; 0;  0; 1; 0;  0; 0; 1]%float;
     indices := Some [0; 2; 1;  0; 1; 3;  1; 2; 3;  0; 3; 2]%N |}.

Definition firstEar (remaining : list (Vector3.t float)) : Z := 0%Z.

End Inputs.

(** ** Vocabulary of the statements *)

Module LOD.
Import PointCloudProcessor.

(** Number of whole points in an attribute array. *)
Definition pointCount (array : list float) : nat := length array / 3.

(** The stride of level [i] relative to the input cloud: the loop decimates
    the previous level by [2 ^ (i + 1)], so the strides multiply up. *)
Definition cumulativeStride (i : nat) : nat := 2 ^ ((i + 1) * (i + 2) / 2).

(** Every [stride]-th point of [array], as many as fit. *)
Definition everyNth (array : list float) (stride n : nat) : list float :=
  flat_map (copied array stride) (seq 0 n).

(** Decimation by an integer stride, the form [decimateGeometry] takes on
    the ratios [generateLODLevels] passes. *)
Definition strided (g : PointGeometry) (stride : nat) : PointGeometry :=
  let n := length (position g) / (3 * stride) in
  {| position := everyNth (position g) stride n;
     color := everyNth (color g) stride n |}.

(** Exponent of the stride that iteration [i + k] has accumulated since
    iteration [i]. *)
Fixpoint exponent (i k : nat) : nat :=
  match k with
  | O => i + 1
  | S k' => (i + 1) + exponent (S i) k'
  end.

(** Number of levels whose [visible] flag is set. *)
Definition visibleCount (levels : list Points) : nat :=
  length (filter visible levels).

End LOD.

Module Sampling.

(** A frame whose buffer has four bytes per pixel. *)
Definition wellFormed (img : ImageData) : Prop :=
  length (data img) = width img * height img * 4 /\ Forall byte (data img).

(** Normalized alpha of the pixel at [p = (x, y)]. *)
Definition alpha (img : ImageData) (p : nat * nat) : float :=
  channel (data img) ((snd p * width img + fst p) * 4 + 3).

(** Alpha byte of the pixel at [p]. *)
Definition alphaByte (img : ImageData) (p : nat * nat) : option Z :=
  nth_error (data img) ((snd p * width img + fst p) * 4 + 3).

(** The position of the point made from the pixel at [p]. *)
Definition coordinates (img : ImageData) (p : nat * nat) : list float :=
  let i := (snd p * width img + fst p) * 4 in
  [ ((float_of_nat (fst p) - float_of_nat (width img) / 2) / 50)%float;
    ((float_of_nat (height img) / 2 - float_of_nat (snd p)) / 50)%float;
    ((channel (data img) i + channel (data img) (i + 1)
      + channel (data img) (i + 2)) / 3)%float ].

(** The rule of the specification for a threshold [t]: the sampled pixels
    that are not dropped, a pixel being dropped when its alpha is [< t]. *)
Definition notBelow (t : float) (img : ImageData) (density : nat)
  : list (nat * nat) :=
  filter (fun p => negb (alpha img p <? t)%float)
         (ImageProcessor.sampled img density).

(** The three comparisons of a normalized byte with 0.5, for all 256 bytes. *)
Definition byteFacts (n : nat) : bool :=
  let a := (float_of_nat n / 255)%float in
  Bool.eqb (0.5 <? a)%float (negb (a <? 0.5)%float)
  && negb (a =? 0.5)%float
  && Bool.eqb (0.5 <? a)%float (128 <=? n).

End Sampling.

Module Boundary.
Import MeshProcessor.

Definition edge_eq_dec (e f : edge) : {e = f} + {e <> f}.
Proof. decide equality; apply N.eq_dec. Defined.

Arguments edge_eq_dec : simpl never.

(** The canonical (min, max) form of an edge. *)
Definition canon (e : edge) : edge := canonical (fst e) (snd e).

(** The canonical edges of a mesh, three per triangle, repeats included. *)
Definition canonicalEdges (indices : list N) : list edge :=
  map canon (buildEdgeList indices).

(** Triangle-incidence count of a canonical edge. *)
Definition incidence (indices : list N) (e : edge) : nat :=
  count_occ edge_eq_dec (canonicalEdges indices) e.

(** The count a map holds for a key, [0] when the key is absent. *)
Definition held (edges : edgeMap) (key : edge) : nat :=
  match get edges key with
  | Some n => n
  | None => 0
  end.

(** [addEdge] folded over a list of edges. *)
Definition addAll (edges : edgeMap) (l : list edge) : edgeMap :=
  fold_left (fun m e => addEdge m (fst e) (snd e)) l edges.

(** Every count a map holds is positive. *)
Definition positive' (m : edgeMap) : Prop :=
  forall k v, get m k = Some v -> 1 <= v.

End Boundary.

Module Mesh.

(** The invariant of the data model: every index of the triangle list is
    below the number of vertices. *)
Definition validIndices (g : MeshGeometry) : Prop :=
  match indices g with
  | Some idx => Forall (fun i => N.to_nat i < length (positions g) / 3) idx
  | None => True
  end.

(** The entries of a [Uint16Array] or [Uint32Array]. *)
Definition uint32 (idx : list N) : Prop := Forall (fun i => (i < 2 ^ 32)%N) idx.

(** The target triangle count that [simplifyGeometry] passes on. *)
Definition targetCount (idx : list N) (simplificationRatio : float) : float :=
  Math_floor (float_of_nat (length idx) / 3 * (1 - simplificationRatio))%float.

(** The target is not below the number of triangles; this is the negation
    of the loop test of [collapseEdges] on entry. *)
Definition targetReached (idx : list N) (simplificationRatio : float) : bool :=
  negb (targetCount idx simplificationRatio * 3
        <? float_of_nat (length (MeshProcessor.buildEdgeList idx)))%float.

End Mesh.

Module Rounding.

(** A mantissa [m] at exponent [e] that stands for a number of at most
    [2 ^ K]. *)
Definition le2 (K m e : Z) : Prop := (0 <= m <= 2 ^ (K - e))%Z.

End Rounding.

Module Motion.
Import VideoProcessor.

(** No pixel of the frame differs by more than the change threshold. *)
Definition unchanged (frame1 frame2 : ImageData) : bool :=
  forallb (fun p => negb (changed frame1 frame2
                            ((snd p * width frame1 + fst p) * 4)))
          (pixels frame1).

End Motion.

(** The motion estimate stated without the estimator's loop: which pixels
    count as changed, in which order they are visited, and what is added up
    for each of them. *)
Module MotionSpec.

(** The red byte of the pixel in column [x] of row [y]: four bytes per
    pixel, row after row. *)
Definition red (frame : ImageData) (x y : nat) : option Z :=
  nth_error (data frame) (4 * (y * width frame + x)).

(** The red channels of the two frames differ by more than the change
    threshold 30 at the pixel [p = (x, y)]. *)
Definition exceeds (frame1 frame2 : ImageData) (p : nat * nat) : bool :=
  match red frame1 (fst p) (snd p), red frame2 (fst p) (snd p) with
  | Some a, Some b => (30 <? Z.abs (b - a))%Z
  | _, _ => false
  end.

(** The pixels [(x, y)] of a frame of [w] columns and [h] rows, numbered
    row by row. *)
Definition rowMajor (w h : nat) : list (nat * nat) :=
  map (fun k => (k mod w, k / w)) (seq 0 (w * h)).

(** The changed pixels of a pair of frames, in row-major order. *)
Definition changedPixels (frame1 frame2 : ImageData) : list (nat * nat) :=
  filter (exceeds frame1 frame2) (rowMajor (width frame1) (height frame1)).

Section Totals.
Context {T : Type} `{Number T}.

(** Offset of the pixel [p] from the centre of the frame. *)
Definition offsetX (frame : ImageData) (p : nat * nat) : T :=
  num_sub (num_of_Z (Z.of_nat (fst p)))
          (num_div (num_of_Z (Z.of_nat (width frame))) (num_of_Z 2)).

Definition offsetY (frame : ImageData) (p : nat * nat) : T :=
  num_sub (num_of_Z (Z.of_nat (snd p)))
          (num_div (num_of_Z (Z.of_nat (height frame))) (num_of_Z 2)).

(** The offsets of the pixels of [l], added to 0 one after the other. *)
Definition total (offset : nat * nat -> T) (l : list (nat * nat)) : T :=
  fold_left (fun acc p => num_add acc (offset p)) l (num_of_Z 0).
End Totals.

End MotionSpec.

(** ** image-processor.ts: stride simplification *)

(** The entries of a [new Float32Array(n)] after a loop has stored the
    numbers [written] at the indices 0, 1, 2, ...: a store past the end is
    dropped, and an entry that is never stored keeps its initial 0. *)
Definition stored (n : nat) (written : list float) : list float :=
  firstn n (written ++ repeat 0%float (n - length written)).

(** The number of values [i = 0, 3 * stride, 6 * stride, ...] below [stop]
    that a loop [for (i = 0; i < stop; i += 3 * stride)] visits, for a
    whole [stride >= 1]. *)
Definition iterations (stop stride : nat) : nat :=
  (stop + (3 * stride - 1)) / (3 * stride).

Module ImageOptimizer.
Import PointCloudProcessor.

(** [options.processingPreferences?.geometrySimplification || 1] *)
Definition geometrySimplification (preference : option float) : float :=
  match preference with
  | Some v => if float_truthy v then v else 1%float
  | None => 1%float
  end.

(** The attribute arrays after the loop of [optimizeGeometry] for a finite
    [stride]: the new arrays have [length / stride] entries (the quotient
    is truncated by the array constructor), iteration [k] stores the three
    entries it reads at [3 * stride * k]. *)
Definition simplified (geometry : PointGeometry) (stride : nat) : PointGeometry :=
  let n := iterations (length (position geometry)) stride in
  {| position := stored (length (position geometry) / stride)
                        (flat_map (copied (position geometry) stride) (seq 0 n));
     color := stored (length (color geometry) / stride)
                     (flat_map (copied (color geometry) stride) (seq 0 n)) |}.

(** The geometry of the returned [points]; the bounding sphere and box
    that the method computes first are not attributes.  [stride] is an
    integer that is at least 1 when the test [simplification > 1] passes;
    for the stride [Infinity] both new arrays have [length / Infinity = 0]
    entries. *)
Definition optimizeGeometry (geometry : PointGeometry) (preference : option float)
  : PointGeometry :=
  let simplification := geometrySimplification preference in
  if (1 <? simplification)%float then
    let stride := Math_floor simplification in
    if PrimFloat.is_infinity stride then {| position := []; color := [] |}
    else simplified geometry (Z.to_nat (truncate stride))
  else geometry.

End ImageOptimizer.

(** ** video-processor.ts: background removal *)

Module BackgroundProcessor.

(** [options.processingPreferences?.backgroundRemovalThreshold || this.threshold] *)
Definition thresholdOf (preference : option float) : float :=
  match preference with
  | Some v => if float_truthy v then v else 0.5%float
  | None => 0.5%float
  end.

(** Entry [j] of the buffer is overwritten by the loop: [j] is the alpha
    position [i + 3] of an iteration [i = 0, 4, 8, ...] and
    [mask.data[i + 3] / 255 < threshold] (false when the mask has no such
    entry, the quotient being NaN). *)
Definition cleared (mask : list Z) (threshold : float) (j : nat) : bool :=
  (j mod 4 =? 3) && (channel mask j <? threshold)%float.

(** The loop of [removeBackground].  [processedData] is the frame as read
    back from the canvas, [mask] the image the segmentation model returned;
    both come from outside the class. *)
Definition removeBackground (processedData mask : ImageData)
    (preference : option float) : ImageData :=
  let threshold := thresholdOf preference in
  {| width := width processedData;
     height := height processedData;
     data := map (fun entry =>
                    if cleared (data mask) threshold (fst entry) then 0%Z
                    else snd entry)
                 (combine (seq 0 (length (data processedData)))
                          (data processedData)) |}.

End BackgroundProcessor.

(** ** camera-controls.ts: the viewer's point cloud processor *)

Module Viewer.
Import PointCloudProcessor.

(** Iteration [i] of the loop of [generateLODLevels]: [reduction] is
    [Math.pow(2, i)], the arrays are those of the processor's own geometry in
    every iteration, and [index = j / reduction] runs over 0, 3, 6, ... *)
Definition level (geometry : PointGeometry) (i : nat) : Points :=
  let reduction := 2 ^ i in
  let n := iterations (length (position geometry)) reduction in
  {| geometry :=
       {| position := stored (length (position geometry) / reduction)
                             (flat_map (copied (position geometry) reduction) (seq 0 n));
          color := stored (length (color geometry) / reduction)
                          (flat_map (copied (color geometry) reduction) (seq 0 n)) |};
     visible := true |}.

(** The value of [this.levels] after [generateLODLevels(levels)]. *)
Definition generateLODLevels (geometry : PointGeometry) (levels : nat) : list Points :=
  map (level geometry) (seq 0 levels).

(** [updateLOD] has the text of the library processor's method. *)
Definition updateLOD (levels : list Points) (distance : float) : list Points :=
  showOnly (activeLOD distance) 0 levels.

End Viewer.

(** ** Vocabulary of the further statements *)

Module Adjacency.

(** [u] and [v] are corners of one triangle, at two different places of it. *)
Definition corners (t : N * N * N) (u v : N) : Prop :=
  let '(a, b, c) := t in
  (a = v /\ (u = b \/ u = c)) \/
  (b = v /\ (u = a \/ u = c)) \/
  (c = v /\ (u = a \/ u = b)).

Definition shares (indices : list N) (u v : N) : Prop :=
  exists t, In t (triples indices) /\ corners t u v.

(** The loop body of [findVertexNeighbors] on the set built so far. *)
Definition visit (vertexIndex : nat) (neighbors : list N) (t : N * N * N) : list N :=
  let '(a, b, c) := t in
  if (a =? N.of_nat vertexIndex)%N then MeshProcessor.add (MeshProcessor.add neighbors b) c
  else if (b =? N.of_nat vertexIndex)%N then MeshProcessor.add (MeshProcessor.add neighbors a) c
  else if (c =? N.of_nat vertexIndex)%N then MeshProcessor.add (MeshProcessor.add neighbors a) b
  else neighbors.

End Adjacency.

Module Frames.

(** The sampling loop keeps the pixel at [p]: its alpha byte exists and is
    at least 128. *)
Definition kept (img : ImageData) (p : nat * nat) : bool :=
  match Sampling.alphaByte img p with
  | Some b => (128 <=? b)%Z
  | None => false
  end.

(** A number of the unit interval. *)
Definition unit (c : float) : bool := (0 <=? c)%float && (c <=? 1)%float.

(** The colour entries a byte can give, for all 256 bytes. *)
Definition unitBytes (n : nat) : bool :=
  unit (Math_fround (float_of_nat n / 255)%float).

(** The z coordinates of a position array: every third entry, from index 2. *)
Fixpoint depths (array : list float) : list float :=
  match array with
  | _ :: _ :: z :: rest => z :: depths rest
  | _ => []
  end.

(** No pixel's red channel differs by more than the change threshold
    between two consecutive frames. *)
Fixpoint static (frames : list ImageData) : bool :=
  match frames with
  | prev :: (curr :: _) as rest => Motion.unchanged prev curr && static rest
  | _ => true
  end.

(** A sum of three channels whose third is positive and finite, or that is
    [+0] (its reciprocal is positive). *)
Definition flat (sum : float) : bool :=
  (let mean := sum / 3 in (0 <? mean) && (mean <? infinity))%float
  || ((sum =? 0) && (0 <? 1 / sum))%float.

(** The 256 values of a colour channel. *)
Definition channels : list float :=
  map (fun n => (float_of_nat n / 255)%float) (seq 0 256).


End Frames.

Module Sign.

(** A number that is neither NaN nor negative ([-0] counts as negative). *)
Definition nonneg (x : spec_float) : bool :=
  match x with
  | S754_zero false | S754_infinity false | S754_finite false _ _ => true
  | _ => false
  end.

End Sign.

(** * Properties *)

(** ** Binary64 arithmetic *)

(** The operations on primitive floats are specified by the algorithms of
    [SpecFloat]: a result is a mantissa and an exponent that are shifted and
    rounded into the format.  The lemmas below follow the exponent through
    these shifts, to show that the reciprocal of a square root neither
    overflows nor is negative, so that [0 * (1 / Math.sqrt(t))] is [0]. *)

Module FloatFacts.
Import Rounding.
Local Open Scope Z_scope.
Local Unset Implicit Arguments.

Lemma pow2_nonneg (k : Z) : 0 <= 2 ^ k.
Proof. apply Z.pow_nonneg; lia. Qed.

Lemma pow2_half (k : Z) : 1 <= k -> 2 ^ k = 2 * 2 ^ (k - 1).
Proof.
  intros H. replace k with (Z.succ (k - 1)) at 1 by lia.
  rewrite Z.pow_succ_r by lia. reflexivity.
Qed.

Lemma pow2_small (k : Z) : k <= 0 -> 2 ^ k <= 1.
Proof.
  intros H. destruct (Z.eq_dec k 0) as [->|N]; [simpl; lia|].
  rewrite Z.pow_neg_r by lia. lia.
Qed.

(** One shift halves the mantissa. *)
Lemma shr_1_half (mrs : shr_record) :
  0 <= shr_m mrs ->
  0 <= shr_m (shr_1 mrs) /\ 2 * shr_m (shr_1 mrs) <= shr_m mrs.
Proof.
  destruct mrs as [m r s]; simpl.
  destruct m as [|[p|p|]|p]; simpl; lia.
Qed.

Lemma le2_shr_1 (K e : Z) (mrs : shr_record) :
  le2 K (shr_m mrs) e -> le2 K (shr_m (shr_1 mrs)) (e + 1).
Proof.
  unfold le2. intros [L U].
  destruct (shr_1_half mrs L) as [L' U'].
  split; [exact L'|].
  destruct (Z_le_gt_dec 1 (K - e)) as [G|G].
  - rewrite (pow2_half (K - e)) in U by exact G.
    replace (K - (e + 1)) with (K - e - 1) by lia. lia.
  - pose proof (pow2_small (K - e) ltac:(lia)).
    pose proof (pow2_nonneg (K - (e + 1))). lia.
Qed.

(** [p] shifts raise the exponent by [p] and keep the bound. *)
Lemma le2_iter (K : Z) (p : positive) :
  forall (e : Z) (mrs : shr_record),
    le2 K (shr_m mrs) e -> le2 K (shr_m (SpecFloat.iter_pos shr_1 p mrs)) (e + Zpos p).
Proof.
  induction p as [p IH|p IH|]; intros e mrs H; simpl SpecFloat.iter_pos.
  - apply le2_shr_1 in H. apply IH in H. apply IH in H.
    replace (e + Zpos p~1) with (e + 1 + Zpos p + Zpos p) by lia. exact H.
  - apply IH in H. apply IH in H.
    replace (e + Zpos p~0) with (e + Zpos p + Zpos p) by lia. exact H.
  - now apply le2_shr_1.
Qed.

(** The digit count of [SpecFloat] is [Pos.size]. *)
Lemma digits2_size (p : positive) : digits2_pos p = Pos.size p.
Proof. induction p; simpl; congruence. Qed.

(** A mantissa of at most [2 ^ k] has at most [k + 1] digits. *)
Lemma Zdigits2_bound (m k : Z) :
  0 <= m <= 2 ^ k -> Zdigits2 m <= Z.max 0 (k + 1).
Proof.
  intros [L U]. destruct m as [|p|p]; simpl; try lia.
  rewrite digits2_size.
  destruct (Z_lt_ge_dec k 0) as [N|N].
  - rewrite Z.pow_neg_r in U by lia. lia.
  - assert (S : 2 ^ Zpos (Pos.size p) <= 2 * Zpos p).
    { pose proof (Pos.size_le p) as S.
      apply Pos2Z.pos_le_pos in S. rewrite Pos2Z.inj_pow in S. exact S. }
    assert (P : 2 ^ Zpos (Pos.size p) <= 2 ^ (k + 1)).
    { rewrite (pow2_half (k + 1)) by lia.
      replace (k + 1 - 1) with k by lia. lia. }
    apply Z.pow_le_mono_r_iff in P; lia.
Qed.

Lemma shr_record_of_loc_m (m : Z) (l : location) :
  shr_m (shr_record_of_loc m l) = m.
Proof. destruct l as [|[| |]]; reflexivity. Qed.

Lemma le2_shr (K e n : Z) (mrs : shr_record) :
  le2 K (shr_m mrs) e ->
  le2 K (shr_m (fst (shr mrs e n))) (snd (shr mrs e n))
  /\ (snd (shr mrs e n) = e \/ (0 < n /\ snd (shr mrs e n) = e + n)).
Proof.
  intros H. unfold shr. destruct n as [|p|p]; simpl.
  - split; [exact H | now left].
  - split; [now apply le2_iter | right; lia].
  - split; [exact H | now left].
Qed.

(** Shifting into the format keeps the bound and an exponent of at most [K]. *)
Lemma shr_fexp_within (K m e : Z) (l : location) :
  le2 K m e -> e <= K -> -1074 <= K ->
  le2 K (shr_m (fst (shr_fexp prec emax m e l))) (snd (shr_fexp prec emax m e l))
  /\ e <= snd (shr_fexp prec emax m e l) <= K.
Proof.
  intros H E M. unfold shr_fexp.
  pose proof (@le2_shr K e (fexp prec emax (Zdigits2 m + e) - e) (shr_record_of_loc m l)) as S.
  rewrite shr_record_of_loc_m in S. destruct (S H) as [B C].
  split; [exact B|].
  destruct C as [->|[P ->]]; [lia|].
  pose proof (Zdigits2_bound m (K - e) H) as D.
  unfold fexp, emin, prec, emax in *. lia.
Qed.

(** Shifting into the format never lowers the exponent. *)
Lemma shr_fexp_grows (m e : Z) (l : location) :
  0 <= m ->
  0 <= shr_m (fst (shr_fexp prec emax m e l))
  /\ e <= snd (shr_fexp prec emax m e l).
Proof.
  intros H.
  set (K := Z.max e (Zdigits2 m + e)).
  assert (B : le2 K m e).
  { unfold le2. split; [exact H|].
    destruct m as [|p|p]; [apply pow2_nonneg | | lia].
    subst K. simpl Zdigits2. rewrite digits2_size.
    pose proof (Pos.size_gt p) as G.
    apply Pos2Z.pos_lt_pos in G. rewrite Pos2Z.inj_pow in G.
    replace (Z.max e (Zpos (Pos.size p) + e) - e) with (Zpos (Pos.size p)) by lia.
    lia. }
  unfold shr_fexp.
  pose proof (@le2_shr K e (fexp prec emax (Zdigits2 m + e) - e) (shr_record_of_loc m l)) as S.
  rewrite shr_record_of_loc_m in S. destruct (S B) as [[L _] C].
  split; [exact L|]. destruct C as [->|[P ->]]; lia.
Qed.

Lemma round_nearest_even_bounds (m : Z) (l : location) :
  0 <= m -> m <= round_nearest_even m l <= m + 1.
Proof.
  intros H. unfold round_nearest_even.
  destruct l as [|[| |]]; try lia. destruct (Z.even m); lia.
Qed.

(** The result of rounding a non-negative mantissa: a zero, a finite number
    whose exponent is not below the given one, or an infinity; each with the
    given sign. *)
Lemma binary_round_aux_cases (sx : bool) (mx ex : Z) (lx : location) :
  0 <= mx ->
  binary_round_aux prec emax sx mx ex lx = S754_zero sx
  \/ (exists m e, binary_round_aux prec emax sx mx ex lx = S754_finite sx m e
                  /\ ex <= e)
  \/ binary_round_aux prec emax sx mx ex lx = S754_infinity sx.
Proof.
  intros H. unfold binary_round_aux.
  pose proof (shr_fexp_grows mx ex lx H) as [A1 A2].
  destruct (shr_fexp prec emax mx ex lx) as [mrs' e'] eqn:E1. cbn [fst snd] in *.
  pose proof (round_nearest_even_bounds (shr_m mrs') (loc_of_shr_record mrs') A1) as R.
  pose proof (shr_fexp_grows (round_nearest_even (shr_m mrs') (loc_of_shr_record mrs'))
                e' loc_Exact ltac:(lia)) as [B1 B2].
  destruct (shr_fexp prec emax _ e' loc_Exact) as [mrs'' e''] eqn:E2.
  cbn [fst snd] in *.
  destruct (shr_m mrs'') as [|m|m]; try lia.
  - now left.
  - right. destruct (e'' <=? emax - prec).
    + left. exists m, e''. split; [reflexivity | lia].
    + now right.
Qed.

(** Below the overflow threshold there is no infinity. *)
Lemma binary_round_aux_finite (K : Z) (sx : bool) (mx ex : Z) (lx : location) :
  le2 K mx ex -> ex <= K -> -1074 <= K -> K + 1 <= 971 ->
  binary_round_aux prec emax sx mx ex lx = S754_zero sx
  \/ exists m e, binary_round_aux prec emax sx mx ex lx = S754_finite sx m e.
Proof.
  intros H E M U. unfold binary_round_aux.
  pose proof (@shr_fexp_within K mx ex lx H E M) as [A1 A2].
  destruct (shr_fexp prec emax mx ex lx) as [mrs' e'] eqn:E1. cbn [fst snd] in *.
  pose proof (round_nearest_even_bounds (shr_m mrs') (loc_of_shr_record mrs')
                (proj1 A1)) as R.
  assert (A3 : le2 (K + 1) (round_nearest_even (shr_m mrs') (loc_of_shr_record mrs')) e').
  { unfold le2 in *. split; [lia|].
    rewrite (pow2_half (K + 1 - e')) by lia.
    replace (K + 1 - e' - 1) with (K - e') by lia.
    assert (1 <= 2 ^ (K - e')) by (apply Z.pow_le_mono_r with (b := 0) (c := K - e'); lia).
    lia. }
  pose proof (@shr_fexp_within (K + 1) _ e' loc_Exact A3 ltac:(lia) ltac:(lia))
    as [B1 B2].
  destruct (shr_fexp prec emax _ e' loc_Exact) as [mrs'' e''] eqn:E2.
  cbn [fst snd] in *.
  destruct (shr_m mrs'') as [|m|m] eqn:Em.
  - now left.
  - right. replace (e'' <=? emax - prec) with true.
    + now exists m, e''.
    + symmetry. apply Z.leb_le. unfold emax, prec. lia.
  - unfold le2 in B1. lia.
Qed.

(** The exponent range of binary64. *)
Lemma valid_exponent (s : bool) (m : positive) (e : Z) :
  valid_binary (S754_finite s m e) = true -> -1074 <= e <= 971.
Proof.
  unfold valid_binary, bounded, canonical_mantissa. intros H.
  apply andb_prop in H as [C B].
  apply Z.eqb_eq in C. apply Z.leb_le in B.
  unfold fexp, emin, prec, emax in *. lia.
Qed.

(** A square root is NaN, a zero, positive infinity, or positive with an
    exponent of at least -590: it is never subnormal. *)
Lemma SFsqrt_cases (x : spec_float) :
  valid_binary x = true ->
  SFsqrt prec emax x = S754_nan
  \/ (exists s, SFsqrt prec emax x = S754_zero s)
  \/ SFsqrt prec emax x = S754_infinity false
  \/ exists m e, SFsqrt prec emax x = S754_finite false m e /\ -590 <= e.
Proof.
  intros V. destruct x as [s|[|]| |[|] m e]; simpl SFsqrt; auto.
  - right. left. now exists s.
  - apply valid_exponent in V.
    unfold SFsqrt_core_binary.
    set (e' := Z.min _ _).
    set (m' := match e - 2 * e' with Z0 => _ | Zpos _ => _ | Zneg _ => _ end).
    pose proof (Z.sqrtrem_sqrt m') as Q. pose proof (Z.sqrt_nonneg m') as P.
    destruct (Z.sqrtrem m') as [q r]. cbn [fst] in Q. subst q.
    assert (E : -590 <= e').
    { subst e'. rewrite !Z.div2_div.
      assert (1 <= Zdigits2 (Zpos m)) by (simpl; lia).
      unfold fexp, emin, prec, emax.
      pose proof (Z.div_le_mono (-1074) e 2 ltac:(lia) ltac:(lia)).
      pose proof (Z.div_le_mono (-1072) (Zdigits2 (Zpos m) + e + 1) 2
                    ltac:(lia) ltac:(lia)).
      change (-1074 / 2) with (-537) in *. change (-1072 / 2) with (-536) in *.
      lia. }
    destruct (binary_round_aux_cases false (Z.sqrt m') e'
                (if r =? 0 then loc_Exact
                 else loc_Inexact (if r <=? Z.sqrt m' then Lt else Gt)) P)
      as [Z|[(m1 & e1 & F & G)|I]].
    + right. left. exists false. exact Z.
    + right. right. right. exists m1, e1. split; [exact F | lia].
    + right. right. left. exact I.
Qed.

(** The reciprocal of a positive number that is not subnormal is a positive
    zero or a positive finite number. *)
Lemma SFdiv_one (m2 : positive) (e2 : Z) :
  -970 <= e2 <= 971 ->
  SFdiv prec emax (S754_finite false 4503599627370496 (-52)) (S754_finite false m2 e2)
  = S754_zero false
  \/ exists m e,
      SFdiv prec emax (S754_finite false 4503599627370496 (-52))
            (S754_finite false m2 e2)
      = S754_finite false m e.
Proof.
  intros E. cbn [SFdiv xorb]. unfold SFdiv_core_binary.
  set (e' := Z.min _ _).
  set (m' := match -52 - e2 - e' with Z0 => _ | Zpos _ => _ | Zneg _ => _ end).
  assert (E' : e' <= -52 - e2) by (subst e'; lia).
  assert (M : 0 <= m' <= 2 ^ (- e2 - e')).
  { subst m'. destruct (-52 - e2 - e') as [|p|p] eqn:S; try lia.
    - replace (- e2 - e') with 52 by lia. simpl. lia.
    - rewrite Z.shiftl_mul_pow2 by lia.
      replace (- e2 - e') with (52 + Zpos p) by lia.
      rewrite Z.pow_add_r by lia. change (2 ^ 52) with 4503599627370496. lia. }
  pose proof (Z_div_mod m' (Zpos m2) ltac:(lia)) as D.
  destruct (Z.div_eucl m' (Zpos m2)) as [q r]. destruct D as [D R].
  assert (Q : 0 <= q <= m') by nia.
  apply (@binary_round_aux_finite (- e2)); unfold le2; try lia.
Qed.

Local Open Scope float_scope.

Lemma nan_not_truthy (x : float) : Prim2SF x = S754_nan -> float_truthy x = false.
Proof.
  intros H. unfold float_truthy, PrimFloat.is_nan.
  rewrite FloatAxioms.eqb_spec, H. reflexivity.
Qed.

Lemma zero_not_truthy (x : float) (s : bool) :
  Prim2SF x = S754_zero s -> float_truthy x = false.
Proof.
  intros H. unfold float_truthy, PrimFloat.is_nan, PrimFloat.is_zero.
  rewrite !FloatAxioms.eqb_spec, H. reflexivity.
Qed.

(** [0 * k] is [0] for a [k] that is a positive zero or positive and finite. *)
Lemma zero_times (k : float) :
  (Prim2SF k = S754_zero false \/ exists m e, Prim2SF k = S754_finite false m e) ->
  0 * k = 0.
Proof.
  intros H. apply Prim2SF_inj. rewrite FloatAxioms.mul_spec.
  destruct H as [->|(m & e & ->)]; reflexivity.
Qed.

(** [0 * (1 / (Math.sqrt(t) || 1))] is [0], whatever [t] is. *)
Lemma zero_times_reciprocal_length (t : float) :
  0 * (1 / (if float_truthy (PrimFloat.sqrt t) then PrimFloat.sqrt t else 1)) = 0.
Proof.
  destruct (float_truthy (PrimFloat.sqrt t)) eqn:T; [|reflexivity].
  apply zero_times. rewrite FloatAxioms.div_spec.
  change (Prim2SF 1) with (S754_finite false 4503599627370496 (-52)).
  pose proof (Prim2SF_valid (PrimFloat.sqrt t)) as V.
  pose proof (SFsqrt_cases (Prim2SF t) (Prim2SF_valid t)) as C.
  rewrite <- FloatAxioms.sqrt_spec in C.
  destruct C as [N|[(s & Z)|[I|(m & e & F & L)]]].
  - apply nan_not_truthy in N. congruence.
  - apply zero_not_truthy in Z. congruence.
  - rewrite I. left. reflexivity.
  - rewrite F in *. apply valid_exponent in V.
    apply SFdiv_one. lia.
Qed.

End FloatFacts.

(** ** Lists *)

Module ListFacts.

Lemma length_flat_map3 {A B : Type} (f : A -> list B) (l : list A) :
  (forall a, length (f a) = 3) ->
  length (flat_map f l) = 3 * length l.
Proof.
  intros Hf; induction l as [|a l IH]; simpl; [reflexivity|].
  rewrite length_app, Hf, IH. lia.
Qed.

Lemma flat_map_filter {A B : Type} (c : A -> bool) (f : A -> list B) (l : list A) :
  flat_map (fun a => if c a then f a else []) l = flat_map f (filter c l).
Proof.
  induction l as [|a l IH]; simpl; [reflexivity|].
  destruct (c a); simpl; now rewrite IH.
Qed.

Lemma filter_ext_in' {A : Type} (c d : A -> bool) (l : list A) :
  (forall a, In a l -> c a = d a) -> filter c l = filter d l.
Proof.
  induction l as [|a l IH]; intros E; simpl; [reflexivity|].
  rewrite (E a) by (left; reflexivity).
  rewrite IH by (intros; apply E; right; assumption).
  reflexivity.
Qed.

End ListFacts.

(** ** Level-of-detail generation *)

Module LODFacts.
Import PointCloudProcessor LOD ListFacts.

Lemma exponent_closed (k i : nat) :
  2 * exponent i k = (k + 1) * (2 * i + k + 2).
Proof.
  revert i; induction k as [|k IH]; intro i; simpl.
  - lia.
  - specialize (IH (S i)). nia.
Qed.

Lemma exponent_triangular (k : nat) :
  exponent 0 k = (k + 1) * (k + 2) / 2.
Proof.
  pose proof (exponent_closed k 0) as E.
  replace ((k + 1) * (k + 2)) with (exponent 0 k * 2) by lia.
  now rewrite Nat.div_mul.
Qed.

Lemma length_everyNth (array : list float) (stride n : nat) :
  length (everyNth array stride n) = 3 * n.
Proof.
  unfold everyNth. rewrite length_flat_map3 by reflexivity.
  now rewrite length_seq.
Qed.

(** Entry [3 * m + c] of a concatenation of triples is entry [c] of the
    [m]-th triple. *)
Lemma nth_flat_map3 (f : nat -> list float) (l : list nat) (m c : nat) :
  (forall a, length (f a) = 3) ->
  m < length l -> c < 3 ->
  nth (m * 3 + c) (flat_map f l) nan = nth c (f (nth m l 0)) nan.
Proof.
  intros Hf; revert m; induction l as [|a l IH]; intros m Hm Hc; simpl in *.
  - lia.
  - destruct m as [|m].
    + simpl. rewrite app_nth1 by (rewrite Hf; lia). reflexivity.
    + rewrite app_nth2 by (rewrite Hf; lia).
      rewrite Hf. replace (S m * 3 + c - 3) with (m * 3 + c) by lia.
      apply IH; lia.
Qed.

Lemma read_everyNth (array : list float) (stride n m c : nat) :
  m < n -> c < 3 ->
  read (everyNth array stride n) (m * 3 + c) = read array (m * (stride * 3) + c).
Proof.
  intros Hm Hc. unfold read, everyNth.
  rewrite nth_flat_map3 by (try reflexivity; try rewrite length_seq; lia).
  rewrite seq_nth by lia. simpl.
  destruct c as [|[|[|c]]]; try lia; simpl;
    unfold read; f_equal; lia.
Qed.

Lemma copied_everyNth (array : list float) (s1 s2 n k : nat) :
  k * s2 < n ->
  copied (everyNth array s1 n) s2 k = copied array (s1 * s2) k.
Proof.
  intros Hk. unfold copied.
  replace (k * (s2 * 3)) with (k * s2 * 3 + 0) by lia.
  replace (k * s2 * 3 + 0 + 1) with (k * s2 * 3 + 1) by lia.
  replace (k * s2 * 3 + 0 + 2) with (k * s2 * 3 + 2) by lia.
  rewrite !read_everyNth by lia.
  f_equal; [|f_equal; [|f_equal]]; f_equal; ring.
Qed.

Lemma flat_map_seq_ext (f g : nat -> list float) (n : nat) :
  (forall k, k < n -> f k = g k) ->
  flat_map f (seq 0 n) = flat_map g (seq 0 n).
Proof.
  intros E. rewrite !flat_map_concat_map. f_equal.
  apply map_ext_in. intros k Hk. apply in_seq in Hk. apply E. lia.
Qed.

Lemma everyNth_everyNth (array : list float) (s1 s2 n1 n2 : nat) :
  0 < s2 -> n2 <= n1 / s2 ->
  everyNth (everyNth array s1 n1) s2 n2 = everyNth array (s1 * s2) n2.
Proof.
  intros Hs Hn. unfold everyNth at 1 3.
  apply flat_map_seq_ext. intros k Hk.
  apply copied_everyNth.
  assert (k * s2 < (n1 / s2) * s2) by nia.
  pose proof (Nat.Div0.mul_div_le n1 s2). lia.
Qed.

Lemma strided_strided (g : PointGeometry) (s1 s2 : nat) :
  0 < s1 -> 0 < s2 ->
  strided (strided g s1) s2 = strided g (s1 * s2).
Proof.
  intros H1 H2. unfold strided; cbn [position color].
  rewrite length_everyNth.
  assert (E : 3 * (length (position g) / (3 * s1)) / (3 * s2)
              = length (position g) / (3 * (s1 * s2))).
  { rewrite <- Nat.Div0.div_div.
    rewrite (Nat.mul_comm 3 (_ / _)), Nat.div_mul by lia.
    rewrite Nat.Div0.div_div. f_equal. lia. }
  rewrite E.
  assert (L : length (position g) / (3 * (s1 * s2))
              <= length (position g) / (3 * s1) / s2).
  { rewrite Nat.Div0.div_div. replace (3 * s1 * s2) with (3 * (s1 * s2)) by lia.
    lia. }
  f_equal; apply everyNth_everyNth; assumption.
Qed.

(** On the ratio [1 / 2^k] the rational arithmetic of [decimateGeometry]
    comes out as integer division by the stride [2^k]. *)
Lemma decimateGeometry_pow2 (g : PointGeometry) (k : nat) :
  decimateGeometry g (1 / inject_Z (2 ^ Z.of_nat k))%Q = strided g (2 ^ k).
Proof.
  unfold decimateGeometry, strided, everyNth, count.
  assert (P : exists q, (2 ^ Z.of_nat k)%Z = Zpos q /\ Pos.to_nat q = 2 ^ k).
  { assert (0 < 2 ^ Z.of_nat k)%Z by (apply Z.pow_pos_nonneg; lia).
    destruct (2 ^ Z.of_nat k)%Z as [|q|q] eqn:E; try lia.
    exists q; split; [reflexivity|].
    apply Nat2Z.inj. rewrite positive_nat_Z, <- E.
    rewrite Nat2Z.inj_pow. reflexivity. }
  destruct P as (q & -> & Q).
  assert (S : Z.to_nat (Qfloor (1 / (1 / inject_Z (Zpos q)))%Q) = 2 ^ k).
  { cbn. rewrite Z.div_1_r. now rewrite Z2Nat.inj_pos. }
  assert (V : Z.to_nat (Qfloor ((Z.of_nat (length (position g)) # 3)
                                * (1 / inject_Z (Zpos q)))%Q)
              = length (position g) / (3 * 2 ^ k)).
  { unfold Qfloor, Qdiv, Qinv, inject_Z; cbn [Qnum Qden].
    unfold Qmult; cbn [Qnum Qden].
    apply Nat2Z.inj.
    rewrite Z2Nat.id by (apply Z.div_pos; lia).
    rewrite Nat2Z.inj_div, Nat2Z.inj_mul, <- Q, positive_nat_Z.
    f_equal; lia. }
  rewrite S, V. reflexivity.
Qed.

Lemma pow2_pos (k : nat) : 0 < 2 ^ k.
Proof. apply Nat.neq_0_lt_0, Nat.pow_nonzero; lia. Qed.

(** The loop of [generateLODLevels], unrolled: iteration [i + k] leaves
    every [2 ^ exponent i k]-th point of the geometry it started from. *)
Lemma generateFrom_nth (n i k : nat) (g : PointGeometry) :
  k < n ->
  nth_error (generateFrom i n g) k
  = Some {| geometry := strided g (2 ^ exponent i k); visible := true |}.
Proof.
  revert i k g; induction n as [|n IH]; intros i k g Hk; [lia|].
  simpl generateFrom. rewrite decimateGeometry_pow2.
  destruct k as [|k]; simpl.
  - reflexivity.
  - rewrite IH by lia.
    rewrite strided_strided by apply pow2_pos.
    rewrite <- Nat.pow_add_r. reflexivity.
Qed.

Lemma generateFrom_length (n i : nat) (g : PointGeometry) :
  length (generateFrom i n g) = n.
Proof.
  revert i g; induction n as [|n IH]; intros i g; simpl; [reflexivity|].
  now rewrite IH.
Qed.

Lemma level_structure (g : PointGeometry) (n i : nat) :
  i < n ->
  nth_error (generateLODLevels g n) i
  = Some {| geometry := strided g (cumulativeStride i); visible := true |}.
Proof.
  intros Hi. unfold generateLODLevels, cumulativeStride.
  rewrite generateFrom_nth by assumption.
  now rewrite exponent_triangular.
Qed.

End LODFacts.

(** ** Level-of-detail: the claims *)

Module LODClaims.
Import PointCloudProcessor LOD LODFacts.

Lemma level_reads (array : list float) (stride n k c : nat) :
  k < n -> c < 3 ->
  read (everyNth array stride n) (3 * k + c) = read array (3 * (k * stride) + c).
Proof.
  intros Hk Hc. replace (3 * k + c) with (k * 3 + c) by lia.
  rewrite read_everyNth by assumption. f_equal. ring.
Qed.

Lemma stride_pos (i : nat) : 0 < cumulativeStride i.
Proof. apply pow2_pos. Qed.

Lemma strided_count (g : PointGeometry) (s : nat) :
  pointCount (position (strided g s)) = pointCount (position g) / s.
Proof.
  unfold strided, pointCount; cbn [position].
  rewrite length_everyNth.
  rewrite (Nat.mul_comm 3), Nat.div_mul by lia.
  now rewrite Nat.Div0.div_div.
Qed.

(** C4 (amended).  [generateLODLevels] returns its [n] levels in the order
    0..n-1, and level [i] consists of every [2^((i+1)(i+2)/2)]-th point of
    the input cloud, in the original order, for as many whole strides as
    the cloud holds: positions and colours of its point [k] are those of
    input point [k * 2^((i+1)(i+2)/2)], a point of the input.  Level 0 is thus every second
    point, not the input cloud itself. *)
Theorem levels_are_cumulative_strides (g : PointGeometry) (n i : nat) :
  i < n ->
  length (generateLODLevels g n) = n /\
  exists level,
    nth_error (generateLODLevels g n) i = Some level /\
    visible level = true /\
    let stride := cumulativeStride i in
    let kept := pointCount (position g) / stride in
    length (position (geometry level)) = 3 * kept /\
    length (color (geometry level)) = 3 * kept /\
    forall k c, k < kept -> c < 3 ->
      3 * (k * stride) + c < length (position g) /\
      read (position (geometry level)) (3 * k + c)
      = read (position g) (3 * (k * stride) + c) /\
      read (color (geometry level)) (3 * k + c)
      = read (color g) (3 * (k * stride) + c).
Proof.
  intros Hi. split; [apply generateFrom_length|].
  eexists; split; [apply level_structure; assumption|].
  split; [reflexivity|]. cbn zeta. cbn [geometry].
  assert (E : length (position g) / (3 * cumulativeStride i)
              = pointCount (position g) / cumulativeStride i).
  { unfold pointCount. now rewrite Nat.Div0.div_div. }
  unfold strided; cbn [position color]. rewrite E.
  rewrite !length_everyNth. split; [reflexivity|]. split; [reflexivity|].
  intros k c Hk Hc. split; [|split; apply level_reads; assumption].
  pose proof (stride_pos i) as P.
  pose proof (Nat.Div0.mul_div_le (pointCount (position g)) (cumulativeStride i)).
  pose proof (Nat.Div0.mul_div_le (length (position g)) 3).
  fold (pointCount (position g)) in *. nia.
Qed.

Lemma levels_are_cumulative_strides_witness :
  length (generateLODLevels Inputs.sixteenPoints 2) = 2 /\
  exists level,
    nth_error (generateLODLevels Inputs.sixteenPoints 2) 1 = Some level /\
    visible level = true /\
    let stride := cumulativeStride 1 in
    let kept := pointCount (position Inputs.sixteenPoints) / stride in
    length (position (geometry level)) = 3 * kept /\
    length (color (geometry level)) = 3 * kept /\
    forall k c, k < kept -> c < 3 ->
      3 * (k * stride) + c < length (position Inputs.sixteenPoints) /\
      read (position (geometry level)) (3 * k + c)
      = read (position Inputs.sixteenPoints) (3 * (k * stride) + c) /\
      read (color (geometry level)) (3 * k + c)
      = read (color Inputs.sixteenPoints) (3 * (k * stride) + c).
Proof. apply (levels_are_cumulative_strides Inputs.sixteenPoints (n := 2) (i := 1)). lia. Defined.

(** C4 as stated fails: level 0 of a two-point cloud is not the input. *)
Lemma level0_is_not_the_input :
  ~ (forall level,
        nth_error (generateLODLevels Inputs.twoPoints 1) 0 = Some level ->
        geometry level = Inputs.twoPoints).
Proof.
  intros C.
  specialize (C _ (level_structure Inputs.twoPoints (n := 1) (i := 0) ltac:(lia))).
  apply (f_equal (fun g => length (position g))) in C.
  vm_compute in C. discriminate C.
Qed.

(** C2 (amended).  Level [i] of [generateLODLevels] holds
    [floor (N / 2^((i+1)(i+2)/2))] points of an input cloud of [N] points;
    it holds at least one point exactly when [N >= 2^((i+1)(i+2)/2)].
    Smaller clouds give empty levels. *)
Theorem level_point_count (g : PointGeometry) (n i : nat) :
  i < n ->
  exists level,
    nth_error (generateLODLevels g n) i = Some level /\
    pointCount (position (geometry level))
    = pointCount (position g) / cumulativeStride i /\
    (1 <= pointCount (position (geometry level))
     <-> cumulativeStride i <= pointCount (position g)).
Proof.
  intros Hi. eexists; split; [apply level_structure; assumption|].
  cbn [geometry]. rewrite strided_count. split; [reflexivity|].
  pose proof (stride_pos i) as P.
  split; intros H.
  - destruct (Nat.le_gt_cases (cumulativeStride i) (pointCount (position g)))
      as [L|L]; [assumption|].
    rewrite Nat.div_small in H by assumption. lia.
  - apply Nat.div_str_pos. lia.
Qed.

Lemma level_point_count_witness :
  exists level,
    nth_error (generateLODLevels Inputs.sixteenPoints 2) 1 = Some level /\
    pointCount (position (geometry level))
    = pointCount (position Inputs.sixteenPoints) / cumulativeStride 1 /\
    (1 <= pointCount (position (geometry level))
     <-> cumulativeStride 1 <= pointCount (position Inputs.sixteenPoints)).
Proof. apply (level_point_count Inputs.sixteenPoints (n := 2) (i := 1)). lia. Defined.

(** C2 as stated fails: the four levels of a single-point cloud are empty. *)
Lemma single_point_levels_are_empty :
  length (generateLODLevels Inputs.singlePoint 4) = 4 /\
  Forall (fun level => pointCount (position (geometry level)) = 0)
         (generateLODLevels Inputs.singlePoint 4) /\
  ~ Forall (fun level => 1 <= pointCount (position (geometry level)))
           (generateLODLevels Inputs.singlePoint 4).
Proof.
  assert (E : generateLODLevels Inputs.singlePoint 4
              = repeat {| geometry := {| position := []; color := [] |};
                          visible := true |} 4) by (vm_compute; reflexivity).
  rewrite E. split; [reflexivity|]. split.
  - repeat constructor.
  - intros H. inversion H as [|? ? H1 _]; subst.
    vm_compute in H1. lia.
Qed.

Lemma showOnly_visible (active index : nat) (levels : list Points) :
  map visible (showOnly active index levels)
  = map (fun i => i =? active) (seq index (length levels)).
Proof.
  revert index; induction levels as [|l levels IH]; intro index; simpl;
    [reflexivity | now rewrite IH].
Qed.

Lemma showOnly_geometry (active index : nat) (levels : list Points) :
  map geometry (showOnly active index levels) = map geometry levels.
Proof.
  revert index; induction levels as [|l levels IH]; intro index; simpl;
    [reflexivity | now rewrite IH].
Qed.

Lemma showOnly_count (active index : nat) (levels : list Points) :
  visibleCount (showOnly active index levels)
  = if (index <=? active) && (active <? index + length levels) then 1 else 0.
Proof.
  unfold visibleCount.
  revert index; induction levels as [|l levels IH]; intro index; simpl.
  - destruct (index <=? active) eqn:A, (active <? index + 0) eqn:B;
      try reflexivity.
    apply Nat.leb_le in A. apply Nat.ltb_lt in B. lia.
  - destruct (index =? active) eqn:E; simpl; rewrite IH.
    + apply Nat.eqb_eq in E; subst.
      replace (S active <=? active) with false by (symmetry; apply Nat.leb_gt; lia).
      rewrite Nat.leb_refl.
      replace (active <? active + S (length levels)) with true
        by (symmetry; apply Nat.ltb_lt; lia).
      reflexivity.
    + apply Nat.eqb_neq in E.
      destruct (S index <=? active) eqn:A, (index <=? active) eqn:A',
               (active <? S index + length levels) eqn:B,
               (active <? index + S (length levels)) eqn:B'; try reflexivity;
        repeat match goal with
               | H : (_ <=? _) = true |- _ => apply Nat.leb_le in H
               | H : (_ <=? _) = false |- _ => apply Nat.leb_gt in H
               | H : (_ <? _) = true |- _ => apply Nat.ltb_lt in H
               | H : (_ <? _) = false |- _ => apply Nat.ltb_ge in H
               end; lia.
Qed.

(** C5 (amended).  [updateLOD] picks the fixed index 4 when the distance is
    above 50, 3 when above 20, 2 when above 10, 1 when above 5 and 0
    otherwise, whatever the number of levels; it makes level [i] visible
    exactly when [i] is that index and leaves the geometries alone.  So
    exactly one level is visible when the index is below the number of
    levels. *)
Theorem updateLOD_shows_fixed_index (levels : list Points) (distance : float) :
  let active :=
    if (50 <? distance)%float then 4
    else if (20 <? distance)%float then 3
    else if (10 <? distance)%float then 2
    else if (5 <? distance)%float then 1
    else 0 in
  map visible (updateLOD levels distance)
  = map (fun i => i =? active) (seq 0 (length levels)) /\
  map geometry (updateLOD levels distance) = map geometry levels /\
  (active < length levels -> visibleCount (updateLOD levels distance) = 1).
Proof.
  cbn zeta. fold (activeLOD distance). unfold updateLOD.
  split; [apply showOnly_visible|].
  split; [apply showOnly_geometry|].
  intros A. rewrite showOnly_count. cbn [Nat.leb andb Nat.add].
  apply Nat.ltb_lt in A. now rewrite A.
Qed.

(** C5 as stated fails: with the two levels of quality [low] and a camera
    at distance 60, no level is visible. *)
Lemma no_level_visible_at_distance_60 :
  ~ (visibleCount
       (updateLOD (generateLODLevels Inputs.sixteenPoints (getLODLevels (Some low)))
                  60)
     = 1).
Proof. vm_compute. discriminate. Qed.

End LODClaims.

(** ** Frame sampling *)

Module SamplingFacts.
Import ImageProcessor Sampling LOD ListFacts.

Lemma byteFacts_all : forallb byteFacts (seq 0 256) = true.
Proof. vm_compute. reflexivity. Qed.

Lemma byte_alpha (b : Z) :
  byte b ->
  let a := (float_of_Z b / 255)%float in
  (0.5 <? a)%float = negb (a <? 0.5)%float /\
  (a =? 0.5)%float = false /\
  (0.5 <? a)%float = (128 <=? b)%Z.
Proof.
  intros [L U]. cbn zeta.
  pose proof byteFacts_all as A. rewrite forallb_forall in A.
  specialize (A (Z.to_nat b)).
  assert (I : In (Z.to_nat b) (seq 0 256)) by (apply in_seq; lia).
  specialize (A I). unfold byteFacts, float_of_nat in A.
  rewrite Z2Nat.id in A by assumption.
  apply andb_prop in A as [A A3]. apply andb_prop in A as [A1 A2].
  apply Bool.eqb_prop in A1. apply Bool.eqb_prop in A3.
  apply negb_true_iff in A2.
  repeat split; try assumption.
  rewrite A3.
  destruct (128 <=? Z.to_nat b) eqn:E1, (128 <=? b)%Z eqn:E2; try reflexivity.
  - apply Nat.leb_le in E1. apply Z.leb_gt in E2. lia.
  - apply Nat.leb_gt in E1. apply Z.leb_le in E2. lia.
Qed.

Lemma in_steps (stop step v : nat) : In v (steps stop step) -> v < stop.
Proof.
  unfold steps. intros H. apply filter_In in H as [H _].
  apply in_seq in H. lia.
Qed.

Lemma in_sampled (img : ImageData) (density : nat) (p : nat * nat) :
  In p (sampled img density) -> fst p < width img /\ snd p < height img.
Proof.
  unfold sampled. intros H.
  apply in_flat_map in H as (y & Hy & H).
  apply in_map_iff in H as (x & <- & Hx).
  apply in_steps in Hy. apply in_steps in Hx. auto.
Qed.

Lemma sampled_alpha_byte (img : ImageData) (density : nat) (p : nat * nat) :
  wellFormed img -> In p (sampled img density) ->
  exists b, alphaByte img p = Some b /\ byte b /\
            alpha img p = (float_of_Z b / 255)%float.
Proof.
  intros [Len Bytes] H. apply in_sampled in H as [Hx Hy].
  unfold alphaByte, alpha, channel.
  destruct (nth_error (data img) ((snd p * width img + fst p) * 4 + 3))
    as [b|] eqn:E.
  - exists b. split; [reflexivity|]. split; [|reflexivity].
    rewrite Forall_forall in Bytes. apply Bytes.
    eapply nth_error_In; eassumption.
  - apply nth_error_None in E. nia.
Qed.

Lemma retained_notBelow (img : ImageData) (density : nat) :
  wellFormed img ->
  filter (fun p => retained (data img) ((snd p * width img + fst p) * 4))
         (sampled img density)
  = notBelow 0.5 img density.
Proof.
  intros WF. unfold notBelow. apply filter_ext_in'. intros p Hp.
  destruct (@sampled_alpha_byte img density p WF Hp) as (b & _ & Hb & Ea).
  unfold retained. fold (alpha img p). rewrite Ea.
  apply (@byte_alpha b Hb).
Qed.

Lemma reconstructFrom_count (frames : list ImageData)
    (motionVectors : list (Vector3.t float)) (density index : nat) :
  Forall wellFormed frames ->
  length (fst (VideoProcessor.reconstructFrom index frames motionVectors density))
  = 3 * list_sum (map (fun frame => length (notBelow 0.5 frame density)) frames).
Proof.
  intros WF; revert index; induction WF as [|frame rest W _ IH]; intro index.
  - reflexivity.
  - cbn [VideoProcessor.reconstructFrom map list_sum].
    specialize (IH (S index)).
    destruct (VideoProcessor.reconstructFrom (S index) rest motionVectors density)
      as [points colors].
    cbn [fst] in *. rewrite length_app, IH.
    unfold VideoProcessor.pointOf.
    rewrite (flat_map_filter
      (fun p => retained (data frame) ((snd p * width frame + fst p) * 4))
      (fun p => [ ((float_of_nat (fst p) - float_of_nat (width frame) / 2) / 50)%float;
                  ((float_of_nat (height frame) / 2 - float_of_nat (snd p)) / 50)%float;
                  (Vector3.length (nth index motionVectors Vector3.zero) * 10
                   * ((channel (data frame) ((snd p * width frame + fst p) * 4)
                       + channel (data frame) ((snd p * width frame + fst p) * 4 + 1)
                       + channel (data frame) ((snd p * width frame + fst p) * 4 + 2))
                      / 3))%float ])).
    rewrite retained_notBelow by exact W.
    rewrite length_flat_map3 by reflexivity.
    unfold list_sum; cbn [fold_right]. lia.
Qed.

(** C3 (amended).  Frame sampling has the fixed alpha threshold 0.5 and
    keeps a pixel when its normalized alpha ([byte / 255]) is above it.  On
    a frame with four bytes per pixel these are exactly the sampled pixels
    whose alpha is not strictly less than 0.5, in row-major order, that is
    those with an alpha byte of 128 or more; no byte gives an alpha equal to
    0.5.  The video path ([reconstruct3DScene]) keeps the same pixels of
    each of its frames. *)
Theorem sampling_keeps_alpha_not_below_half
    (img : ImageData) (preference : option nat) :
  wellFormed img ->
  let density := pointCloudDensity preference in
  let cloud := generatePointCloud img preference in
  position cloud
  = Float32Array_from (flat_map (coordinates img) (notBelow 0.5 img density)) /\
  pointCount (position cloud) = length (notBelow 0.5 img density) /\
  pointCount (color cloud) = length (notBelow 0.5 img density) /\
  (forall p, In p (sampled img density) ->
     (alpha img p =? 0.5)%float = false /\
     exists b, alphaByte img p = Some b /\
       (In p (notBelow 0.5 img density) <-> (128 <= b)%Z)) /\
  (forall frames motionVectors,
     Forall wellFormed frames ->
     pointCount (position (VideoProcessor.reconstruct3DScene
                             frames motionVectors preference))
     = list_sum (map (fun frame => length (notBelow 0.5 frame density)) frames)).
Proof.
  intros WF. cbn zeta.
  set (density := pointCloudDensity preference).
  pose proof (retained_notBelow density WF) as K.
  assert (P : position (generatePointCloud img preference)
              = Float32Array_from
                  (flat_map (coordinates img) (notBelow 0.5 img density))).
  { unfold generatePointCloud; cbn [position]. fold density.
    rewrite <- K, <- flat_map_filter. reflexivity. }
  split; [exact P|]. split; [|split; [|split]].
  - rewrite P. unfold pointCount, Float32Array_from.
    rewrite length_map, length_flat_map3 by reflexivity.
    now rewrite Nat.mul_comm, Nat.div_mul.
  - unfold generatePointCloud; cbn [color]. fold density.
    unfold pointCount, Float32Array_from. rewrite length_map.
    unfold colorOf. rewrite (flat_map_filter
      (fun p => retained (data img) ((snd p * width img + fst p) * 4))
      (fun p => [channel (data img) ((snd p * width img + fst p) * 4);
                 channel (data img) ((snd p * width img + fst p) * 4 + 1);
                 channel (data img) ((snd p * width img + fst p) * 4 + 2)])).
    rewrite K, length_flat_map3 by reflexivity.
    now rewrite Nat.mul_comm, Nat.div_mul.
  - intros p Hp.
    destruct (@sampled_alpha_byte img density p WF Hp) as (b & Eb & Hb & Ea).
    destruct (@byte_alpha b Hb) as (B1 & B2 & B3).
    split; [rewrite Ea; exact B2|].
    exists b. split; [exact Eb|].
    unfold notBelow. rewrite filter_In, Ea, <- B1, B3.
    rewrite Z.leb_le. tauto.
  - intros frames motionVectors WFs.
    unfold VideoProcessor.reconstruct3DScene. fold density.
    pose proof (@reconstructFrom_count frames motionVectors density 0 WFs) as C.
    destruct (VideoProcessor.reconstructFrom 0 frames motionVectors density)
      as [points colors].
    cbn [fst position] in *. unfold pointCount, Float32Array_from.
    rewrite length_map, C. now rewrite Nat.mul_comm, Nat.div_mul.
Qed.

Lemma frame2x2_wellFormed : wellFormed Inputs.frame2x2.
Proof.
  split; [reflexivity|].
  repeat (constructor; [unfold byte; lia|]). constructor.
Qed.

Lemma sampling_keeps_alpha_not_below_half_witness :
  let img := Inputs.frame2x2 in
  let density := pointCloudDensity None in
  let cloud := generatePointCloud img None in
  position cloud
  = Float32Array_from (flat_map (coordinates img) (notBelow 0.5 img density)) /\
  pointCount (position cloud) = length (notBelow 0.5 img density) /\
  pointCount (color cloud) = length (notBelow 0.5 img density) /\
  (forall p, In p (sampled img density) ->
     (alpha img p =? 0.5)%float = false /\
     exists b, alphaByte img p = Some b /\
       (In p (notBelow 0.5 img density) <-> (128 <= b)%Z)) /\
  (forall frames motionVectors,
     Forall wellFormed frames ->
     pointCount (position (VideoProcessor.reconstruct3DScene
                             frames motionVectors None))
     = list_sum (map (fun frame => length (notBelow 0.5 frame density)) frames)).
Proof.
  exact (sampling_keeps_alpha_not_below_half (img := Inputs.frame2x2) None
           frame2x2_wellFormed).
Defined.

(** The scenario of the specification: a 2x2 frame with one pixel of alpha
    0.2 yields three points. *)
Example frame2x2_three_points :
  pointCount (position (generatePointCloud Inputs.frame2x2 None)) = 3.
Proof. vm_compute. reflexivity. Qed.

(** C3 as stated fails: the sampler takes no threshold.  Against the
    threshold 0.125 a pixel of alpha 64/255 is not below it, and is dropped
    all the same. *)
Lemma sampling_ignores_other_thresholds :
  ~ (pointCount (position (generatePointCloud Inputs.frame1x1 None))
     = length (notBelow 0.125 Inputs.frame1x1 (pointCloudDensity None))).
Proof. vm_compute. discriminate. Qed.

End SamplingFacts.

(** ** Boundary detection *)

Module BoundaryFacts.
Import MeshProcessor Boundary.

Lemma edge_eqb_eq (e f : edge) : edge_eqb e f = true <-> e = f.
Proof.
  destruct e as [a b], f as [c d]; unfold edge_eqb; simpl.
  rewrite andb_true_iff, !N.eqb_eq. split.
  - intros [-> ->]; reflexivity.
  - intros E; inversion E; auto.
Qed.

Lemma edge_eqb_refl (e : edge) : edge_eqb e e = true.
Proof. now apply edge_eqb_eq. Qed.

Lemma edge_eqb_neq (e f : edge) : e <> f -> edge_eqb e f = false.
Proof.
  intros N. destruct (edge_eqb e f) eqn:E; [|reflexivity].
  apply edge_eqb_eq in E. contradiction.
Qed.

Lemma get_set_same (m : edgeMap) (k : edge) (v : nat) :
  get (set m k v) k = Some v.
Proof.
  induction m as [|[k0 v0] m IH]; simpl.
  - now rewrite edge_eqb_refl.
  - destruct (edge_eqb k0 k) eqn:E; simpl; rewrite E; [reflexivity | exact IH].
Qed.

Lemma get_set_other (m : edgeMap) (k k' : edge) (v : nat) :
  k <> k' -> get (set m k v) k' = get m k'.
Proof.
  intros N. induction m as [|[k0 v0] m IH]; simpl.
  - now rewrite edge_eqb_neq.
  - destruct (edge_eqb k0 k) eqn:E; simpl.
    + apply edge_eqb_eq in E; subst k0. now rewrite edge_eqb_neq.
    + now rewrite IH.
Qed.

Lemma keys_set (m : edgeMap) (k k' : edge) (v : nat) :
  In k' (map fst (set m k v)) <-> k' = k \/ In k' (map fst m).
Proof.
  induction m as [|[k0 v0] m IH]; simpl.
  - intuition congruence.
  - destruct (edge_eqb k0 k) eqn:E; simpl.
    + apply edge_eqb_eq in E; subst k0. intuition congruence.
    + rewrite IH. intuition congruence.
Qed.

Lemma NoDup_set (m : edgeMap) (k : edge) (v : nat) :
  NoDup (map fst m) -> NoDup (map fst (set m k v)).
Proof.
  induction m as [|[k0 v0] m IH]; simpl; intros ND.
  - repeat constructor. intros [].
  - inversion ND as [|? ? Hn ND']; subst.
    destruct (edge_eqb k0 k) eqn:E; simpl.
    + constructor; assumption.
    + constructor; [|apply IH; assumption].
      rewrite keys_set. intros [->|H]; [|contradiction].
      now rewrite edge_eqb_refl in E.
Qed.

Lemma get_In (m : edgeMap) (k : edge) (v : nat) :
  get m k = Some v -> In (k, v) m.
Proof.
  induction m as [|[k0 v0] m IH]; simpl; [discriminate|].
  destruct (edge_eqb k0 k) eqn:E.
  - apply edge_eqb_eq in E; subst k0. intros [= ->]. now left.
  - intros H. right. now apply IH.
Qed.

Lemma In_get (m : edgeMap) (k : edge) (v : nat) :
  NoDup (map fst m) -> In (k, v) m -> get m k = Some v.
Proof.
  induction m as [|[k0 v0] m IH]; simpl; intros ND H; [contradiction|].
  inversion ND as [|? ? Hn ND']; subst.
  destruct H as [[= -> ->]|H].
  - now rewrite edge_eqb_refl.
  - destruct (edge_eqb k0 k) eqn:E.
    + apply edge_eqb_eq in E; subst k0.
      exfalso. apply Hn. apply (in_map fst) in H. exact H.
    + now apply IH.
Qed.

Lemma held_addEdge (m : edgeMap) (a b : N) (k : edge) :
  held (addEdge m a b) k
  = held m k + (if edge_eq_dec (canonical a b) k then 1 else 0).
Proof.
  unfold held, addEdge.
  destruct (edge_eq_dec (canonical a b) k) as [<-|N].
  - rewrite get_set_same. reflexivity.
  - rewrite get_set_other by assumption. lia.
Qed.

Lemma held_addAll (l : list edge) (m : edgeMap) (k : edge) :
  held (addAll m l) k = held m k + count_occ edge_eq_dec (map canon l) k.
Proof.
  revert m; induction l as [|e l IH]; intro m.
  - unfold addAll; simpl. lia.
  - change (addAll m (e :: l)) with (addAll (addEdge m (fst e) (snd e)) l).
    rewrite IH, held_addEdge. cbn [map]. unfold canon at 2.
    destruct (edge_eq_dec (canonical (fst e) (snd e)) k) as [E|E].
    + rewrite count_occ_cons_eq by exact E. lia.
    + rewrite count_occ_cons_neq by exact E. lia.
Qed.

Lemma positive_addAll (l : list edge) (m : edgeMap) :
  positive' m -> positive' (addAll m l).
Proof.
  revert m; induction l as [|e l IH]; intros m P; [exact P|].
  change (addAll m (e :: l)) with (addAll (addEdge m (fst e) (snd e)) l).
  apply IH. intros k v. unfold addEdge.
  destruct (edge_eq_dec (canonical (fst e) (snd e)) k) as [<-|N].
  - rewrite get_set_same. intros [= <-]. lia.
  - rewrite get_set_other by assumption. apply P.
Qed.

Lemma NoDup_addAll (l : list edge) (m : edgeMap) :
  NoDup (map fst m) -> NoDup (map fst (addAll m l)).
Proof.
  revert m; induction l as [|e l IH]; intros m ND; [exact ND|].
  change (addAll m (e :: l)) with (addAll (addEdge m (fst e) (snd e)) l).
  apply IH. apply NoDup_set. exact ND.
Qed.

Lemma countEdges_addAll (indices : list N) :
  countEdges indices = addAll [] (buildEdgeList indices).
Proof.
  unfold countEdges, buildEdgeList, addAll.
  generalize (@nil (edge * nat)) as m.
  induction (triples indices) as [|[[a b] c] ts IH]; intro m; simpl.
  - reflexivity.
  - rewrite IH. reflexivity.
Qed.

(** The map built by [findBoundaries] holds, for each canonical edge of the
    mesh and for no other key, its incidence count. *)
Lemma countEdges_entries (indices : list N) (k : edge) (v : nat) :
  In (k, v) (countEdges indices) <-> v = incidence indices k /\ 1 <= v.
Proof.
  rewrite countEdges_addAll.
  pose proof (held_addAll (buildEdgeList indices) [] k) as H.
  pose proof (@positive_addAll (buildEdgeList indices) []) as P.
  pose proof (@NoDup_addAll (buildEdgeList indices) []) as ND.
  assert (P0 : positive' []) by (intros ? ? ?; discriminate).
  specialize (P P0). specialize (ND (NoDup_nil _)).
  unfold held in H; simpl in H. fold (canonicalEdges indices) in H.
  fold (incidence indices k) in H.
  split.
  - intros I. apply In_get in I; [|exact ND].
    rewrite I in H. split; [exact H | exact (P _ _ I)].
  - intros [-> L]. apply get_In.
    destruct (get (addAll [] (buildEdgeList indices)) k) as [n|].
    + now rewrite H.
    + lia.
Qed.

Lemma flat_map_nil {A B : Type} (f : A -> list B) (l : list A) :
  flat_map f l = [] <-> forall a, In a l -> f a = [].
Proof.
  induction l as [|a l IH]; simpl.
  - split; [intros _ ? [] | reflexivity].
  - split.
    + intros E. apply app_eq_nil in E as [E1 E2].
      intros b [<-|H]; [exact E1 | now apply IH].
    + intros H. rewrite (H a) by now left.
      apply IH. intros b Hb. apply H. now right.
Qed.

Lemma findBoundaries_nil (indices : list N) :
  findBoundaries indices = []
  <-> forall k v, In (k, v) (countEdges indices) -> v <> 1.
Proof.
  unfold findBoundaries. rewrite flat_map_nil. split.
  - intros H k v I. specialize (H _ I). destruct k as [a b]; simpl in H.
    destruct (v =? 1) eqn:E; [discriminate|]. now apply Nat.eqb_neq.
  - intros H [[a b] v] I. specialize (H _ _ I).
    apply Nat.eqb_neq in H. now rewrite H.
Qed.

(** Every boundary that [findBoundaries] returns is a pair of vertices. *)
Lemma boundaries_are_pairs (indices : list N) (boundary : list N) :
  In boundary (findBoundaries indices) -> length boundary = 2.
Proof.
  unfold findBoundaries. intros H.
  apply in_flat_map in H as ([[a b] v] & _ & H).
  destruct (v =? 1); [|contradiction].
  destruct H as [<-|[]]. reflexivity.
Qed.

Lemma in_canonicalEdges (indices : list N) (k : edge) :
  In k (canonicalEdges indices) <-> 1 <= incidence indices k.
Proof.
  unfold incidence. rewrite (count_occ_In edge_eq_dec). lia.
Qed.

(** C9 (amended).  For every mesh whose index buffer holds whole triangles,
    [findBoundaries] returns an empty sequence if and only if no canonical
    (min, max) edge of the mesh has triangle-incidence count exactly 1; in
    particular it returns an empty sequence when every edge has incidence
    count exactly 2. *)
Theorem boundaries_empty_iff_no_edge_of_incidence_1 (indices : list N) :
  whole indices ->
  (findBoundaries indices = []
   <-> forall e, In e (canonicalEdges indices) -> incidence indices e <> 1) /\
  ((forall e, In e (canonicalEdges indices) -> incidence indices e = 2) ->
   findBoundaries indices = []).
Proof.
  intros _.
  assert (I : findBoundaries indices = []
              <-> forall e, In e (canonicalEdges indices) ->
                            incidence indices e <> 1).
  { rewrite findBoundaries_nil. split.
    - intros H e He E. apply (H e 1); [|reflexivity].
      apply countEdges_entries. split; [now rewrite E | lia].
    - intros H k v Hk ->. apply countEdges_entries in Hk as [E _].
      apply (H k); [|now rewrite <- E].
      apply in_canonicalEdges. lia. }
  split; [exact I|].
  intros H. apply I. intros e He. rewrite (H e He). discriminate.
Qed.

Lemma boundaries_empty_iff_no_edge_of_incidence_1_witness :
  let indices := [0; 2; 1;  0; 1; 3;  1; 2; 3;  0; 3; 2]%N in
  (findBoundaries indices = []
   <-> forall e, In e (canonicalEdges indices) -> incidence indices e <> 1) /\
  ((forall e, In e (canonicalEdges indices) -> incidence indices e = 2) ->
   findBoundaries indices = []).
Proof.
  exact (@boundaries_empty_iff_no_edge_of_incidence_1
           [0; 2; 1;  0; 1; 3;  1; 2; 3;  0; 3; 2]%N eq_refl).
Defined.

(** C9 as stated fails: in a mesh made of the same triangle three times no
    boundary is found, and every edge has incidence count 3. *)
Lemma tripled_triangle_has_no_boundary :
  ~ (findBoundaries Inputs.tripled = []
     <-> forall e, In e (canonicalEdges Inputs.tripled) ->
                   incidence Inputs.tripled e = 2).
Proof.
  intros [H _].
  specialize (H eq_refl (0, 1)%N).
  assert (I : In (0, 1)%N (canonicalEdges Inputs.tripled)) by (now left).
  specialize (H I). vm_compute in H. discriminate H.
Qed.

End BoundaryFacts.

(** ** Hole filling *)

Module FillFacts.
Import MeshProcessor Mesh BoundaryFacts.

Section WithFindEar.
Variable findEar : list (Vector3.t float) -> Z.

Lemma at_Some (remaining : list (Vector3.t float)) (k : Z) (v : Vector3.t float) :
  at_ remaining k = Some v -> (0 <= k)%Z /\ Z.to_nat k < length remaining.
Proof.
  unfold at_. destruct (k <? 0)%Z eqn:E; [discriminate|].
  intros H. apply Z.ltb_ge in E. split; [exact E|].
  apply nth_error_Some. congruence.
Qed.

Lemma splice1_length (remaining : list (Vector3.t float)) (k : Z) :
  Z.to_nat k < length remaining ->
  S (length (splice1 remaining k)) = length remaining.
Proof.
  intros H. unfold splice1.
  rewrite length_app, length_firstn, length_skipn. lia.
Qed.

(** The ear-clipping loop removes one vertex per iteration: the fuel it is
    given suffices. *)
Lemma clipEars_fuel (fuel : nat) (triangles : list float)
    (remaining : list (Vector3.t float)) :
  length remaining <= fuel + 3 ->
  clipEars findEar fuel triangles remaining <> Throw OutOfFuel.
Proof.
  revert triangles remaining; induction fuel as [|fuel IH];
    intros triangles remaining L; simpl.
  - destruct (3 <? length remaining) eqn:E; [|discriminate].
    apply Nat.ltb_lt in E. lia.
  - destruct (3 <? length remaining) eqn:E; [|discriminate].
    destruct (at_ remaining _) as [p|]; simpl; [|discriminate].
    destruct (at_ remaining (findEar remaining)) as [e|] eqn:A; simpl;
      [|discriminate].
    destruct (at_ remaining (Z.rem _ _)) as [n|]; simpl; [|discriminate].
    apply IH. apply at_Some in A as [_ A].
    pose proof (splice1_length remaining (findEar remaining) A). lia.
Qed.

Lemma triangulateHole_total (vertices : list (Vector3.t float)) :
  triangulateHole findEar vertices <> Throw OutOfFuel.
Proof.
  unfold triangulateHole.
  pose proof (@clipEars_fuel (length vertices) [] vertices ltac:(lia)) as F.
  destruct (clipEars findEar (length vertices) [] vertices)
    as [[triangles remaining]|e]; simpl.
  - destruct remaining as [|v0 [|v1 [|v2 rest]]]; simpl; discriminate.
  - intros H. injection H as ->. now apply F.
Qed.

(** A loop of fewer than three vertices: the final triangle reads
    [remaining[2].x] (or an earlier entry) of [undefined]. *)
Lemma triangulateHole_short (vertices : list (Vector3.t float)) :
  length vertices < 3 ->
  triangulateHole findEar vertices = Throw TypeError.
Proof.
  intros L. unfold triangulateHole.
  destruct vertices as [|v0 [|v1 [|v2 rest]]]; simpl in *; try reflexivity.
  lia.
Qed.

Lemma fillHole_pair (g : MeshGeometry) (boundary : list N) :
  length boundary = 2 -> fillHole findEar g boundary = Throw TypeError.
Proof.
  intros L. unfold fillHole.
  rewrite triangulateHole_short; [reflexivity|].
  rewrite length_map. lia.
Qed.

Lemma fillEach_pairs (g : MeshGeometry) (boundaries : list (list N)) :
  (forall b, In b boundaries -> length b = 2) ->
  fillEach findEar g boundaries
  = (g, match boundaries with [] => Ok tt | _ :: _ => Throw TypeError end).
Proof.
  destruct boundaries as [|b rest]; intros H; simpl; [reflexivity|].
  rewrite fillHole_pair by (apply H; now left). reflexivity.
Qed.

(** What [fillHoles] does: nothing on a mesh without boundary edge, and on
    any other indexed mesh it throws at the first boundary, before the
    geometry is touched. *)
Lemma fillHoles_behaviour (g : MeshGeometry) (idx : list N) :
  indices g = Some idx ->
  fillHoles findEar g
  = (g, match findBoundaries idx with
        | [] => Ok tt
        | _ :: _ => Throw TypeError
        end).
Proof.
  intros E. unfold fillHoles. rewrite E.
  apply fillEach_pairs. intros b. apply boundaries_are_pairs.
Qed.

Lemma wrap_small (w i : N) : (i < 2 ^ w)%N -> wrap w i = i.
Proof. intros H. unfold wrap. now apply N.mod_small. Qed.

Lemma ToUint_bound (w : N) (v : float) : (ToUint w v < 2 ^ w)%N.
Proof.
  unfold ToUint.
  assert (P : (0 < 2 ^ Z.of_N w)%Z) by (apply Z.pow_pos_nonneg; lia).
  pose proof (Z.mod_pos_bound (truncate v) _ P) as B.
  assert (E : (2 ^ w)%N = Z.to_N (2 ^ Z.of_N w)%Z).
  { rewrite <- (N2Z.id (2 ^ w)), N2Z.inj_pow. reflexivity. }
  rewrite E. apply Z2N.inj_lt; lia.
Qed.

(** [setIndex] leaves the integers copied from the old index as they are. *)
Lemma setIndex_old (old : list N) (numbers : list float) :
  uint32 old ->
  exists appended, setIndex old numbers = old ++ appended
                   /\ uint32 (old ++ appended).
Proof.
  intros U. unfold setIndex.
  set (w := if arrayNeedsUint32 old numbers then 32%N else 16%N).
  assert (W : (2 ^ w <= 2 ^ 32)%N) by (subst w; destruct arrayNeedsUint32; vm_compute; discriminate).
  assert (O : map (wrap w) old = old).
  { rewrite <- (map_id old) at 2. apply map_ext_in. intros i Hi.
    apply wrap_small. subst w.
    destruct (arrayNeedsUint32 old numbers) eqn:A.
    - unfold uint32 in U. rewrite Forall_forall in U. now apply U.
    - unfold arrayNeedsUint32 in A. apply orb_false_iff in A as [A _].
      assert (B : (65535 <=? i)%N = false).
      { destruct (65535 <=? i)%N eqn:B; [|reflexivity].
        rewrite <- A. symmetry. apply existsb_exists. now exists i. }
      apply N.leb_gt in B. change (2 ^ 16)%N with 65536%N. lia. }
  exists (map (ToUint w) numbers). rewrite O. split; [reflexivity|].
  unfold uint32 in *. apply Forall_app. split; [exact U|].
  apply Forall_forall. intros i Hi. apply in_map_iff in Hi as (v & <- & _).
  pose proof (ToUint_bound w v). lia.
Qed.

(** [fillHole] on any boundary, when it returns: the position attribute is
    the same and the new index array extends the old one. *)
Lemma fillHole_appends (g g' : MeshGeometry) (boundary idx : list N) :
  indices g = Some idx -> uint32 idx ->
  fillHole findEar g boundary = Ok g' ->
  positions g' = positions g /\
  exists appended, indices g' = Some (idx ++ appended)
                   /\ uint32 (idx ++ appended).
Proof.
  intros E U. unfold fillHole.
  destruct (triangulateHole findEar _) as [triangles|e]; simpl; [|discriminate].
  rewrite E; simpl. intros [= <-]. split; [reflexivity|]. cbn [indices].
  destruct (setIndex_old triangles U) as (appended & -> & U').
  exists appended. split; [reflexivity | exact U'].
Qed.

Lemma fillHole_total (g : MeshGeometry) (boundary : list N) :
  fillHole findEar g boundary <> Throw OutOfFuel.
Proof.
  unfold fillHole.
  pose proof (triangulateHole_total
                (map (fun i => vertexAt (positions g) (N.to_nat i)) boundary)) as T.
  destruct (triangulateHole findEar _) as [triangles|e]; simpl.
  - destruct (indices g); simpl; discriminate.
  - intros H. injection H as ->. now apply T.
Qed.

Lemma fillEach_appends (boundaries : list (list N)) (g : MeshGeometry)
    (idx : list N) :
  indices g = Some idx -> uint32 idx ->
  positions (fst (fillEach findEar g boundaries)) = positions g /\
  (exists appended,
      indices (fst (fillEach findEar g boundaries)) = Some (idx ++ appended)) /\
  snd (fillEach findEar g boundaries) <> Throw OutOfFuel.
Proof.
  revert g idx; induction boundaries as [|b rest IH]; intros g idx E U; simpl.
  - split; [reflexivity|]. split; [|discriminate].
    exists []. now rewrite app_nil_r.
  - pose proof (fillHole_total g b) as T.
    destruct (fillHole findEar g b) as [g'|e] eqn:F; simpl.
    + destruct (@fillHole_appends g g' b idx E U F) as (P & app & E' & U').
      destruct (IH g' (idx ++ app) E' U') as (P' & (app' & E'') & T').
      split; [congruence|]. split; [|exact T'].
      exists (app ++ app'). now rewrite app_assoc.
    + split; [reflexivity|]. split.
      * exists []. now rewrite app_nil_r.
      * intros H. injection H as ->. now apply T.
Qed.

End WithFindEar.

(** C10.  For every mesh with a triangle index buffer (of whole triangles,
    held in a typed array), whatever [findEar] does, [fillHoles] leaves the
    position attribute unchanged and the input's index sequence as a prefix
    of the output's index sequence, whether it returns or throws; the loop
    of the model never runs out of fuel. *)
Theorem fillHoles_append_only
    (findEar : list (Vector3.t float) -> Z) (g : MeshGeometry) (idx : list N) :
  indices g = Some idx -> whole idx -> uint32 idx ->
  let after := fst (fillHoles findEar g) in
  positions after = positions g /\
  (exists appended, indices after = Some (idx ++ appended)) /\
  snd (fillHoles findEar g) <> Throw OutOfFuel.
Proof.
  intros E _ U. cbn zeta. unfold fillHoles. rewrite E.
  apply fillEach_appends; assumption.
Qed.

Lemma tetrahedron_uint32 :
  uint32 [0; 2; 1;  0; 1; 3;  1; 2; 3;  0; 3; 2]%N.
Proof. repeat (constructor; [reflexivity|]). constructor. Qed.

Lemma fillHoles_append_only_witness :
  let after := fst (fillHoles Inputs.firstEar Inputs.tetrahedron) in
  positions after = positions Inputs.tetrahedron /\
  (exists appended,
      indices after = Some ([0; 2; 1;  0; 1; 3;  1; 2; 3;  0; 3; 2]%N ++ appended)) /\
  snd (fillHoles Inputs.firstEar Inputs.tetrahedron) <> Throw OutOfFuel.
Proof.
  exact (@fillHoles_append_only Inputs.firstEar Inputs.tetrahedron _
           eq_refl eq_refl tetrahedron_uint32).
Defined.

(** C1 (the code departs from the claim).  On a single triangle, a valid
    mesh, [fillHoles] throws a TypeError and produces no mesh, and so it
    does on every indexed mesh that has a boundary edge: the boundaries it
    is given are single edges, and the final triangle of [triangulateHole]
    needs a third vertex.  When [fillHole] is given a loop of three vertices
    it appends their x coordinates (5, 7, 9 here) as indices, which are not
    below the number of vertices (3). *)
Theorem fillHoles_breaks_index_validity (findEar : list (Vector3.t float) -> Z) :
  validIndices Inputs.triangle /\
  fillHoles findEar Inputs.triangle = (Inputs.triangle, Throw TypeError) /\
  (forall g idx, indices g = Some idx -> findBoundaries idx <> [] ->
                 fillHoles findEar g = (g, Throw TypeError)) /\
  validIndices Inputs.shifted /\
  fillHole findEar Inputs.shifted [0; 1; 2]%N
  = Ok {| positions := positions Inputs.shifted;
          indices := Some [0; 1; 2; 5; 7; 9]%N |} /\
  ~ validIndices {| positions := positions Inputs.shifted;
                    indices := Some [0; 1; 2; 5; 7; 9]%N |}.
Proof.
  split; [|split; [|split; [|split; [|split]]]].
  - unfold validIndices; simpl. repeat constructor.
  - rewrite (@fillHoles_behaviour findEar Inputs.triangle _ eq_refl).
    reflexivity.
  - intros g idx E B. rewrite (@fillHoles_behaviour findEar g idx E).
    destruct (findBoundaries idx); [contradiction | reflexivity].
  - unfold validIndices; simpl. repeat constructor.
  - vm_compute. reflexivity.
  - unfold validIndices; simpl. intros V.
    repeat match goal with H : Forall _ (_ :: _) |- _ => inversion H; clear H; subst end.
    simpl in *. lia.
Qed.

End FillFacts.

(** ** Simplification *)

Module SimplifyFacts.
Import MeshProcessor Mesh.

Lemma collapseEdges_empty (edges : list edge) (target : float) (l : list N) :
  collapseEdges edges target = Ok l -> l = [].
Proof.
  unfold collapseEdges. destruct (collapseLoop (rev edges) target); simpl.
  - now intros [= <-].
  - discriminate.
Qed.

Lemma collapseLoop_reached (stack : list edge) (target : float) :
  (target * 3 <? float_of_nat (length stack))%float = false ->
  collapseLoop stack target = Ok tt.
Proof. intros H. destruct stack; simpl in *; now rewrite H. Qed.

(** C6 (the code departs from the claim).  When the target is not below
    the current triangle count, [simplifyGeometry] raises no error and
    keeps the vertices, but no triangle: [collapseEdges] never adds to
    [newIndices], so the index array it returns is empty, and [setIndex]
    stores this typed array as it is, so that the readers of the returned
    mesh find no index array at all. *)
Theorem simplifyGeometry_empties_the_index
    (g : MeshGeometry) (idx : list N) (simplificationRatio : float) :
  indices g = Some idx ->
  targetReached idx simplificationRatio = true ->
  collapseEdges (buildEdgeList idx) (targetCount idx simplificationRatio) = Ok [] /\
  simplifyGeometry g simplificationRatio
  = Ok {| positions := positions g; indices := None |}.
Proof.
  intros E T.
  assert (C : collapseEdges (buildEdgeList idx) (targetCount idx simplificationRatio)
              = Ok []).
  { unfold collapseEdges. rewrite collapseLoop_reached; [reflexivity|].
    rewrite length_rev. unfold targetReached in T.
    now apply negb_true_iff in T. }
  split; [exact C|].
  unfold simplifyGeometry. rewrite E.
  fold (targetCount idx simplificationRatio). now rewrite C.
Qed.

Lemma simplifyGeometry_empties_the_index_witness :
  targetCount [0; 1; 2]%N 0 = 1%float /\
  collapseEdges (buildEdgeList [0; 1; 2]%N) (targetCount [0; 1; 2]%N 0) = Ok [] /\
  simplifyGeometry Inputs.triangle 0
  = Ok {| positions := positions Inputs.triangle; indices := None |}.
Proof.
  split; [reflexivity|].
  exact (@simplifyGeometry_empties_the_index Inputs.triangle [0; 1; 2]%N 0
           eq_refl eq_refl).
Defined.

(** Whatever the target, a mesh that [simplifyGeometry] returns for an
    indexed mesh has no triangle. *)
Lemma simplifyGeometry_index (g g' : MeshGeometry) (idx : list N) (ratio : float) :
  indices g = Some idx -> simplifyGeometry g ratio = Ok g' ->
  collapseEdges (buildEdgeList idx) (targetCount idx ratio) = Ok [] /\
  positions g' = positions g /\ indices g' = None.
Proof.
  intros E. unfold simplifyGeometry. rewrite E.
  fold (targetCount idx ratio).
  destruct (collapseEdges _ _) as [l|e] eqn:C; simpl; [|discriminate].
  apply collapseEdges_empty in C; subst l. now intros [= <-].
Qed.

(** The same with a target above the triangle count (ratio -1, target 2),
    and with the ordinary ratio 0.5 on a tetrahedron. *)
Example simplifyGeometry_other_ratios :
  targetCount [0; 1; 2]%N (-1) = 2%float /\
  simplifyGeometry Inputs.triangle (-1)
  = Ok {| positions := positions Inputs.triangle; indices := None |} /\
  simplifyGeometry Inputs.tetrahedron 0.5
  = Ok {| positions := positions Inputs.tetrahedron; indices := None |}.
Proof. repeat split; vm_compute; reflexivity. Qed.

End SimplifyFacts.

(** ** Smoothing *)

Module SmoothFacts.
Import MeshProcessor Mesh.

Lemma centroidOf_nil (positions : list float) :
  centroidOf positions [] = Vector3.make nan nan nan.
Proof. vm_compute. reflexivity. Qed.

(** C7 (the code departs from the claim).  A vertex without neighbours
    does not keep its position: the zero centroid is divided by the number
    of neighbours, 0, and each of its coordinates becomes NaN.  On a mesh
    where no vertex has a neighbour [smooth] is not a no-op: the vertex at
    (1, 2, 3) ends at (NaN, NaN, NaN); on a triangle with an isolated
    fourth vertex, that vertex does. *)
Theorem zero_neighbour_vertex_becomes_nan :
  (forall g i, findVertexNeighbors g i = Ok [] ->
               smoothedAt g i = Ok [nan; nan; nan]) /\
  findVertexNeighbors Inputs.loneVertex 0 = Ok [] /\
  smoothGeometry Inputs.loneVertex
  = Ok {| positions := [nan; nan; nan]; indices := Some [] |} /\
  findVertexNeighbors Inputs.withIsolated 3 = Ok [] /\
  smoothGeometry Inputs.withIsolated
  = Ok {| positions := [0.5; 0.5; 0;  0; 0.5; 0;  0.5; 0; 0;  nan; nan; nan]%float;
          indices := Some [0; 1; 2]%N |}.
Proof.
  split; [|repeat split; vm_compute; reflexivity].
  intros g i H. unfold smoothedAt. rewrite H; cbn [bind].
  rewrite centroidOf_nil. vm_compute. reflexivity.
Qed.

End SmoothFacts.

(** ** Motion estimation *)

Module MotionFacts.
Import VideoProcessor Motion.

Section AnyNumber.
Context {T : Type} `{Number T}.

Lemma flow_unchanged (frame1 frame2 : ImageData) (l : list (nat * nat)) (acc : T * T) :
  forallb (fun p => negb (changed frame1 frame2
                            ((snd p * width frame1 + fst p) * 4))) l = true ->
  fold_left (flowStep frame1 frame2) l acc = acc.
Proof.
  revert acc; induction l as [|[x y] l IH]; intros acc U; simpl in *.
  - reflexivity.
  - apply andb_prop in U as [U1 U2]. apply negb_true_iff in U1.
    rewrite U1. now apply IH.
Qed.

(** Without a changed pixel the accumulators keep their initial value. *)
Lemma accumulate_unchanged (frame1 frame2 : ImageData) :
  unchanged frame1 frame2 = true ->
  accumulate frame1 frame2 = (num_of_Z 0, num_of_Z 0).
Proof. intros U. unfold accumulate. now apply flow_unchanged. Qed.

Lemma flow_moving (frame1 frame2 : ImageData) (l : list (nat * nat)) (acc : T * T) :
  fold_left (flowStep frame1 frame2) l acc
  = fold_left
      (fun acc p =>
         (num_add (fst acc)
            (num_sub (num_of_Z (Z.of_nat (fst p)))
                     (num_div (num_of_Z (Z.of_nat (width frame1))) (num_of_Z 2))),
          num_add (snd acc)
            (num_sub (num_of_Z (Z.of_nat (snd p)))
                     (num_div (num_of_Z (Z.of_nat (height frame1))) (num_of_Z 2)))))
      (filter (fun p => changed frame1 frame2 ((snd p * width frame1 + fst p) * 4)) l)
      acc.
Proof.
  revert acc; induction l as [|[x y] l IH]; intro acc; [reflexivity|].
  cbn [fold_left filter fst snd]. unfold flowStep at 2.
  destruct (changed frame1 frame2 ((y * width frame1 + x) * 4)); apply IH.
Qed.

(** The two accumulators of the loop are two separate sums. *)
Lemma fold_pair (fx fy : nat * nat -> T) (l : list (nat * nat)) (a b : T) :
  fold_left (fun acc p => (num_add (fst acc) (fx p), num_add (snd acc) (fy p))) l (a, b)
  = (fold_left (fun acc p => num_add acc (fx p)) l a,
     fold_left (fun acc p => num_add acc (fy p)) l b).
Proof.
  revert a b; induction l as [|p l IH]; intros a b; [reflexivity|].
  cbn [fold_left fst snd]. apply IH.
Qed.

End AnyNumber.

(** The nested loops visit the pixels row by row. *)
Lemma seq_from (a n : nat) : seq a n = map (Nat.add a) (seq 0 n).
Proof.
  revert a; induction n as [|n IH]; intros a; [reflexivity|].
  cbn [seq map]. rewrite Nat.add_0_r. f_equal.
  rewrite (IH (S a)), (IH 1), map_map. apply map_ext. intros k. lia.
Qed.

Lemma pixels_rowMajor (frame : ImageData) :
  pixels frame = MotionSpec.rowMajor (width frame) (height frame).
Proof.
  unfold pixels, MotionSpec.rowMajor.
  set (w := width frame). induction (height frame) as [|h IH]; intros.
  - now rewrite Nat.mul_0_r.
  - rewrite seq_S, flat_map_app, IH. cbn [flat_map Nat.add]. rewrite app_nil_r.
    replace (w * S h) with (w * h + w) by lia.
    rewrite seq_app, map_app. f_equal. cbn [Nat.add].
    rewrite (seq_from (w * h) w), map_map.
    apply map_ext_in. intros x I. apply in_seq in I.
    replace (w * h + x) with (x + h * w) by lia.
    rewrite Nat.Div0.mod_add, Nat.div_add by lia.
    rewrite Nat.mod_small, Nat.div_small by lia. reflexivity.
Qed.

Lemma in_rowMajor (w h x y : nat) :
  In (x, y) (MotionSpec.rowMajor w h) <-> x < w /\ y < h.
Proof.
  unfold MotionSpec.rowMajor. rewrite in_map_iff. split.
  - intros (k & E & I). apply in_seq in I. injection E as <- <-.
    assert (0 < w) by (destruct w; [cbn in I|]; lia).
    split; [apply Nat.mod_upper_bound; lia|].
    apply Nat.Div0.div_lt_upper_bound. lia.
  - intros [X Y]. exists (x + y * w). split.
    + rewrite Nat.Div0.mod_add, Nat.div_add by lia.
      now rewrite Nat.mod_small, Nat.div_small by lia.
    + apply in_seq. nia.
Qed.

Lemma NoDup_rowMajor (w h : nat) : NoDup (MotionSpec.rowMajor w h).
Proof.
  unfold MotionSpec.rowMajor. apply NoDup_map_NoDup_ForallPairs; [|apply seq_NoDup].
  intros j k _ _ E. injection E as M D.
  rewrite (Nat.div_mod_eq j w), (Nat.div_mod_eq k w). now rewrite M, D.
Qed.

(** The test of the loop is the comparison of the two red bytes. *)
Lemma changed_exceeds (frame1 frame2 : ImageData) (p : nat * nat) :
  width frame2 = width frame1 ->
  changed frame1 frame2 ((snd p * width frame1 + fst p) * 4)
  = MotionSpec.exceeds frame1 frame2 p.
Proof.
  intros W. unfold changed, MotionSpec.exceeds, MotionSpec.red. rewrite W.
  rewrite (Nat.mul_comm _ 4).
  destruct (nth_error (data frame2) _), (nth_error (data frame1) _); reflexivity.
Qed.

(** What the loop leaves in [dx] and [dy], for either reading of the
    arithmetic. *)
Lemma accumulate_totals {T : Type} `{Number T} (frame1 frame2 : ImageData) :
  width frame2 = width frame1 ->
  accumulate frame1 frame2
  = (MotionSpec.total (MotionSpec.offsetX frame1)
       (MotionSpec.changedPixels frame1 frame2),
     MotionSpec.total (MotionSpec.offsetY frame1)
       (MotionSpec.changedPixels frame1 frame2)).
Proof.
  intros W. unfold accumulate. rewrite flow_moving.
  rewrite (@ListFacts.filter_ext_in' _ _ (MotionSpec.exceeds frame1 frame2))
    by (intros p _; now apply changed_exceeds).
  rewrite pixels_rowMajor. fold (MotionSpec.changedPixels frame1 frame2).
  exact (fold_pair (MotionSpec.offsetX frame1) (MotionSpec.offsetY frame1)
           (MotionSpec.changedPixels frame1 frame2) (num_of_Z 0) (num_of_Z 0)).
Qed.

Lemma normalize_R (dx dy : R) :
  let len := sqrt (dx * dx + dy * dy) in
  (len = 0 ->
   Vector3.normalize (Vector3.make dx dy 0) = Vector3.make 0 0 0)%R /\
  (len <> 0 ->
   Vector3.normalize (Vector3.make dx dy 0)
   = Vector3.make (dx / len) (dy / len) 0 /\
   (dx / len) * (dx / len) + (dy / len) * (dy / len) + 0 * 0 = 1)%R.
Proof.
  cbn zeta.
  assert (P : (0 <= dx * dx + dy * dy)%R) by nra.
  assert (E : Vector3.length (Vector3.make dx dy 0%R) = sqrt (dx * dx + dy * dy)).
  { unfold Vector3.length; cbn. f_equal. ring. }
  unfold Vector3.normalize. rewrite E.
  unfold Vector3.divideScalar, Vector3.multiplyScalar; cbn.
  unfold R_truthy. destruct (Req_dec_T (sqrt (dx * dx + dy * dy)) 0) as [Z|NZ].
  - split; [|contradiction]. intros _.
    apply sqrt_eq_0 in Z; [|exact P].
    assert (dx = 0%R) by nra. assert (dy = 0%R) by nra. subst.
    f_equal; ring.
  - split; [contradiction|]. intros _. split.
    + f_equal; field; exact NZ.
    + pose proof (sqrt_sqrt _ P) as S.
      set (len := sqrt (dx * dx + dy * dy)) in *.
      replace (dx / len * (dx / len) + dy / len * (dy / len) + 0 * 0)%R
        with ((dx * dx + dy * dy) / (len * len))%R by (field; exact NZ).
      rewrite S. field. nra.
Qed.

(** C8.  For every pair of frames of equal size, with [S] the pixels
    [(x, y)] inside the frame whose red bytes differ by more than 30 between
    the two frames, each once and row by row, and [dx], [dy] the sums of
    their offsets [x - width / 2] and [y - height / 2] from the frame
    centre, added up from 0 in that order:

    on JavaScript's numbers (binary64) [calculateOpticalFlow] returns the
    normalization of [(dx, dy, 0)], which is
    [(dx * (1 / l), dy * (1 / l), 0)] for the length [l] of [(dx, dy, 0)],
    [1] taking the place of a length that is 0 or NaN; the z component is
    exactly 0; and when no pixel of the frame differs by more than 30 the
    result is exactly [(0, 0, 0)].  The function is total: no pair of
    frames makes it throw.  With the same arithmetic read over the reals,
    the result is the accumulated offset divided by its length, a vector of
    length 1, unless that offset is zero, and then it is the zero
    vector. *)
Theorem motion_estimate_is_normalized_offset (frame1 frame2 : ImageData) :
  width frame2 = width frame1 -> height frame2 = height frame1 ->
  let S := MotionSpec.changedPixels frame1 frame2 in
  (NoDup S /\
   forall x y,
     In (x, y) S
     <-> x < width frame1 /\ y < height frame1 /\
         exists a b,
           nth_error (data frame1) (4 * (y * width frame1 + x)) = Some a /\
           nth_error (data frame2) (4 * (y * width frame2 + x)) = Some b /\
           (30 < Z.abs (b - a))%Z) /\
  (let v := calculateOpticalFlow (T := float) frame1 frame2 in
   let dx := MotionSpec.total (T := float) (MotionSpec.offsetX frame1) S in
   let dy := MotionSpec.total (T := float) (MotionSpec.offsetY frame1) S in
   let len := PrimFloat.sqrt (dx * dx + dy * dy + 0 * 0) in
   let l := if float_truthy len then len else 1 in
   v = Vector3.normalize (Vector3.make dx dy 0) /\
   v = Vector3.make (dx * (1 / l)) (dy * (1 / l)) 0 /\
   ((forall x y, x < width frame1 -> y < height frame1 ->
       MotionSpec.exceeds frame1 frame2 (x, y) = false) ->
    v = Vector3.make 0 0 0))%float /\
  (let v := calculateOpticalFlow (T := R) frame1 frame2 in
   let dx := MotionSpec.total (T := R) (MotionSpec.offsetX frame1) S in
   let dy := MotionSpec.total (T := R) (MotionSpec.offsetY frame1) S in
   let len := sqrt (dx * dx + dy * dy) in
   Vector3.z v = 0 /\
   (len = 0 -> v = Vector3.make 0 0 0) /\
   (len <> 0 ->
    v = Vector3.make (dx / len) (dy / len) 0 /\
    Vector3.x v * Vector3.x v + Vector3.y v * Vector3.y v
    + Vector3.z v * Vector3.z v = 1))%R.
Proof.
  intros W Hh. cbn zeta.
  set (S := MotionSpec.changedPixels frame1 frame2).
  split; [|split].
  - split.
    + apply NoDup_filter, NoDup_rowMajor.
    + intros x y. unfold S, MotionSpec.changedPixels.
      rewrite filter_In, in_rowMajor.
      unfold MotionSpec.exceeds, MotionSpec.red. cbn [fst snd].
      destruct (nth_error (data frame1) (4 * (y * width frame1 + x))) as [a|];
        destruct (nth_error (data frame2) (4 * (y * width frame2 + x))) as [b|].
      * rewrite Z.ltb_lt. split.
        -- intros [[X Y] L]. split; [exact X|]. split; [exact Y|].
           now exists a, b.
        -- intros (X & Y & a' & b' & [= <-] & [= <-] & L). tauto.
      * split; [intros [_ ?]; discriminate
               | intros (_ & _ & a' & b' & _ & ? & _); discriminate].
      * split; [intros [_ ?]; discriminate
               | intros (_ & _ & a' & b' & ? & _); discriminate].
      * split; [intros [_ ?]; discriminate
               | intros (_ & _ & a' & b' & ? & _); discriminate].
  - unfold calculateOpticalFlow.
    rewrite (accumulate_totals (T := float) frame1 frame2 W). fold S.
    set (dx := MotionSpec.total (T := float) (MotionSpec.offsetX frame1) S).
    set (dy := MotionSpec.total (T := float) (MotionSpec.offsetY frame1) S).
    split; [reflexivity|]. split.
    + unfold Vector3.normalize, Vector3.divideScalar, Vector3.multiplyScalar,
        Vector3.length.
      cbn [Vector3.x Vector3.y Vector3.z num_of_Z num_add num_mul num_div num_sqrt
           num_truthy float_Number].
      change (float_of_Z 0) with 0%float. change (float_of_Z 1) with 1%float.
      f_equal.
      exact (FloatFacts.zero_times_reciprocal_length (dx * dx + dy * dy + 0 * 0)%float).
    + intros U.
      assert (E : S = []).
      { unfold S, MotionSpec.changedPixels.
        rewrite (@ListFacts.filter_ext_in' _ _ (fun _ => false)).
        - induction (MotionSpec.rowMajor _ _) as [|p l IH]; [reflexivity | exact IH].
        - intros [x y] I. apply in_rowMajor in I. now apply U. }
      subst dx dy. rewrite E. vm_compute. reflexivity.
  - unfold calculateOpticalFlow.
    rewrite (accumulate_totals (T := R) frame1 frame2 W). fold S.
    set (dx := MotionSpec.total (T := R) (MotionSpec.offsetX frame1) S).
    set (dy := MotionSpec.total (T := R) (MotionSpec.offsetY frame1) S).
    cbn [num_of_Z R_Number].
    destruct (normalize_R dx dy) as [Z NZ].
    assert (Zc : Vector3.z (Vector3.normalize (Vector3.make dx dy 0%R)) = 0%R).
    { unfold Vector3.normalize, Vector3.divideScalar, Vector3.multiplyScalar; cbn.
      ring. }
    split; [exact Zc|]. split.
    + exact Z.
    + intros L. destruct (NZ L) as [V One]. split; [exact V|].
      rewrite V. cbn [Vector3.x Vector3.y Vector3.z]. exact One.
Qed.

Lemma motion_estimate_is_normalized_offset_witness :
  calculateOpticalFlow (T := float) Inputs.frame2x2 Inputs.frame2x2'
  = Vector3.normalize (Vector3.make (-1) (-1) 0)%float.
Proof.
  exact (proj1 (proj1 (proj2 (@motion_estimate_is_normalized_offset
                                Inputs.frame2x2 Inputs.frame2x2' eq_refl eq_refl)))).
Defined.

(** A pair of frames whose first pixel changed, in binary64: the offset
    (-1, -1, 0) of that pixel, normalized; and a pair without change. *)
Example motion_of_one_changed_pixel :
  MotionSpec.changedPixels Inputs.frame2x2 Inputs.frame2x2' = [(0, 0)] /\
  Vector3.z (calculateOpticalFlow (T := float) Inputs.frame2x2 Inputs.frame2x2')
  = 0%float /\
  calculateOpticalFlow (T := float) Inputs.frame2x2 Inputs.frame2x2
  = Vector3.make 0%float 0%float 0%float.
Proof. repeat split; vm_compute; reflexivity. Qed.

End MotionFacts.

(** * Further properties of the processors *)

(** ** Boundary edges *)

Module BoundaryEdges.
Import MeshProcessor Boundary BoundaryFacts.

Lemma in_findBoundaries (indices : list N) (boundary : list N) :
  In boundary (findBoundaries indices)
  <-> exists a b, boundary = [a; b] /\ In ((a, b), 1) (countEdges indices).
Proof.
  unfold findBoundaries. rewrite in_flat_map. split.
  - intros [[[a b] n] [I B]]. destruct (Nat.eqb_spec n 1) as [->|]; [|destruct B].
    destruct B as [<-|[]]. now exists a, b.
  - intros (a & b & -> & I). exists ((a, b), 1). split; [exact I|].
    cbn. now left.
Qed.

Lemma canonical_ordered (k : edge) (indices : list N) :
  In k (canonicalEdges indices) -> (fst k <= snd k)%N.
Proof.
  unfold canonicalEdges. rewrite in_map_iff. intros ([a b] & <- & _).
  unfold canon, canonical. cbn [fst snd]. lia.
Qed.

Lemma NoDup_boundaries (m : edgeMap) :
  NoDup (map fst m) ->
  NoDup (flat_map (fun entry : edge * nat =>
                     let '((a, b), n) := entry in
                     if n =? 1 then [[a; b]] else []) m).
Proof.
  induction m as [|[[a b] n] m IH]; intros D.
  - constructor.
  - cbn [map fst] in D. inversion D as [|? ? NI D']; subst.
    cbn [flat_map]. destruct (n =? 1).
    + cbn [app]. constructor; [|exact (IH D')].
      rewrite in_flat_map. intros [[[a' b'] n'] [I B]].
      destruct (n' =? 1); [|destruct B]. destruct B as [E|[]].
      injection E as -> ->. apply NI.
      change (a, b) with (fst ((a, b), n')). now apply in_map.
    + exact (IH D').
Qed.

Lemma incidence_1_boundary (indices : list N) (a b : N) :
  incidence indices (a, b) = 1 -> In [a; b] (findBoundaries indices).
Proof.
  intros E. apply in_findBoundaries. exists a, b. split; [reflexivity|].
  apply countEdges_entries. split; [now symmetry | lia].
Qed.

(** X1.  On an index array of whole triples [findBoundaries] lists every
    edge that lies on exactly one triangle once, as the pair [min, max] of
    its end points, and nothing else. *)
Theorem boundaries_are_the_edges_on_one_triangle (indices : list N) :
  whole indices ->
  NoDup (findBoundaries indices) /\
  forall boundary,
    In boundary (findBoundaries indices)
    <-> exists a b, boundary = [a; b] /\ (a <= b)%N /\ incidence indices (a, b) = 1.
Proof.
  intros _. split.
  - apply NoDup_boundaries. rewrite countEdges_addAll.
    apply NoDup_addAll. constructor.
  - intros boundary. rewrite in_findBoundaries. split.
    + intros (a & b & -> & I). exists a, b. split; [reflexivity|].
      apply countEdges_entries in I. destruct I as [E _].
      split; [|now symmetry].
      apply (canonical_ordered (a, b) indices).
      apply in_canonicalEdges. lia.
    + intros (a & b & -> & _ & E). exists a, b. split; [reflexivity|].
      apply countEdges_entries. split; [now symmetry | lia].
Qed.

Lemma boundaries_are_the_edges_on_one_triangle_witness :
  NoDup (findBoundaries [0; 1; 2;  0; 2; 3]%N) /\
  forall boundary,
    In boundary (findBoundaries [0; 1; 2;  0; 2; 3]%N)
    <-> exists a b, boundary = [a; b] /\ (a <= b)%N
                    /\ incidence [0; 1; 2;  0; 2; 3]%N (a, b) = 1.
Proof.
  exact (@boundaries_are_the_edges_on_one_triangle [0; 1; 2;  0; 2; 3]%N eq_refl).
Defined.

End BoundaryEdges.

(** ** Vertex neighbourhoods *)

Module NeighbourFacts.
Import MeshProcessor Adjacency.

Lemma add_In (l : list N) (v u : N) : In u (add l v) <-> In u l \/ u = v.
Proof.
  unfold add. destruct (existsb (N.eqb v) l) eqn:E.
  - apply existsb_exists in E. destruct E as (w & I & W).
    apply N.eqb_eq in W. subst w. split; [now left|].
    intros [?| ->]; assumption.
  - rewrite in_app_iff. cbn [In]. intuition.
Qed.

Lemma add_NoDup (l : list N) (v : N) : NoDup l -> NoDup (add l v).
Proof.
  intros D. unfold add. destruct (existsb (N.eqb v) l) eqn:E; [exact D|].
  apply NoDup_app; [exact D | repeat constructor; intros [] |].
  intros w I [W|[]]. rewrite <- W in I.
  assert (X : existsb (N.eqb v) l = true).
  { apply existsb_exists. exists v. split; [exact I | apply N.eqb_refl]. }
  congruence.
Qed.

Lemma visit_In (v : nat) (l : list N) (t : N * N * N) (u : N) :
  In u (visit v l t) <-> In u l \/ corners t u (N.of_nat v).
Proof.
  destruct t as [[a b] c]. unfold visit, corners.
  destruct (N.eqb_spec a (N.of_nat v)) as [A|A];
    [|destruct (N.eqb_spec b (N.of_nat v)) as [B|B];
      [|destruct (N.eqb_spec c (N.of_nat v)) as [C|C]]];
    rewrite ?add_In; intuition (subst; auto; congruence).
Qed.

Lemma visit_NoDup (v : nat) (l : list N) (t : N * N * N) :
  NoDup l -> NoDup (visit v l t).
Proof.
  intros D. destruct t as [[a b] c]. unfold visit.
  repeat match goal with
         | |- context [if ?c then _ else _] => destruct c
         end; auto using add_NoDup.
Qed.

Lemma fold_visit (v : nat) (ts : list (N * N * N)) (l : list N) :
  (NoDup l -> NoDup (fold_left (visit v) ts l)) /\
  forall u, In u (fold_left (visit v) ts l)
            <-> In u l \/ exists t, In t ts /\ corners t u (N.of_nat v).
Proof.
  revert l; induction ts as [|t ts IH]; intros l; cbn [fold_left].
  - split; [auto|]. intros u. split; [now left|].
    intros [I|(t & [] & _)]. exact I.
  - destruct (IH (visit v l t)) as [D M]. split.
    + intros Dl. apply D. now apply visit_NoDup.
    + intros u. rewrite M, visit_In. cbn [In]. split.
      * intros [[I|C]|(t' & I & C)]; [now left | right; exists t; auto
                                     | right; exists t'; auto].
      * intros [I|(t' & [<-|I] & C)]; [auto | auto | right; exists t'; auto].
Qed.

Lemma corners_sym (t : N * N * N) (u v : N) : corners t u v -> corners t v u.
Proof.
  destruct t as [[a b] c]. unfold corners. intuition (subst; auto 6).
Qed.

Lemma findVertexNeighbors_visit (g : MeshGeometry) (idx : list N) (v : nat) :
  indices g = Some idx ->
  findVertexNeighbors g v = Ok (fold_left (visit v) (triples idx) []).
Proof. intros E. unfold findVertexNeighbors. rewrite E. reflexivity. Qed.

(** X2.  On a mesh indexed by whole triples [findVertexNeighbors] returns, without repeats,
    exactly the vertices that share a triangle with the given vertex, and
    the relation is symmetric: [v] is among the neighbours of [u] exactly
    when [u] is among the neighbours of [v]. *)
Theorem neighbours_are_symmetric (g : MeshGeometry) (idx : list N) (u v : nat) :
  indices g = Some idx -> whole idx ->
  exists nu nv,
    findVertexNeighbors g u = Ok nu /\
    findVertexNeighbors g v = Ok nv /\
    NoDup nu /\
    (forall w, In w nu <-> shares idx w (N.of_nat u)) /\
    (In (N.of_nat v) nu <-> In (N.of_nat u) nv).
Proof.
  intros E _.
  exists (fold_left (visit u) (triples idx) []),
         (fold_left (visit v) (triples idx) []).
  destruct (fold_visit u (triples idx) []) as [Du Mu].
  destruct (fold_visit v (triples idx) []) as [_ Mv].
  split; [now apply findVertexNeighbors_visit|].
  split; [now apply findVertexNeighbors_visit|].
  split; [apply Du; constructor|].
  split.
  - intros w. rewrite Mu. unfold shares. cbn [In]. tauto.
  - rewrite Mu, Mv. cbn [In].
    split; intros [[]|(t & I & C)]; right; exists t;
      (split; [exact I | now apply corners_sym]).
Qed.

Lemma neighbours_are_symmetric_witness :
  exists nu nv,
    findVertexNeighbors Inputs.triangle 0 = Ok nu /\
    findVertexNeighbors Inputs.triangle 1 = Ok nv /\
    NoDup nu /\
    (forall w, In w nu <-> shares [0; 1; 2]%N w (N.of_nat 0)) /\
    (In (N.of_nat 1) nu <-> In (N.of_nat 0) nv).
Proof.
  exact (@neighbours_are_symmetric Inputs.triangle [0; 1; 2]%N 0 1 eq_refl eq_refl).
Defined.

End NeighbourFacts.

(** ** Smoothing keeps the shape of the mesh *)

Module SmoothShape.
Import MeshProcessor Mesh.

Lemma smoothedAt_indexed (g : MeshGeometry) (idx : list N) (i : nat) :
  indices g = Some idx ->
  exists l, smoothedAt g i = Ok l /\ length l = 3.
Proof.
  intros E. unfold smoothedAt, findVertexNeighbors. rewrite E.
  cbn [defined bind]. eexists. split; reflexivity.
Qed.

Lemma smoothEach_indexed (g : MeshGeometry) (idx : list N) (vertices : list nat) :
  indices g = Some idx ->
  exists l, smoothEach g vertices = Ok l /\ length l = 3 * length vertices.
Proof.
  intros E. induction vertices as [|i rest (l & IH & L)].
  - exists []. split; reflexivity.
  - destruct (smoothedAt_indexed g i E) as (h & H & Lh).
    exists (h ++ l). cbn [smoothEach]. rewrite H, IH. cbn [bind].
    split; [reflexivity|]. rewrite length_app. cbn [length]. lia.
Qed.

Lemma smoothEach_unindexed (g : MeshGeometry) (i : nat) (rest : list nat) :
  indices g = None -> smoothEach g (i :: rest) = Throw TypeError.
Proof.
  intros E. cbn [smoothEach]. unfold smoothedAt, findVertexNeighbors.
  rewrite E. reflexivity.
Qed.

Lemma thirds_cover (n : nat) : n <= 3 * ((n + 2) / 3).
Proof.
  pose proof (Nat.div_mod_eq (n + 2) 3).
  pose proof (Nat.mod_upper_bound (n + 2) 3). lia.
Qed.

Lemma smoothGeometry_unindexed (g : MeshGeometry) :
  indices g = None -> positions g <> [] -> smoothGeometry g = Throw TypeError.
Proof.
  intros E NE. unfold smoothGeometry.
  destruct (positions g) as [|a p]; [contradiction|].
  destruct ((length (a :: p) + 2) / 3) eqn:D.
  - pose proof (thirds_cover (length (a :: p))). cbn [length] in *. lia.
  - cbn [seq]. now rewrite smoothEach_unindexed.
Qed.

(** X3.  On a mesh indexed by whole triples [smoothGeometry] never throws and changes
    neither the index nor the number of position entries, so an index that
    was valid stays valid; on an unindexed mesh with at least one position
    entry it throws a [TypeError]. *)
Theorem smoothGeometry_keeps_the_shape (g : MeshGeometry) :
  (forall idx, indices g = Some idx -> whole idx ->
     exists smoothed,
       smoothGeometry g = Ok {| positions := smoothed; indices := Some idx |} /\
       length smoothed = length (positions g) /\
       (validIndices g ->
        validIndices {| positions := smoothed; indices := Some idx |})) /\
  (indices g = None -> positions g <> [] -> smoothGeometry g = Throw TypeError).
Proof.
  split.
  - intros idx E _. unfold smoothGeometry.
    destruct (smoothEach_indexed g (seq 0 ((length (positions g) + 2) / 3)) E)
      as (l & S & L).
    rewrite S, E. cbn [bind]. eexists. split; [reflexivity|].
    assert (F : length (firstn (length (positions g)) l) = length (positions g)).
    { rewrite length_firstn, L, length_seq.
      pose proof (thirds_cover (length (positions g))). lia. }
    split; [exact F|].
    unfold validIndices. rewrite E. cbn [positions indices]. now rewrite F.
  - intros E NE. unfold smoothGeometry.
    destruct (positions g) as [|a p]; [contradiction|].
    destruct ((length (a :: p) + 2) / 3) eqn:D.
    + pose proof (thirds_cover (length (a :: p))). cbn [length] in *. lia.
    + cbn [seq]. now rewrite smoothEach_unindexed.
Qed.

End SmoothShape.

(** ** The outcome of simplification *)

Module SimplifyOutcome.
Import MeshProcessor Mesh Sign.

Lemma float_of_nat_nonneg (k : nat) : nonneg (Prim2SF (float_of_nat k)) = true.
Proof.
  unfold float_of_nat, float_of_Z.
  destruct (Z.ltb_spec (Z.of_nat k) 0) as [L|_]; [lia|].
  rewrite FloatAxioms.of_uint63_spec.
  pose proof (Uint63.to_Z_bounded (Uint63.of_Z (Z.of_nat k))) as [B _].
  destruct (Uint63.to_Z (Uint63.of_Z (Z.of_nat k))) as [|p|p]; [reflexivity| |lia].
  unfold binary_normalize, binary_round.
  destruct (shl_align p 0 (fexp prec emax (Z.pos (digits2_pos p) + 0))) as [mz ez].
  destruct (FloatFacts.binary_round_aux_cases false (Zpos mz) ez loc_Exact
              ltac:(lia)) as [->|[(m & e & -> & _)| ->]]; reflexivity.
Qed.

(** A number below 0 is below every number that is not negative. *)
Lemma negative_below (t y : float) :
  (t <? 0)%float = true -> nonneg (Prim2SF y) = true -> (t <? y)%float = true.
Proof.
  rewrite !FloatAxioms.ltb_spec.
  change (Prim2SF 0) with (S754_zero false).
  destruct (Prim2SF t) as [[]|[]| |[] m e];
    destruct (Prim2SF y) as [[]|[]| |[] m' e']; cbn; congruence.
Qed.

Lemma collapseLoop_outcome (stack : list edge) (target : float) :
  collapseLoop stack target
  = if (target * 3 <? 0)%float then Throw TypeError else Ok tt.
Proof.
  destruct (target * 3 <? 0)%float eqn:S.
  - induction stack as [|[a b] rest IH]; cbn [collapseLoop].
    + now rewrite (@negative_below _ _ S (float_of_nat_nonneg _)).
    + now rewrite (@negative_below _ _ S (float_of_nat_nonneg _)).
  - induction stack as [|[a b] rest IH]; cbn [collapseLoop].
    + cbn [length]. change (float_of_nat 0) with 0%float. now rewrite S.
    + match goal with
      | |- (if ?c then _ else _) = _ => destruct c; [exact IH | reflexivity]
      end.
Qed.

Lemma simplifyGeometry_closed (g : MeshGeometry) (simplificationRatio : float) :
  simplifyGeometry g simplificationRatio
  = match indices g with
    | None => Ok g
    | Some idx =>
        if (targetCount idx simplificationRatio * 3 <? 0)%float
        then Throw TypeError
        else Ok {| positions := positions g; indices := None |}
    end.
Proof.
  unfold simplifyGeometry, collapseEdges. destruct (indices g) as [idx|]; [|reflexivity].
  rewrite collapseLoop_outcome. unfold targetCount.
  destruct (_ <? 0)%float; reflexivity.
Qed.

(** X4.  The outcome of [simplifyGeometry] in closed form: a geometry
    without index array is returned as it is; on one indexed by whole
    triples the call throws a [TypeError] when three times the target count
    is negative (the loop of [collapseEdges] pops every edge and then
    destructures [undefined]), and otherwise returns the positions without
    an index array that a reader could find (the empty typed array is
    stored as it is).  A mesh the call has returned is returned unchanged
    by every further call.  A ratio of 2 on one triangle is a call that
    throws. *)
Theorem simplifyGeometry_outcome (g : MeshGeometry) (simplificationRatio : float) :
  match indices g with
  | Some idx => whole idx
  | None => True
  end ->
  simplifyGeometry g simplificationRatio
  = match indices g with
    | None => Ok g
    | Some idx =>
        if (targetCount idx simplificationRatio * 3 <? 0)%float
        then Throw TypeError
        else Ok {| positions := positions g; indices := None |}
    end /\
  (forall g', simplifyGeometry g simplificationRatio = Ok g' ->
     forall ratio, simplifyGeometry g' ratio = Ok g') /\
  simplifyGeometry Inputs.triangle 2 = Throw TypeError.
Proof.
  intros _. split; [apply simplifyGeometry_closed|].
  split; [|vm_compute; reflexivity].
  intros g' E ratio. rewrite simplifyGeometry_closed in E.
  rewrite simplifyGeometry_closed.
  destruct (indices g) as [idx|] eqn:I.
  - destruct (_ <? 0)%float; [discriminate|]. injection E as <-. reflexivity.
  - injection E as <-. now rewrite I.
Qed.

Lemma simplifyGeometry_outcome_witness :
  simplifyGeometry Inputs.tetrahedron 0.5
  = Ok {| positions := positions Inputs.tetrahedron; indices := None |}.
Proof.
  exact (proj1 (@simplifyGeometry_outcome Inputs.tetrahedron 0.5%float eq_refl)).
Defined.

End SimplifyOutcome.

(** ** Triangulating a loop *)

Module EarFacts.
Import MeshProcessor.

Section WithFindEar.
Variable findEar : list (Vector3.t float) -> Z.

Lemma at_out_of_range (remaining : list (Vector3.t float)) (k : Z) :
  ~ (0 <= k < Z.of_nat (length remaining))%Z -> at_ remaining k = None.
Proof.
  intros O. unfold at_. destruct (Z.ltb_spec k 0) as [?|L]; [reflexivity|].
  apply nth_error_None. lia.
Qed.
End WithFindEar.

(** X5.  On a loop of at most three vertices [triangulateHole] does not
    enter its clipping loop, whatever [findEar] would answer: a loop of
    exactly three vertices gives one triangle, the x coordinates of the
    three vertices in order, and a shorter loop throws a [TypeError]. *)
Theorem triangulateHole_without_clipping
    (findEar : list (Vector3.t float) -> Z) (vertices : list (Vector3.t float)) :
  (length vertices < 3 -> triangulateHole findEar vertices = Throw TypeError) /\
  (forall v0 v1 v2, vertices = [v0; v1; v2] ->
     triangulateHole findEar vertices
     = Ok [Vector3.x v0; Vector3.x v1; Vector3.x v2]) /\
  (length vertices <= 3 ->
   forall findEar', triangulateHole findEar' vertices = triangulateHole findEar vertices).
Proof.
  split; [apply FillFacts.triangulateHole_short|]. split.
  - intros v0 v1 v2 ->. reflexivity.
  - intros L findEar'.
    destruct vertices as [|v0 [|v1 [|v2 [|v3 rest]]]]; try reflexivity.
    cbn [length] in L. lia.
Qed.

(** X6.  When [findEar] answers with a number that is not a position of a
    loop of more than three vertices, [triangulateHole] throws a
    [TypeError]. *)
Theorem triangulateHole_bad_ear
    (findEar : list (Vector3.t float) -> Z) (vertices : list (Vector3.t float)) :
  3 < length vertices ->
  ~ (0 <= findEar vertices < Z.of_nat (length vertices))%Z ->
  triangulateHole findEar vertices = Throw TypeError.
Proof.
  intros L O.
  assert (C : forall fuel, clipEars findEar (S fuel) [] vertices = Throw TypeError).
  { intros fuel. cbn [clipEars].
    destruct (Nat.ltb_spec 3 (length vertices)) as [_|?]; [|lia].
    rewrite (at_out_of_range vertices O).
    destruct (at_ vertices _) as [p|]; reflexivity. }
  unfold triangulateHole.
  replace (length vertices) with (S (length vertices - 1)) by lia.
  now rewrite C.
Qed.

Lemma triangulateHole_bad_ear_witness :
  triangulateHole (fun _ => (-1)%Z)
    (map (vertexAt (positions Inputs.tetrahedron)) [0; 1; 2; 3])
  = Throw TypeError.
Proof.
  apply triangulateHole_bad_ear; cbn; lia.
Defined.

End EarFacts.

(** ** Simplification, then hole filling and smoothing *)

Module SimplifiedMesh.
Import MeshProcessor Mesh.

(** X7.  Simplification followed by hole filling and smoothing, on a mesh
    indexed by whole triples with at least one position entry, when
    simplification returns (three times the target count is not negative):
    the mesh [simplifyGeometry] returns has no index array a reader could
    find, so [fillHoles] returns at once and leaves it as it is, and
    [smoothGeometry] throws a [TypeError], as [findVertexNeighbors] does for
    every vertex.  A simplified mesh is never smoothed. *)
Theorem simplified_mesh_is_never_smoothed
    (findEar : list (Vector3.t float) -> Z)
    (g : MeshGeometry) (idx : list N) (ratio : float) :
  indices g = Some idx -> whole idx -> positions g <> [] ->
  (targetCount idx ratio * 3 <? 0)%float = false ->
  exists simplified,
    simplifyGeometry g ratio = Ok simplified /\
    positions simplified = positions g /\
    fillHoles findEar simplified = (simplified, Ok tt) /\
    (forall vertexIndex,
       findVertexNeighbors simplified vertexIndex = Throw TypeError) /\
    smoothGeometry simplified = Throw TypeError.
Proof.
  intros E _ NE T.
  exists {| positions := positions g; indices := None |}.
  rewrite SimplifyOutcome.simplifyGeometry_closed, E, T.
  split; [reflexivity|]. split; [reflexivity|]. split; [reflexivity|].
  split; [reflexivity|].
  now apply SmoothShape.smoothGeometry_unindexed.
Qed.

Lemma simplified_mesh_is_never_smoothed_witness :
  exists simplified,
    simplifyGeometry Inputs.tetrahedron 0.5 = Ok simplified /\
    positions simplified = positions Inputs.tetrahedron /\
    fillHoles Inputs.firstEar simplified = (simplified, Ok tt) /\
    (forall vertexIndex,
       findVertexNeighbors simplified vertexIndex = Throw TypeError) /\
    smoothGeometry simplified = Throw TypeError.
Proof.
  apply (@simplified_mesh_is_never_smoothed Inputs.firstEar Inputs.tetrahedron
           [0; 2; 1;  0; 1; 3;  1; 2; 3;  0; 3; 2]%N 0.5%float eq_refl eq_refl).
  - discriminate.
  - reflexivity.
Defined.

End SimplifiedMesh.

(** ** Order of binary64 numbers *)

Module FloatOrder.
Local Open Scope float_scope.

Lemma lex_trans (e1 e2 e3 : Z) (m1 m2 m3 : positive) :
  match (e1 ?= e2)%Z with
  | Eq => Pos.compare_cont Eq m1 m2
  | Lt => Lt
  | Gt => Gt
  end = Lt ->
  match (e2 ?= e3)%Z with
  | Eq => Pos.compare_cont Eq m2 m3
  | Lt => Lt
  | Gt => Gt
  end <> Gt ->
  match (e1 ?= e3)%Z with
  | Eq => Pos.compare_cont Eq m1 m3
  | Lt => Lt
  | Gt => Gt
  end = Lt.
Proof.
  change (Pos.compare_cont Eq m1 m2) with (Pos.compare m1 m2).
  change (Pos.compare_cont Eq m2 m3) with (Pos.compare m2 m3).
  change (Pos.compare_cont Eq m1 m3) with (Pos.compare m1 m3).
  destruct (Z.compare_spec e1 e2), (Z.compare_spec e2 e3), (Z.compare_spec e1 e3);
    try discriminate; try congruence; try lia;
    destruct (Pos.compare_spec m1 m2), (Pos.compare_spec m2 m3),
             (Pos.compare_spec m1 m3);
    try discriminate; try congruence; try lia.
Qed.

(** [c < x] and [x <= y] give [c < y], for a positive finite [c]. *)
Lemma ltb_leb_trans (c x y : float) (m : positive) (e : Z) :
  Prim2SF c = S754_finite false m e ->
  (c <? x) = true -> (x <=? y) = true -> (c <? y) = true.
Proof.
  intros C. rewrite !FloatAxioms.ltb_spec, FloatAxioms.leb_spec, C.
  unfold SFltb, SFleb.
  destruct (Prim2SF x) as [[]|[]| |[] mx ex];
    destruct (Prim2SF y) as [[]|[]| |[] my ey];
    cbn [SFcompare]; try discriminate; try reflexivity.
  intros A B.
  assert (A' : match (e ?= ex)%Z with
               | Eq => Pos.compare_cont Eq m mx
               | Lt => Lt
               | Gt => Gt
               end = Lt)
    by (destruct (e ?= ex)%Z; [destruct (Pos.compare_cont Eq m mx)| |];
        congruence).
  assert (B' : match (ex ?= ey)%Z with
               | Eq => Pos.compare_cont Eq mx my
               | Lt => Lt
               | Gt => Gt
               end <> Gt)
    by (destruct (ex ?= ey)%Z; [destruct (Pos.compare_cont Eq mx my)| |];
        congruence).
  now rewrite (@lex_trans _ _ _ _ _ _ A' B').
Qed.

Lemma ltb_leb (x y : float) : (x <? y) = true -> (x <=? y) = true.
Proof.
  rewrite FloatAxioms.ltb_spec, FloatAxioms.leb_spec. unfold SFltb, SFleb.
  destruct (SFcompare (Prim2SF x) (Prim2SF y)) as [[]|]; congruence.
Qed.

End FloatOrder.

(** ** Levels of detail: nesting and selection *)

Module LODSelection.
Import PointCloudProcessor LOD LODFacts.

(** The thresholds of the ladder are ordered: a distance above one of them
    is above the smaller ones. *)
Lemma above (c c' d : float) (m : positive) (e : Z) :
  Prim2SF c = S754_finite false m e -> (c <? c')%float = true ->
  (c' <? d)%float = true -> (c <? d)%float = true.
Proof.
  intros C L D. exact (@FloatOrder.ltb_leb_trans c c' d m e C L (@FloatOrder.ltb_leb _ _ D)).
Qed.

Lemma activeLOD_ladder (d : float) :
  (activeLOD d < 1 <-> (5 <? d)%float = false) /\
  (activeLOD d < 2 <-> (10 <? d)%float = false) /\
  (activeLOD d < 3 <-> (20 <? d)%float = false) /\
  (activeLOD d < 4 <-> (50 <? d)%float = false) /\
  (activeLOD d < 5).
Proof.
  pose proof (@above 5%float 10%float d _ _ eq_refl eq_refl) as A1.
  pose proof (@above 10%float 20%float d _ _ eq_refl eq_refl) as A2.
  pose proof (@above 20%float 50%float d _ _ eq_refl eq_refl) as A3.
  unfold activeLOD.
  destruct (50 <? d)%float, (20 <? d)%float, (10 <? d)%float, (5 <? d)%float;
    repeat split; intros; try lia; try reflexivity; try discriminate;
    try (specialize (A1 eq_refl)); try (specialize (A2 eq_refl));
    try (specialize (A3 eq_refl)); try discriminate.
Qed.

Lemma showOnly_showOnly (a1 a2 index : nat) (levels : list Points) :
  showOnly a2 index (showOnly a1 index levels) = showOnly a2 index levels.
Proof.
  revert index; induction levels as [|l rest IH]; intros index; [reflexivity|].
  cbn [showOnly geometry]. now rewrite IH.
Qed.

Lemma showOnly_length (a index : nat) (levels : list Points) :
  length (showOnly a index levels) = length levels.
Proof.
  revert index; induction levels as [|l rest IH]; intros index; [reflexivity|].
  cbn [showOnly length]. now rewrite IH.
Qed.

Lemma visible_after (levels : list Points) (d : float) :
  visibleCount (updateLOD levels d)
  = if (activeLOD d <? length levels) then 1 else 0.
Proof.
  unfold updateLOD. rewrite LODClaims.showOnly_count.
  cbn [Nat.leb andb Nat.add]. reflexivity.
Qed.

(** X9.  [updateLOD] depends on the last camera distance only: a second call
    overrides the first, the number of levels stays, and the call is
    idempotent. *)
Theorem updateLOD_last_call_wins (levels : list Points) (d1 d2 : float) :
  updateLOD (updateLOD levels d1) d2 = updateLOD levels d2 /\
  updateLOD (updateLOD levels d1) d1 = updateLOD levels d1 /\
  length (updateLOD levels d1) = length levels.
Proof.
  unfold updateLOD. rewrite !showOnly_showOnly, showOnly_length. auto.
Qed.

(** X10.  The ladder of [updateLOD] is monotone: a camera that is at least
    as far away never selects a finer level (a smaller index), and the
    selected index is at most 4. *)
Theorem farther_camera_coarser_level (d1 d2 : float) :
  (d1 <=? d2)%float = true -> (activeLOD d1 <= activeLOD d2 <= 4).
Proof.
  intros L.
  pose proof (fun c m e (C : Prim2SF c = S754_finite false m e) (H : (c <? d1)%float = true)
              => @FloatOrder.ltb_leb_trans c d1 d2 m e C H L) as T.
  pose proof (T 50%float _ _ eq_refl) as T50. pose proof (T 20%float _ _ eq_refl) as T20.
  pose proof (T 10%float _ _ eq_refl) as T10. pose proof (T 5%float _ _ eq_refl) as T5.
  unfold activeLOD.
  destruct (50 <? d1)%float; [rewrite (T50 eq_refl); lia|].
  destruct (20 <? d1)%float; [rewrite (T20 eq_refl); destruct (50 <? d2)%float; lia|].
  destruct (10 <? d1)%float;
    [rewrite (T10 eq_refl); destruct (50 <? d2)%float, (20 <? d2)%float; lia|].
  destruct (5 <? d1)%float;
    [rewrite (T5 eq_refl); destruct (50 <? d2)%float, (20 <? d2)%float, (10 <? d2)%float; lia|].
  destruct (50 <? d2)%float, (20 <? d2)%float, (10 <? d2)%float, (5 <? d2)%float; lia.
Qed.

Lemma farther_camera_coarser_level_witness :
  (activeLOD 7%float <= activeLOD 30%float <= 4).
Proof. exact (@farther_camera_coarser_level 7%float 30%float eq_refl). Defined.

(** X11.  The quality setting decides whether anything is drawn: after
    [generateLODLevels(getLODLevels(quality))] and [updateLOD], exactly one
    level is visible at every distance for quality high (6 levels); for
    medium or no setting (4 levels) one level is visible unless the distance
    is above 50, for low (2 levels) unless it is above 10, and then no level
    is visible at all. *)
Theorem quality_decides_visibility (g : PointGeometry) (d : float) :
  let shown q :=
    visibleCount (updateLOD (generateLODLevels g (getLODLevels q)) d) in
  shown (Some high) = 1 /\
  shown (Some medium) = (if (50 <? d)%float then 0 else 1) /\
  shown None = (if (50 <? d)%float then 0 else 1) /\
  shown (Some low) = (if (10 <? d)%float then 0 else 1).
Proof.
  cbv beta zeta. rewrite !visible_after. unfold generateLODLevels.
  rewrite !generateFrom_length. cbn [getLODLevels].
  destruct (activeLOD_ladder d) as (_ & L2 & _ & L4 & L5).
  repeat split.
  - destruct (Nat.ltb_spec (activeLOD d) 6); [reflexivity | lia].
  - destruct (Nat.ltb_spec (activeLOD d) 4) as [H|H], (50 <? d)%float;
      try reflexivity; [apply L4 in H; discriminate | ].
    assert (activeLOD d < 4) by now apply L4. lia.
  - destruct (Nat.ltb_spec (activeLOD d) 4) as [H|H], (50 <? d)%float;
      try reflexivity; [apply L4 in H; discriminate | ].
    assert (activeLOD d < 4) by now apply L4. lia.
  - destruct (Nat.ltb_spec (activeLOD d) 2) as [H|H], (10 <? d)%float;
      try reflexivity; [apply L2 in H; discriminate | ].
    assert (activeLOD d < 2) by now apply L2. lia.
Qed.

Lemma stride_ge_2 (i : nat) : (2 <= cumulativeStride i).
Proof.
  unfold cumulativeStride.
  assert (E : (1 <= (i + 1) * (i + 2) / 2)).
  { apply Nat.div_le_lower_bound; lia. }
  change 2 with (2 ^ 1) at 1. apply Nat.pow_le_mono_r; lia.
Qed.

Lemma stride_mono (i j : nat) :
  (i <= j -> cumulativeStride i <= cumulativeStride j).
Proof.
  intros L. unfold cumulativeStride. apply Nat.pow_le_mono_r; [lia|].
  apply Nat.Div0.div_le_mono. nia.
Qed.

Lemma everyNth_in_range (array : list float) (stride : nat) :
  (0 < stride) ->
  Forall (fun v => In v array)
         (everyNth array stride (length array / (3 * stride))).
Proof.
  intros P. unfold everyNth. apply Forall_flat_map. apply Forall_forall.
  intros k I. apply in_seq in I.
  pose proof (Nat.Div0.mul_div_le (length array) (3 * stride)) as M.
  assert (B : (k * (stride * 3) + 2 < length array)) by nia.
  unfold copied, read.
  repeat constructor; apply nth_In; lia.
Qed.

(** X12.  The levels of [generateLODLevels] are nested and never grow:
    a later level has at most as many points as an earlier one, every level
    has at most half the points of the input, its colour array is as long
    as its position array (three entries per point, whatever the input's
    colour array was), and every position entry of a level is an entry of
    the input: no read lands outside the input array. *)
Theorem levels_never_grow (g : PointGeometry) (n i j : nat) :
  (i <= j) -> (j < n) ->
  exists li lj,
    nth_error (generateLODLevels g n) i = Some li /\
    nth_error (generateLODLevels g n) j = Some lj /\
    (pointCount (position (geometry lj)) <= pointCount (position (geometry li))) /\
    (2 * pointCount (position (geometry li)) <= pointCount (position g)) /\
    length (position (geometry li)) = (3 * pointCount (position (geometry li))) /\
    length (color (geometry li)) = length (position (geometry li)) /\
    Forall (fun v => In v (position g)) (position (geometry li)).
Proof.
  intros L J.
  exists {| geometry := strided g (cumulativeStride i); visible := true |},
         {| geometry := strided g (cumulativeStride j); visible := true |}.
  split; [apply level_structure; lia|]. split; [now apply level_structure|].
  cbn [geometry]. rewrite !LODClaims.strided_count.
  pose proof (stride_ge_2 i) as S2. pose proof (stride_mono L) as SM.
  split; [apply Nat.div_le_compat_l; lia|].
  split.
  { pose proof (Nat.Div0.mul_div_le (pointCount (position g)) (cumulativeStride i)).
    nia. }
  assert (E : pointCount (position g) / cumulativeStride i
              = (length (position g) / (3 * cumulativeStride i))).
  { unfold pointCount. now rewrite Nat.Div0.div_div. }
  unfold strided. cbn [position color]. rewrite !length_everyNth, E.
  split; [reflexivity|]. split; [reflexivity|].
  apply everyNth_in_range. lia.
Qed.

Lemma levels_never_grow_witness :
  exists li lj,
    nth_error (generateLODLevels Inputs.sixteenPoints 2) 0 = Some li /\
    nth_error (generateLODLevels Inputs.sixteenPoints 2) 1 = Some lj /\
    (pointCount (position (geometry lj)) <= pointCount (position (geometry li))) /\
    (2 * pointCount (position (geometry li))
     <= pointCount (position Inputs.sixteenPoints)) /\
    length (position (geometry li)) = (3 * pointCount (position (geometry li))) /\
    length (color (geometry li)) = length (position (geometry li)) /\
    Forall (fun v => In v (position Inputs.sixteenPoints)) (position (geometry li)).
Proof.
  apply (@levels_never_grow Inputs.sixteenPoints 2 0 1); lia.
Defined.

End LODSelection.

(** ** Stride copies into a fresh array *)

Module StrideCopy.
Import PointCloudProcessor LOD LODFacts.

Lemma length_stored (n : nat) (written : list float) : length (stored n written) = n.
Proof. unfold stored. rewrite length_firstn, length_app, repeat_length. lia. Qed.

Lemma read_stored (n : nat) (written : list float) (j : nat) :
  j < n -> j < length written -> read (stored n written) j = read written j.
Proof.
  intros N W. unfold read, stored. rewrite nth_firstn.
  destruct (Nat.ltb_spec j n); [|lia]. now apply app_nth1.
Qed.

Lemma in_iterations (stop stride k : nat) :
  0 < stride -> k * (stride * 3) < stop -> k < iterations stop stride.
Proof.
  intros P L. unfold iterations.
  apply (Nat.div_le_lower_bound _ (3 * stride) (S k)); lia.
Qed.

(** An index below the truncated quotient reads inside the source. *)
Lemma quotient_in_range (len s k c : nat) :
  c < 3 -> 3 * k + c < len / s -> 3 * (k * s) + c < len /\ 0 < s.
Proof.
  intros C L. destruct s as [|s]; [cbn in L; lia|].
  pose proof (Nat.Div0.mul_div_le len (S s)). split; [nia | lia].
Qed.

Lemma strideCopy_reads (array : list float) (stop n s k c : nat) :
  c < 3 -> 3 * k + c < n -> k * (s * 3) < stop -> 0 < s ->
  read (stored n (everyNth array s (iterations stop s))) (3 * k + c)
  = read array (3 * (k * s) + c).
Proof.
  intros C N K P. pose proof (@in_iterations stop s k P K) as I.
  rewrite read_stored; [|exact N | rewrite length_everyNth; lia].
  now apply LODClaims.level_reads.
Qed.

(** A copy with stride 1 of an array that is not longer than the loop
    bound is the array. *)
Lemma stride_1_copy (array : list float) (stop : nat) :
  length array <= stop ->
  stored (length array / 1) (everyNth array 1 (iterations stop 1)) = array.
Proof.
  intros L. rewrite Nat.div_1_r.
  apply (nth_ext _ _ nan nan); [apply length_stored|].
  rewrite length_stored. intros j J.
  pose proof (Nat.div_mod_eq j 3) as D.
  pose proof (Nat.mod_upper_bound j 3 ltac:(lia)) as U.
  change (read (stored (length array) (everyNth array 1 (iterations stop 1))) j
          = read array j).
  rewrite D at 1.
  rewrite strideCopy_reads; [f_equal; lia | exact U | lia | lia | lia].
Qed.

End StrideCopy.

(** ** The viewer's levels of detail *)

Module ViewerFacts.
Import PointCloudProcessor LOD LODFacts StrideCopy.

Lemma viewer_level_at (g : PointGeometry) (n i : nat) :
  i < n -> nth_error (Viewer.generateLODLevels g n) i = Some (Viewer.level g i).
Proof.
  intros L. unfold Viewer.generateLODLevels. apply map_nth_error.
  rewrite (nth_error_nth' _ 0) by (rewrite length_seq; exact L).
  now rewrite seq_nth.
Qed.

(** X13.  The viewer's [generateLODLevels] subsamples the original cloud at
    every level: level [i] has [floor(length / 2^i)] position entries, entry
    [3k + c] being entry [3 * 2^i * k + c] of the input (point [k * 2^i]),
    read inside the input array, and likewise for the colours; level 0 is
    the input cloud itself when the colour array is not longer than the
    position array. *)
Theorem viewer_levels_subsample_the_original (g : PointGeometry) (n i : nat) :
  i < n ->
  exists level,
    nth_error (Viewer.generateLODLevels g n) i = Some level /\
    visible level = true /\
    length (position (geometry level)) = length (position g) / 2 ^ i /\
    length (color (geometry level)) = length (color g) / 2 ^ i /\
    (forall k c, c < 3 -> 3 * k + c < length (position g) / 2 ^ i ->
       3 * (k * 2 ^ i) + c < length (position g) /\
       read (position (geometry level)) (3 * k + c)
       = read (position g) (3 * (k * 2 ^ i) + c)) /\
    (forall k c, c < 3 -> 3 * k + c < length (color g) / 2 ^ i ->
       length (color g) <= length (position g) ->
       read (color (geometry level)) (3 * k + c)
       = read (color g) (3 * (k * 2 ^ i) + c)) /\
    (i = 0 -> length (color g) <= length (position g) -> geometry level = g).
Proof.
  intros L. exists (Viewer.level g i).
  split; [now apply viewer_level_at|]. split; [reflexivity|].
  unfold Viewer.level. cbn [geometry position color].
  split; [apply length_stored|]. split; [apply length_stored|].
  split; [|split].
  - intros k c C K. destruct (@quotient_in_range _ _ _ _ C K) as [R P].
    split; [exact R|]. apply strideCopy_reads; auto. lia.
  - intros k c C K S. destruct (@quotient_in_range _ _ _ _ C K) as [R P].
    apply strideCopy_reads; auto. lia.
  - intros -> S. cbn [Nat.pow].
    pose proof (@stride_1_copy (position g) _ (le_n _)) as P.
    pose proof (@stride_1_copy (color g) _ S) as C.
    unfold everyNth in P, C. rewrite P, C. now destruct g.
Qed.

Lemma viewer_levels_subsample_the_original_witness :
  exists level,
    nth_error (Viewer.generateLODLevels Inputs.sixteenPoints 5) 2 = Some level /\
    visible level = true /\
    length (position (geometry level)) = length (position Inputs.sixteenPoints) / 2 ^ 2 /\
    length (color (geometry level)) = length (color Inputs.sixteenPoints) / 2 ^ 2 /\
    (forall k c, c < 3 -> 3 * k + c < length (position Inputs.sixteenPoints) / 2 ^ 2 ->
       3 * (k * 2 ^ 2) + c < length (position Inputs.sixteenPoints) /\
       read (position (geometry level)) (3 * k + c)
       = read (position Inputs.sixteenPoints) (3 * (k * 2 ^ 2) + c)) /\
    (forall k c, c < 3 -> 3 * k + c < length (color Inputs.sixteenPoints) / 2 ^ 2 ->
       length (color Inputs.sixteenPoints) <= length (position Inputs.sixteenPoints) ->
       read (color (geometry level)) (3 * k + c)
       = read (color Inputs.sixteenPoints) (3 * (k * 2 ^ 2) + c)) /\
    (2 = 0 -> length (color Inputs.sixteenPoints) <= length (position Inputs.sixteenPoints) ->
     geometry level = Inputs.sixteenPoints).
Proof.
  apply (@viewer_levels_subsample_the_original Inputs.sixteenPoints 5 2). lia.
Defined.

(** X14.  In the viewer the number of levels decides whether anything is
    drawn: after [generateLODLevels(n)] and [updateLOD] exactly one level is
    visible when the index the distance selects (4 above 50, 3 above 20, 2
    above 10, 1 above 5, else 0) is below [n], and none otherwise.  With 5
    levels one level is visible at every distance; with 3 levels no level
    is visible once the distance is above 20, and with 1 level once it is
    above 5. *)
Theorem viewer_level_count_decides_visibility
    (g : PointGeometry) (n : nat) (d : float) :
  let shown n := visibleCount (Viewer.updateLOD (Viewer.generateLODLevels g n) d) in
  let active :=
    if (50 <? d)%float then 4
    else if (20 <? d)%float then 3
    else if (10 <? d)%float then 2
    else if (5 <? d)%float then 1
    else 0 in
  shown n = (if active <? n then 1 else 0) /\
  shown 5 = 1 /\
  shown 3 = (if (20 <? d)%float then 0 else 1) /\
  shown 1 = (if (5 <? d)%float then 0 else 1).
Proof.
  cbv beta zeta.
  assert (S : forall m,
             visibleCount (Viewer.updateLOD (Viewer.generateLODLevels g m) d)
             = if activeLOD d <? m then 1 else 0).
  { intros m. unfold Viewer.updateLOD, Viewer.generateLODLevels.
    rewrite LODClaims.showOnly_count, length_map, length_seq.
    cbn [Nat.leb andb Nat.add]. reflexivity. }
  rewrite !S.
  destruct (LODSelection.activeLOD_ladder d) as (L1 & _ & L3 & _ & L5).
  split; [reflexivity|]. split; [|split].
  - destruct (Nat.ltb_spec (activeLOD d) 5); [reflexivity | lia].
  - destruct (Nat.ltb_spec (activeLOD d) 3) as [H|H], (20 <? d)%float;
      try reflexivity; [apply L3 in H; discriminate | ].
    assert (activeLOD d < 3) by now apply L3. lia.
  - destruct (Nat.ltb_spec (activeLOD d) 1) as [H|H], (5 <? d)%float;
      try reflexivity; [apply L1 in H; discriminate | ].
    assert (activeLOD d < 1) by now apply L1. lia.
Qed.

End ViewerFacts.

(** ** Stride simplification of a point cloud *)

Module OptimizerFacts.
Import PointCloudProcessor LOD ImageOptimizer StrideCopy.

(** X15.  [optimizeGeometry] returns the cloud unchanged unless the
    simplification preference is above 1 (an absent preference, 0, NaN,
    and a ratio such as 0.5 leave it unchanged).  For a finite preference
    above 1 with [stride = floor(preference)], the new position array has
    [floor(length / stride)] entries, entry [3k + c] being entry
    [3 * stride * k + c] of the input, read inside the input array; the
    colours follow the positions when their array is not longer. *)
Theorem optimizeGeometry_strides (g : PointGeometry) (preference : option float) :
  let simplification := geometrySimplification preference in
  let after := optimizeGeometry g preference in
  ((1 <? simplification)%float = false -> after = g) /\
  ((1 <? simplification)%float = true ->
   PrimFloat.is_infinity (Math_floor simplification) = false ->
   let stride := Z.to_nat (truncate (Math_floor simplification)) in
   length (position after) = length (position g) / stride /\
   length (color after) = length (color g) / stride /\
   (forall k c, c < 3 -> 3 * k + c < length (position g) / stride ->
      3 * (k * stride) + c < length (position g) /\
      read (position after) (3 * k + c)
      = read (position g) (3 * (k * stride) + c)) /\
   (forall k c, c < 3 -> 3 * k + c < length (color g) / stride ->
      length (color g) <= length (position g) ->
      read (color after) (3 * k + c)
      = read (color g) (3 * (k * stride) + c))) /\
  optimizeGeometry g None = g /\
  optimizeGeometry g (Some 0.5%float) = g /\
  optimizeGeometry g (Some 1%float) = g /\
  optimizeGeometry g (Some nan) = g.
Proof.
  cbv zeta. split; [|split; [|repeat split]].
  - intros S. unfold optimizeGeometry. now rewrite S.
  - intros S F. unfold optimizeGeometry. rewrite S, F.
    set (stride := Z.to_nat (truncate (Math_floor (geometrySimplification preference)))).
    unfold simplified. cbn [position color].
    split; [apply length_stored|]. split; [apply length_stored|]. split.
    + intros k c C K. destruct (@quotient_in_range _ _ _ _ C K) as [R P].
      split; [exact R|]. apply strideCopy_reads; auto. lia.
    + intros k c C K L. destruct (@quotient_in_range _ _ _ _ C K) as [R P].
      apply strideCopy_reads; auto. lia.
Qed.

(** A cloud of 16 points at simplification 2.5: stride 2, 24 of the 48
    entries, the points 0, 2, 4, ... *)
Example optimizeGeometry_at_2_5 :
  position (optimizeGeometry Inputs.sixteenPoints (Some 2.5%float))
  = map float_of_nat [0; 1; 2;  6; 7; 8;  12; 13; 14;  18; 19; 20;
                      24; 25; 26;  30; 31; 32;  36; 37; 38;  42; 43; 44].
Proof. vm_compute. reflexivity. Qed.

End OptimizerFacts.

(** ** Point clouds of arbitrary frames *)

Module CloudFacts.
Import ImageProcessor Sampling LOD ListFacts Frames.

Lemma ceil_div (n d : nat) :
  0 < d -> (n + (d - 1)) / d = n / d + (if n mod d =? 0 then 0 else 1).
Proof.
  intros P. pose proof (Nat.div_mod_eq n d) as E.
  pose proof (Nat.mod_upper_bound n d ltac:(lia)) as U.
  destruct (Nat.eqb_spec (n mod d) 0) as [Z|NZ].
  - symmetry. apply (Nat.div_unique _ _ _ (d - 1)); lia.
  - symmetry. apply (Nat.div_unique _ _ _ (n mod d - 1)); lia.
Qed.

Lemma steps_S (stop step : nat) :
  steps (S stop) step
  = steps stop step ++ (if stop mod step =? 0 then [stop] else []).
Proof.
  unfold steps. rewrite seq_S, filter_app. cbn [Nat.add filter].
  now destruct (stop mod step =? 0).
Qed.

(** A loop [for (v = 0; v < stop; v += step)] runs [ceil(stop / step)] times. *)
Lemma length_steps (stop step : nat) :
  0 < step -> length (steps stop step) = (stop + (step - 1)) / step.
Proof.
  intros P. induction stop as [|stop IH].
  - cbn [steps seq filter length Nat.add]. symmetry. apply Nat.div_small. lia.
  - rewrite steps_S, length_app, IH, ceil_div by exact P.
    replace (S stop + (step - 1)) with (stop + 1 * step) by lia.
    rewrite Nat.div_add by lia.
    destruct (stop mod step =? 0); cbn [length]; lia.
Qed.

Lemma length_sampled (img : ImageData) (density : nat) :
  0 < density ->
  length (sampled img density)
  = (height img + (density - 1)) / density * ((width img + (density - 1)) / density).
Proof.
  intros P. unfold sampled.
  rewrite <- !length_steps by exact P.
  induction (steps (height img) density) as [|y ys IH]; [reflexivity|].
  cbn [flat_map length]. rewrite length_app, length_map, IH. lia.
Qed.

Lemma pointCloudDensity_pos (preference : option nat) :
  0 < pointCloudDensity preference.
Proof. destruct preference as [[|d]|]; cbn; lia. Qed.

Lemma positions_filtered (img : ImageData) (density : nat) :
  flat_map (fun p => pointOf img (fst p) (snd p)) (sampled img density)
  = flat_map (coordinates img)
      (filter (fun p => retained (data img) ((snd p * width img + fst p) * 4))
              (sampled img density)).
Proof. now rewrite <- flat_map_filter. Qed.

Lemma colours_filtered (img : ImageData) (density : nat) :
  flat_map (fun p => colorOf img (fst p) (snd p)) (sampled img density)
  = flat_map (fun p => [channel (data img) ((snd p * width img + fst p) * 4);
                        channel (data img) ((snd p * width img + fst p) * 4 + 1);
                        channel (data img) ((snd p * width img + fst p) * 4 + 2)])
      (filter (fun p => retained (data img) ((snd p * width img + fst p) * 4))
              (sampled img density)).
Proof. now rewrite <- flat_map_filter. Qed.

Lemma point_cloud_is_aligned (img : ImageData) (preference : option nat) :
  length (position (generatePointCloud img preference))
  = length (color (generatePointCloud img preference)).
Proof.
  unfold generatePointCloud. cbn [position color].
  unfold Float32Array_from. rewrite !length_map.
  rewrite positions_filtered, colours_filtered.
  now rewrite !length_flat_map3 by reflexivity.
Qed.

(** X16.  For every frame, also one whose buffer does not match its
    dimensions, the position and colour arrays of [generatePointCloud] have
    the same length, three entries per point, and the cloud has at most
    [ceil(width / density) * ceil(height / density)] points. *)
Theorem point_cloud_is_aligned_and_bounded
    (img : ImageData) (preference : option nat) :
  let density := pointCloudDensity preference in
  let cloud := generatePointCloud img preference in
  length (color cloud) = length (position cloud) /\
  length (position cloud) = 3 * pointCount (position cloud) /\
  pointCount (position cloud)
  <= (width img + (density - 1)) / density * ((height img + (density - 1)) / density).
Proof.
  cbv zeta. unfold generatePointCloud. cbn [position color].
  set (density := pointCloudDensity preference).
  unfold pointCount, Float32Array_from. rewrite !length_map.
  rewrite positions_filtered, colours_filtered.
  rewrite !length_flat_map3 by reflexivity.
  rewrite (Nat.mul_comm 3), Nat.div_mul by lia.
  split; [reflexivity|]. split; [lia|].
  etransitivity; [apply filter_length_le|].
  rewrite length_sampled by apply pointCloudDensity_pos. fold density. lia.
Qed.

Lemma retained_kept (img : ImageData) (p : nat * nat) :
  Forall byte (data img) ->
  retained (data img) ((snd p * width img + fst p) * 4) = kept img p.
Proof.
  intros B. unfold retained, kept, alphaByte, channel.
  destruct (nth_error (data img) ((snd p * width img + fst p) * 4 + 3)) as [b|] eqn:E;
    [|reflexivity].
  apply nth_error_In in E. rewrite Forall_forall in B.
  apply (@SamplingFacts.byte_alpha b (B b E)).
Qed.

Lemma kept_empty (img : ImageData) (l : list (nat * nat)) :
  data img = [] -> filter (kept img) l = [].
Proof.
  intros E. induction l as [|p l IH]; [reflexivity|].
  cbn [filter]. unfold kept at 1, alphaByte. rewrite E.
  destruct ((snd p * width img + fst p) * 4 + 3); exact IH.
Qed.

(** X17.  For every frame whose buffer holds bytes, whatever its length,
    the sampling loop makes a point of a visited pixel exactly when the
    pixel's alpha byte exists and is at least 128; a pixel that lies outside
    the buffer is skipped without an exception, and an empty buffer gives
    an empty cloud. *)
Theorem pixels_outside_the_buffer_are_skipped
    (img : ImageData) (preference : option nat) :
  Forall byte (data img) ->
  let density := pointCloudDensity preference in
  let cloud := generatePointCloud img preference in
  position cloud
  = Float32Array_from
      (flat_map (coordinates img) (filter (kept img) (sampled img density))) /\
  pointCount (position cloud) = length (filter (kept img) (sampled img density)) /\
  (data img = [] -> position cloud = [] /\ color cloud = []).
Proof.
  intros B. cbv zeta. set (density := pointCloudDensity preference).
  assert (K : filter (fun p => retained (data img) ((snd p * width img + fst p) * 4))
                     (sampled img density)
              = filter (kept img) (sampled img density)).
  { apply filter_ext_in'. intros p _. now apply retained_kept. }
  assert (P : position (generatePointCloud img preference)
              = Float32Array_from
                  (flat_map (coordinates img) (filter (kept img) (sampled img density)))).
  { unfold generatePointCloud. cbn [position]. fold density.
    now rewrite positions_filtered, K. }
  split; [exact P|]. split.
  - rewrite P. unfold pointCount, Float32Array_from.
    rewrite length_map, length_flat_map3 by reflexivity.
    now rewrite Nat.mul_comm, Nat.div_mul.
  - intros E.
    pose proof (@kept_empty img (sampled img density) E) as N.
    split; [rewrite P, N; reflexivity|].
    unfold generatePointCloud. cbn [color]. fold density.
    now rewrite colours_filtered, K, N.
Qed.

Lemma pixels_outside_the_buffer_are_skipped_witness :
  pointCount (position (generatePointCloud
                          {| width := 2; height := 2; data := [9; 9; 9; 200; 9]%Z |}
                          None))
  = length (filter (kept {| width := 2; height := 2; data := [9; 9; 9; 200; 9]%Z |})
                   (sampled {| width := 2; height := 2; data := [9; 9; 9; 200; 9]%Z |}
                            (pointCloudDensity None))).
Proof.
  refine (proj1 (proj2 (@pixels_outside_the_buffer_are_skipped
                          {| width := 2; height := 2; data := [9; 9; 9; 200; 9]%Z |}
                          None _))).
  repeat constructor; unfold byte; lia.
Defined.

Lemma unitBytes_all : forallb unitBytes (seq 0 256) = true.
Proof. vm_compute. reflexivity. Qed.

Lemma channel_unit (data : list Z) (j : nat) :
  Forall byte data -> j < length data ->
  unit (Math_fround (channel data j)) = true.
Proof.
  intros B J. unfold channel.
  destruct (nth_error data j) as [b|] eqn:E; [|apply nth_error_None in E; lia].
  apply nth_error_In in E. rewrite Forall_forall in B.
  destruct (B b E) as [L U].
  pose proof unitBytes_all as A. rewrite forallb_forall in A.
  specialize (A (Z.to_nat b) ltac:(apply in_seq; lia)).
  unfold unitBytes, float_of_nat in A. now rewrite Z2Nat.id in A.
Qed.

Lemma retained_in_range (data : list Z) (i : nat) :
  retained data i = true -> i + 3 < length data.
Proof.
  unfold retained, channel. intros R.
  destruct (nth_error data (i + 3)) eqn:E; [|discriminate].
  apply nth_error_Some. congruence.
Qed.

(** X18.  Every colour entry of a point cloud made from a frame of bytes
    lies between 0 and 1: a pixel that is kept has all four of its bytes
    inside the buffer, so no entry is NaN. *)
Theorem colours_are_in_the_unit_interval
    (img : ImageData) (preference : option nat) :
  Forall byte (data img) ->
  Forall (fun c => unit c = true) (color (generatePointCloud img preference)).
Proof.
  intros B. unfold generatePointCloud. cbn [color].
  unfold Float32Array_from. apply Forall_map. apply Forall_flat_map.
  apply Forall_forall. intros p _. unfold colorOf.
  destruct (retained (data img) ((snd p * width img + fst p) * 4)) eqn:R;
    [|constructor].
  apply retained_in_range in R.
  repeat constructor; apply channel_unit; auto; lia.
Qed.

Lemma colours_are_in_the_unit_interval_witness :
  Forall (fun c => unit c = true) (color (generatePointCloud Inputs.frame2x2 None)).
Proof.
  apply colours_are_in_the_unit_interval.
  repeat constructor; unfold byte; lia.
Defined.

End CloudFacts.

(** ** Motion vectors and the reconstructed scene *)

Module SceneFacts.
Import ImageProcessor VideoProcessor Sampling LOD ListFacts Frames Motion.

Lemma flow_z (frame1 frame2 : ImageData) :
  Vector3.z (calculateOpticalFlow (T := float) frame1 frame2) = 0%float.
Proof.
  unfold calculateOpticalFlow. destruct (accumulate frame1 frame2) as [dx dy].
  exact (FloatFacts.zero_times_reciprocal_length (dx * dx + dy * dy + 0 * 0)%float).
Qed.

Lemma flow_static (frame1 frame2 : ImageData) :
  unchanged frame1 frame2 = true ->
  calculateOpticalFlow (T := float) frame1 frame2 = Vector3.zero.
Proof.
  intros U. unfold calculateOpticalFlow.
  rewrite (MotionFacts.accumulate_unchanged (T := float) frame1 frame2 U).
  vm_compute. reflexivity.
Qed.

(** X19.  [analyzeMotion] returns one vector for every pair of consecutive
    frames, in order: [n - 1] vectors for [n >= 1] frames and none for an
    empty list, vector [i] being the flow from frame [i] to frame [i + 1];
    the z component of every vector is exactly 0. *)
Theorem analyzeMotion_pairs_consecutive_frames (frames : list ImageData) :
  length (analyzeMotion frames) = length frames - 1 /\
  Forall (fun v => Vector3.z v = 0%float) (analyzeMotion frames) /\
  forall i prev curr,
    nth_error frames i = Some prev -> nth_error frames (S i) = Some curr ->
    nth_error (analyzeMotion frames) i = Some (calculateOpticalFlow prev curr).
Proof.
  induction frames as [|f rest (L & Z & P)].
  - repeat split; [constructor | intros [|i]; discriminate].
  - destruct rest as [|c rest].
    + repeat split; [constructor | intros [|i] ? ? _; [discriminate | destruct i; discriminate]].
    + change (analyzeMotion (f :: c :: rest))
        with (calculateOpticalFlow f c :: analyzeMotion (c :: rest)).
      split; [cbn [length] in *; lia|]. split.
      * constructor; [apply flow_z | exact Z].
      * intros [|i] prev curr A B.
        -- cbn in A, B. injection A as <-. injection B as <-. reflexivity.
        -- cbn [nth_error] in A, B |- *. now apply P.
Qed.

Lemma reconstructFrom_colours (frames : list ImageData)
    (motionVectors : list (Vector3.t float)) (density index : nat) :
  snd (reconstructFrom index frames motionVectors density)
  = flat_map (fun frame =>
                flat_map (fun p => colorOf frame (fst p) (snd p))
                         (sampled frame density)) frames.
Proof.
  revert index; induction frames as [|frame rest IH]; intros index; [reflexivity|].
  cbn [reconstructFrom flat_map]. specialize (IH (S index)).
  destruct (reconstructFrom (S index) rest motionVectors density) as [points colors].
  cbn [snd] in *. now rewrite IH.
Qed.

Lemma pointOf_length (frame : ImageData) (depth : float) (p : nat * nat) :
  length (VideoProcessor.pointOf frame depth (fst p) (snd p))
  = length (ImageProcessor.pointOf frame (fst p) (snd p)).
Proof.
  unfold VideoProcessor.pointOf, ImageProcessor.pointOf.
  now destruct (retained _ _).
Qed.

Lemma length_flat_map_ext {A : Type} (f g : A -> list float) (l : list A) :
  (forall a, length (f a) = length (g a)) ->
  length (flat_map f l) = length (flat_map g l).
Proof.
  intros E. induction l as [|a l IH]; [reflexivity|].
  cbn [flat_map]. now rewrite !length_app, E, IH.
Qed.

Lemma reconstructFrom_positions (frames : list ImageData)
    (motionVectors : list (Vector3.t float)) (density index : nat) :
  length (fst (reconstructFrom index frames motionVectors density))
  = list_sum (map (fun frame =>
                     length (flat_map (fun p => ImageProcessor.pointOf frame (fst p) (snd p))
                                      (sampled frame density))) frames).
Proof.
  revert index; induction frames as [|frame rest IH]; intros index; [reflexivity|].
  cbn [reconstructFrom map]. specialize (IH (S index)).
  destruct (reconstructFrom (S index) rest motionVectors density) as [points colors].
  cbn [fst] in *. unfold list_sum in *. cbn [fold_right].
  rewrite length_app, IH. f_equal.
  apply length_flat_map_ext. intros p. apply pointOf_length.
Qed.

(** X20.  Whatever the motion vectors are (also when there are fewer or
    more of them than frames), the colour array of [reconstruct3DScene] is
    the concatenation of the colour arrays that [generatePointCloud] gives
    for the single frames, and the position array has as many entries as
    the position arrays of these clouds together; the motion only enters
    the z coordinates.  No frames give an empty scene. *)
Theorem scene_is_the_frames_clouds
    (frames : list ImageData) (motionVectors : list (Vector3.t float))
    (preference : option nat) :
  let scene := reconstruct3DScene frames motionVectors preference in
  color scene
  = flat_map (fun frame => color (generatePointCloud frame preference)) frames /\
  length (position scene)
  = list_sum (map (fun frame => length (position (generatePointCloud frame preference)))
                  frames) /\
  length (position scene) = length (color scene) /\
  reconstruct3DScene [] motionVectors preference = {| position := []; color := [] |}.
Proof.
  cbv zeta. unfold reconstruct3DScene.
  pose proof (reconstructFrom_colours frames motionVectors
                (pointCloudDensity preference) 0) as C.
  pose proof (reconstructFrom_positions frames motionVectors
                (pointCloudDensity preference) 0) as P.
  destruct (reconstructFrom 0 frames motionVectors (pointCloudDensity preference))
    as [points colors].
  cbn [fst snd position color] in *. unfold Float32Array_from.
  assert (E1 : map Math_fround colors
               = flat_map (fun frame => color (generatePointCloud frame preference))
                          frames).
  { rewrite C. clear. induction frames as [|frame rest IH]; [reflexivity|].
    cbn [flat_map]. rewrite map_app, IH. reflexivity. }
  assert (E2 : length (map Math_fround points)
               = list_sum (map (fun frame =>
                                  length (position (generatePointCloud frame preference)))
                               frames)).
  { rewrite length_map, P. f_equal. apply map_ext. intros frame.
    unfold generatePointCloud, Float32Array_from. cbn [position].
    now rewrite length_map. }
  split; [exact E1|]. split; [exact E2|]. split; [|reflexivity].
  rewrite E2, E1. clear. induction frames as [|frame rest IH]; [reflexivity|].
  cbn [map flat_map]. unfold list_sum in *. cbn [fold_right].
  rewrite length_app, IH. f_equal.
  apply CloudFacts.point_cloud_is_aligned.
Qed.

End SceneFacts.

(** ** A video without motion *)

Module StaticScene.
Import ImageProcessor VideoProcessor Sampling Frames Motion.

(** The channel sums [r + g + b] of all triples of bytes, by evaluation. *)
Lemma flatBytes :
  forallb (fun r =>
    forallb (fun g =>
      forallb (fun b => flat (r + g + b)%float) channels) channels) channels
  = true.
Proof. vm_compute. reflexivity. Qed.

Lemma positive_finite (x : float) :
  (0 <? x)%float = true -> (x <? infinity)%float = true ->
  exists m e, Prim2SF x = S754_finite false m e.
Proof.
  rewrite !FloatAxioms.ltb_spec.
  change (Prim2SF 0) with (S754_zero false).
  change (Prim2SF infinity) with (S754_infinity false).
  destruct (Prim2SF x) as [[]|[]| |[] m e]; cbn; try discriminate.
  intros _ _. now exists m, e.
Qed.

Lemma positive_zero (s : float) :
  (s =? 0)%float = true -> (0 <? 1 / s)%float = true ->
  Prim2SF (s / 3) = S754_zero false.
Proof.
  rewrite FloatAxioms.eqb_spec, FloatAxioms.ltb_spec, !FloatAxioms.div_spec.
  change (Prim2SF 0) with (S754_zero false).
  change (Prim2SF 1) with (S754_finite false 4503599627370496 (-52)).
  change (Prim2SF 3) with (S754_finite false 6755399441055744 (-51)).
  destruct (Prim2SF s) as [[]|[]| |[] m e]; cbn; try discriminate; reflexivity.
Qed.

Lemma flat_zero (sum : float) : flat sum = true -> (0 * (sum / 3) = 0)%float.
Proof.
  unfold flat. intros H. apply FloatFacts.zero_times.
  apply orb_prop in H. destruct H as [H|H]; apply andb_prop in H as [A B].
  - right. now apply positive_finite.
  - left. now apply positive_zero.
Qed.

Lemma in_channels (b : Z) :
  byte b ->
  In (float_of_Z b / 255)%float channels.
Proof.
  intros [L U]. unfold channels. apply in_map_iff. exists (Z.to_nat b). split.
  - unfold float_of_nat. now rewrite Z2Nat.id.
  - apply in_seq. lia.
Qed.

Lemma bytes_flat (r g b : Z) :
  byte r -> byte g -> byte b ->
  flat (float_of_Z r / 255 + float_of_Z g / 255 + float_of_Z b / 255)%float = true.
Proof.
  intros R G B. pose proof flatBytes as F. rewrite forallb_forall in F.
  specialize (F _ (in_channels R)). rewrite forallb_forall in F.
  specialize (F _ (in_channels G)). rewrite forallb_forall in F.
  exact (F _ (in_channels B)).
Qed.

Lemma channel_byte (data : list Z) (j : nat) :
  Forall byte data -> j < length data ->
  exists b, byte b /\ channel data j = (float_of_Z b / 255)%float.
Proof.
  intros B J. unfold channel.
  destruct (nth_error data j) as [b|] eqn:E; [|apply nth_error_None in E; lia].
  exists b. split; [|reflexivity].
  apply nth_error_In in E. rewrite Forall_forall in B. now apply B.
Qed.

(** At depth 0 a kept pixel gives a point whose stored z coordinate is 0. *)
Lemma pointOf_flat (frame : ImageData) (p : nat * nat) :
  Forall byte (data frame) ->
  VideoProcessor.pointOf frame 0 (fst p) (snd p) = [] \/
  exists a b c, VideoProcessor.pointOf frame 0 (fst p) (snd p) = [a; b; c]
                /\ Math_fround c = 0%float.
Proof.
  intros B. unfold VideoProcessor.pointOf.
  destruct (retained (data frame) ((snd p * width frame + fst p) * 4)) eqn:R;
    [right | now left].
  apply CloudFacts.retained_in_range in R.
  destruct (@channel_byte (data frame) ((snd p * width frame + fst p) * 4) B
              ltac:(lia)) as (r & Br & ->).
  destruct (@channel_byte (data frame) ((snd p * width frame + fst p) * 4 + 1) B
              ltac:(lia)) as (g & Bg & ->).
  destruct (@channel_byte (data frame) ((snd p * width frame + fst p) * 4 + 2) B
              ltac:(lia)) as (b & Bb & ->).
  do 3 eexists. split; [reflexivity|].
  rewrite (@flat_zero _ (bytes_flat Br Bg Bb)). reflexivity.
Qed.

Lemma depths_app_point (P : float -> Prop) (t rest : list float) :
  (t = [] \/ exists a b c, t = [a; b; c] /\ P c) ->
  Forall P (depths rest) -> Forall P (depths (t ++ rest)).
Proof.
  intros [->|(a & b & c & -> & Pc)] R; [exact R|].
  cbn [app depths]. now constructor.
Qed.

Lemma depths_flat_map {A : Type} (P : float -> Prop) (g : A -> list float)
    (l : list A) (rest : list float) :
  (forall p, g p = [] \/ exists a b c, g p = [a; b; c] /\ P c) ->
  Forall P (depths rest) -> Forall P (depths (flat_map g l ++ rest)).
Proof.
  intros G R. induction l as [|p l IH]; [exact R|].
  cbn [flat_map]. rewrite <- app_assoc. apply depths_app_point; auto.
Qed.

Lemma depths_map (f : float -> float) (l : list float) :
  depths (map f l) = map f (depths l).
Proof.
  assert (S : forall n l, length l <= n -> depths (map f l) = map f (depths l)).
  { clear l. induction n as [|n IH]; intros [|a [|b [|c l]]] L;
      cbn [length] in L; try reflexivity; try lia.
    cbn [map depths]. f_equal. apply IH. lia. }
  exact (S (length l) l (le_n _)).
Qed.

Lemma static_motion (frames : list ImageData) :
  static frames = true ->
  Forall (fun v => v = Vector3.zero) (analyzeMotion frames).
Proof.
  induction frames as [|f rest IH]; [constructor|].
  destruct rest as [|c rest]; [constructor|].
  change (static (f :: c :: rest))
    with (unchanged f c && static (c :: rest)).
  change (analyzeMotion (f :: c :: rest))
    with (calculateOpticalFlow f c :: analyzeMotion (c :: rest)).
  intros S. apply andb_prop in S as [U S].
  constructor; [now apply SceneFacts.flow_static | now apply IH].
Qed.

Lemma nth_zero (motionVectors : list (Vector3.t float)) (i : nat) :
  Forall (fun v => v = Vector3.zero) motionVectors ->
  nth i motionVectors Vector3.zero = Vector3.zero.
Proof.
  intros F. destruct (nth_in_or_default i motionVectors Vector3.zero) as [I|E];
    [|exact E].
  rewrite Forall_forall in F. now apply F.
Qed.

Lemma reconstructFrom_flat (frames : list ImageData)
    (motionVectors : list (Vector3.t float)) (density index : nat) :
  Forall (fun frame => Forall byte (data frame)) frames ->
  Forall (fun v => v = Vector3.zero) motionVectors ->
  Forall (fun z => Math_fround z = 0%float)
         (depths (fst (reconstructFrom index frames motionVectors density))).
Proof.
  intros B Z. revert index; induction frames as [|frame rest IH]; intros index.
  - constructor.
  - inversion B as [|? ? Bf Br]; subst. cbn [reconstructFrom].
    specialize (IH Br (S index)).
    destruct (reconstructFrom (S index) rest motionVectors density) as [points colors].
    cbn [fst] in *. rewrite (nth_zero index Z).
    change (Vector3.length (Vector3.zero (T := float)) * 10)%float with 0%float.
    apply depths_flat_map; [|exact IH].
    intros p. now apply pointOf_flat.
Qed.

(** X21.  A video without motion is reconstructed flat: when no pixel's
    red channel differs by more than 30 between consecutive frames (in
    particular for a single frame), every motion vector of [analyzeMotion]
    is the zero vector, and every point of the scene that
    [reconstruct3DScene] builds from the frames and these vectors has the z
    coordinate 0. *)
Theorem static_video_is_flat (frames : list ImageData) (preference : option nat) :
  Forall (fun frame => Forall byte (data frame)) frames ->
  static frames = true ->
  Forall (fun v => v = Vector3.make 0 0 0)%float (analyzeMotion frames) /\
  Forall (fun z => z = 0%float)
         (depths (position (reconstruct3DScene frames (analyzeMotion frames)
                                               preference))).
Proof.
  intros B S. pose proof (static_motion frames S) as Z.
  split; [exact Z|].
  unfold reconstruct3DScene.
  pose proof (@reconstructFrom_flat frames (analyzeMotion frames)
                (pointCloudDensity preference) 0 B Z) as F.
  destruct (reconstructFrom 0 frames (analyzeMotion frames)
              (pointCloudDensity preference)) as [points colors].
  cbn [fst position] in *. unfold Float32Array_from.
  rewrite depths_map. now apply Forall_map.
Qed.

Lemma static_video_is_flat_witness :
  Forall (fun v => v = Vector3.make 0 0 0)%float
         (analyzeMotion [Inputs.frame2x2; Inputs.frame2x2]) /\
  Forall (fun z => z = 0%float)
         (depths (position (reconstruct3DScene
                              [Inputs.frame2x2; Inputs.frame2x2]
                              (analyzeMotion [Inputs.frame2x2; Inputs.frame2x2])
                              None))).
Proof.
  apply static_video_is_flat; [|reflexivity].
  repeat constructor; unfold byte; lia.
Defined.

End StaticScene.

(** ** Background removal *)

Module BackgroundFacts.
Import BackgroundProcessor ImageProcessor Sampling Frames.

Lemma nth_error_indexed (l : list Z) (start j : nat) :
  nth_error (combine (seq start (length l)) l) j
  = option_map (fun b => (start + j, b)) (nth_error l j).
Proof.
  revert start j; induction l as [|b l IH]; intros start [|j]; cbn; try reflexivity.
  - now rewrite Nat.add_0_r.
  - rewrite IH. destruct (nth_error l j); cbn; [|reflexivity].
    now rewrite Nat.add_succ_r.
Qed.

(** Entry [j] of the buffer after the loop. *)
Lemma data_after (processedData mask : ImageData) (preference : option float)
    (j : nat) :
  nth_error (data (removeBackground processedData mask preference)) j
  = option_map (fun b => if cleared (data mask) (thresholdOf preference) j
                         then 0%Z else b)
               (nth_error (data processedData) j).
Proof.
  unfold removeBackground. cbn [data].
  rewrite nth_error_map, nth_error_indexed.
  now destruct (nth_error (data processedData) j).
Qed.


Lemma same_frame (a b : ImageData) :
  width a = width b -> height a = height b -> data a = data b -> a = b.
Proof. destruct a, b. cbn. intros -> -> ->. reflexivity. Qed.

(** X22.  The loop of [removeBackground] clears the alpha bytes the mask
    tells it to clear and touches nothing else.  The dimensions and the
    length of the buffer stay, and so does every byte that is not at an
    alpha position (index 3 modulo 4) or for which the mask has no entry at
    the same index.  At an alpha position [j] where the mask holds the byte
    [m], the byte becomes 0 when [m / 255] is below the threshold and stays
    otherwise; the threshold is the preference, or 0.5 when the preference
    is absent, 0 or NaN, and with the threshold 0.5 the byte is cleared
    exactly when [m <= 127].  Bytes stay bytes, and running the loop again
    with the same mask changes nothing. *)
Theorem removeBackground_clears_masked_alpha
    (processedData mask : ImageData) (preference : option float) :
  let after := removeBackground processedData mask preference in
  let threshold :=
    match preference with
    | Some v => if float_truthy v then v else 0.5%float
    | None => 0.5%float
    end in
  width after = width processedData /\
  height after = height processedData /\
  length (data after) = length (data processedData) /\
  (forall j, j mod 4 <> 3 \/ nth_error (data mask) j = None ->
     nth_error (data after) j = nth_error (data processedData) j) /\
  (forall j b m,
     j mod 4 = 3 ->
     nth_error (data processedData) j = Some b ->
     nth_error (data mask) j = Some m ->
     nth_error (data after) j
     = Some (if (float_of_Z m / 255 <? threshold)%float then 0%Z else b)) /\
  (forall j b m,
     threshold = 0.5%float -> byte m ->
     j mod 4 = 3 ->
     nth_error (data processedData) j = Some b ->
     nth_error (data mask) j = Some m ->
     nth_error (data after) j = Some (if (m <=? 127)%Z then 0%Z else b)) /\
  (Forall byte (data processedData) -> Forall byte (data after)) /\
  removeBackground after mask preference = after.
Proof.
  cbv zeta. fold (thresholdOf preference).
  split; [reflexivity|]. split; [reflexivity|].
  split.
  { unfold removeBackground. cbn [data].
    rewrite length_map, length_combine, length_seq. lia. }
  split.
  { intros j M. rewrite data_after. unfold cleared, channel.
    destruct M as [M|M].
    - destruct (Nat.eqb_spec (j mod 4) 3) as [E|_]; [contradiction|].
      now destruct (nth_error (data processedData) j).
    - rewrite M.
      replace (nan <? thresholdOf preference)%float with false.
      + rewrite andb_false_r. now destruct (nth_error (data processedData) j).
      + symmetry. rewrite FloatAxioms.ltb_spec.
        change (Prim2SF nan) with S754_nan. reflexivity. }
  split.
  { intros j b m J B M. rewrite data_after, B. cbn [option_map].
    unfold cleared, channel. rewrite J, M. reflexivity. }
  split.
  { intros j b m T Bm J B M. rewrite data_after, B. cbn [option_map].
    unfold cleared, channel. rewrite J, M, T. cbn [Nat.eqb andb].
    destruct (@SamplingFacts.byte_alpha m Bm) as (A1 & _ & A3).
    cbn zeta in A1, A3.
    assert (L : (float_of_Z m / 255 <? 0.5)%float = (m <=? 127)%Z).
    { transitivity (negb (128 <=? m)%Z).
      - rewrite <- A3, A1. now rewrite negb_involutive.
      - destruct (Z.leb_spec 128 m), (Z.leb_spec m 127); cbn; try reflexivity; lia. }
    now rewrite L. }
  split.
  { intros B. apply Forall_forall. intros b I.
    apply In_nth_error in I. destruct I as [j E].
    rewrite data_after in E.
    destruct (nth_error (data processedData) j) as [b'|] eqn:E'; [|discriminate].
    cbn [option_map] in E. injection E as <-.
    destruct (cleared _ _ _); [unfold byte; lia|].
    apply nth_error_In in E'. rewrite Forall_forall in B. now apply B. }
  apply same_frame; [reflexivity | reflexivity |].
  apply nth_error_ext. intros j. rewrite !data_after.
  destruct (nth_error (data processedData) j); [|reflexivity].
  cbn [option_map]. now destruct (cleared _ _ _).
Qed.

(** A frame of two pixels and a mask whose first alpha byte is below the
    default threshold and whose second is not. *)
Example removeBackground_on_two_pixels :
  data (removeBackground
          {| width := 2; height := 1; data := [10; 20; 30; 255;  40; 50; 60; 255]%Z |}
          {| width := 2; height := 1; data := [0; 0; 0; 127;  0; 0; 0; 128]%Z |}
          None)
  = [10; 20; 30; 0;  40; 50; 60; 255]%Z.
Proof. vm_compute. reflexivity. Qed.






End BackgroundFacts.

(** ** Filling one hole *)

Module FanFacts.
Import MeshProcessor Mesh.

(** [setIndex] keeps index entries that fit 32 bits. *)
Lemma setIndex_uint32 (old : list N) (numbers : list float) :
  uint32 old ->
  setIndex old numbers
  = old ++ map (ToUint (if arrayNeedsUint32 old numbers then 32 else 16)%N) numbers.
Proof.
  intros U. unfold setIndex.
  set (w := if arrayNeedsUint32 old numbers then 32%N else 16%N).
  f_equal. rewrite <- (map_id old) at 2. apply map_ext_in. intros i Hi.
  apply FillFacts.wrap_small. subst w.
  destruct (arrayNeedsUint32 old numbers) eqn:A.
  - unfold uint32 in U. rewrite Forall_forall in U. now apply U.
  - unfold arrayNeedsUint32 in A. apply orb_false_iff in A as [A _].
    assert (B : (65535 <=? i)%N = false).
    { destruct (65535 <=? i)%N eqn:B; [|reflexivity].
      rewrite <- A. symmetry. apply existsb_exists. now exists i. }
    apply N.leb_gt in B. change (2 ^ 16)%N with 65536%N. lia.
Qed.

(** X24.  [fillHole] on a loop of three vertex indices, whatever [findEar]
    would answer: on a mesh whose index entries fit 32 bits it leaves the
    positions and the old index entries as they are and appends exactly
    three entries, which are the x coordinates of the three loop vertices
    converted to unsigned integers (16 bits wide unless an old entry or a
    coordinate is 65535 or more), not the indices of the loop; on a mesh
    without index array it throws a [TypeError], and so it does on every
    loop of fewer than three indices. *)
Theorem fillHole_appends_x_coordinates
    (findEar : list (Vector3.t float) -> Z) (g : MeshGeometry) (i0 i1 i2 : N) :
  let xs := map (fun i => Vector3.x (vertexAt (positions g) (N.to_nat i)))
                [i0; i1; i2] in
  (forall idx, indices g = Some idx -> uint32 idx ->
     fillHole findEar g [i0; i1; i2]
     = Ok {| positions := positions g;
             indices := Some (idx ++ map (ToUint (if arrayNeedsUint32 idx xs
                                                  then 32 else 16)%N) xs) |}) /\
  (indices g = None -> fillHole findEar g [i0; i1; i2] = Throw TypeError) /\
  (forall boundary, length boundary < 3 ->
     fillHole findEar g boundary = Throw TypeError).
Proof.
  cbv zeta. split; [|split].
  - intros idx E U. unfold fillHole. cbn [map].
    change (triangulateHole findEar
              [vertexAt (positions g) (N.to_nat i0);
               vertexAt (positions g) (N.to_nat i1);
               vertexAt (positions g) (N.to_nat i2)])
      with (Ok [Vector3.x (vertexAt (positions g) (N.to_nat i0));
                Vector3.x (vertexAt (positions g) (N.to_nat i1));
                Vector3.x (vertexAt (positions g) (N.to_nat i2))]).
    rewrite E. cbn [bind defined].
    now rewrite (setIndex_uint32 _ U).
  - intros E. unfold fillHole. cbn [map].
    change (triangulateHole findEar
              [vertexAt (positions g) (N.to_nat i0);
               vertexAt (positions g) (N.to_nat i1);
               vertexAt (positions g) (N.to_nat i2)])
      with (Ok [Vector3.x (vertexAt (positions g) (N.to_nat i0));
                Vector3.x (vertexAt (positions g) (N.to_nat i1));
                Vector3.x (vertexAt (positions g) (N.to_nat i2))]).
    now rewrite E.
  - intros boundary L. unfold fillHole.
    rewrite FillFacts.triangulateHole_short; [reflexivity|].
    now rewrite length_map.
Qed.

(** The loop [0, 1, 2] of a mesh whose vertices have the x coordinates 5, 7
    and 9. *)
Example fillHole_on_shifted :
  fillHole Inputs.firstEar Inputs.shifted [0; 1; 2]%N
  = Ok {| positions := positions Inputs.shifted;
          indices := Some [0; 1; 2; 5; 7; 9]%N |}.
Proof. vm_compute. reflexivity. Qed.

End FanFacts.
